(** * nexe runtime bootstrap: the snapshot filesystem shim

    A shallow embedding of [shimFs] / [restoreFs] (the file that installs the
    embedded-archive filesystem and the [Module._findPath] hook) and of the
    hooks it installs, together with the properties the specification states
    about them.

    The development also covers the build-time side: the helpers of the
    bundle step that decide which files of a dependency go into the archive,
    and the decision of the release build task on what to build on which
    host.

    Conventions.
    - JavaScript strings are modelled as [string]; paths in this development
      are ASCII, so UTF-16 code units and bytes coincide.
    - A JavaScript call that may throw returns an [Outcome]; a call made
      inside a [try { } catch { }] of the source is modelled by an [option]
      whose [None] is the caught exception.
    - Objects used as tables ([fs], [patches]) are [gmap string Fn], where
      [Fn] names a function by identity.  Which properties of [fs] can be
      assigned, and the order in which [fs] lists them, are the host's. *)

From Stdlib Require Import Ascii ZArith.
From Stdlib Require String DecimalString.
From stdpp Require Import base option list gmap strings.

Local Open Scope Z_scope.
Local Open Scope nat_scope.

(** ** Strings as the source uses them *)

Module Str.

(** [s.startsWith(p)] *)
Fixpoint startsWith (s p : string) {struct p} : bool :=
  match p, s with
  | EmptyString, _ => true
  | String c p', String d s' => if Ascii.eqb c d then startsWith s' p' else false
  | String _ _, EmptyString => false
  end.

(** [s.slice(n)] for [0 <= n] *)
Fixpoint slice (n : nat) (s : string) : string :=
  match n, s with
  | O, _ => s
  | S n', String _ s' => slice n' s'
  | S _, EmptyString => EmptyString
  end.

(** [s.slice(0, n)] for [0 <= n] *)
Fixpoint take (n : nat) (s : string) : string :=
  match n, s with
  | S n', String c s' => String c (take n' s')
  | _, _ => EmptyString
  end.

(** [s.endsWith(String c EmptyString)] *)
Fixpoint endsWithChar (c : ascii) (s : string) : bool :=
  match s with
  | EmptyString => false
  | String d EmptyString => Ascii.eqb c d
  | String _ s' => endsWithChar c s'
  end.

(** [s.replace(/\\/g, "/")] *)
Fixpoint backslashesToSlashes (s : string) : string :=
  match s with
  | EmptyString => EmptyString
  | String c s' =>
      String (if Ascii.eqb c "\"%char then "/"%char else c) (backslashesToSlashes s')
  end.

(** [s === EmptyString] is what [!s] tests on a string *)
Definition isEmpty (s : string) : bool :=
  match s with EmptyString => true | _ => false end.

(** [s.split(sep)] for a one-character separator *)
Fixpoint split (sep : ascii) (s : string) : list string :=
  match s with
  | EmptyString => [EmptyString]
  | String c s' =>
      if Ascii.eqb c sep then EmptyString :: split sep s'
      else match split sep s' with
           | seg :: segs => String c seg :: segs
           | [] => [String c EmptyString]
           end
  end.

(** [segs.join(sep)] *)
Fixpoint join (sep : string) (segs : list string) : string :=
  match segs with
  | [] => EmptyString
  | [seg] => seg
  | seg :: rest => seg +:+ sep +:+ join sep rest
  end.

(** [arr.includes(s)] on an array of strings *)
Definition includes (arr : list string) (s : string) : bool :=
  existsb (String.eqb s) arr.

End Str.

(** ** Values, exceptions *)

(** The values the hooks exchange with the host runtime. *)
Inductive JSVal : Type :=
| VUndefined
| VNull
| VBool (b : bool)
| VNum (n : Z)
| VStr (s : string)
| VObject (id : nat).

(** JavaScript truthiness. *)
Definition truthy (v : JSVal) : bool :=
  match v with
  | VUndefined | VNull => false
  | VBool b => b
  | VNum n => negb (Z.eqb n 0)
  | VStr s => negb (Str.isEmpty s)
  | VObject _ => true
  end.

Inductive Exn : Type :=
| TypeError
| AssertionError
| HostError (code : string).

(** The result of a call that may throw. *)
Inductive Outcome (A : Type) : Type :=
| Ret (a : A)
| Throw (e : Exn).
Arguments Ret {A} a.
Arguments Throw {A} e.

(** ** The host's [path] module (library code, modelled from Node's
    documented behaviour) *)

Module Path.

(** One step of [normalizeString]: fold a segment into the stack of kept
    segments (most recent first). *)
Definition pushSegment (allowAboveRoot : bool) (stack : list string) (seg : string)
  : list string :=
  if String.eqb seg EmptyString || String.eqb seg "." then stack
  else if String.eqb seg ".." then
    match stack with
    | top :: below =>
        if String.eqb top ".." then
          (if allowAboveRoot then seg :: stack else stack)
        else below
    | [] => if allowAboveRoot then [seg] else []
    end
  else seg :: stack.

Definition normalizeString (path : string) (allowAboveRoot : bool) : string :=
  Str.join "/" (rev (fold_left (pushSegment allowAboveRoot) (Str.split "/" path) [])).

(** [path.posix.normalize] *)
Definition normalize (path : string) : string :=
  if Str.isEmpty path then "."
  else
    let isAbsolute := Str.startsWith path "/" in
    let trailingSeparator := Str.endsWithChar "/" path in
    let body := normalizeString path (negb isAbsolute) in
    if Str.isEmpty body then
      (if isAbsolute then "/" else if trailingSeparator then "./" else ".")
    else
      let body := if trailingSeparator then body +:+ "/" else body in
      if isAbsolute then "/" +:+ body else body.

(** [path.posix.join(...args)] *)
Definition join (args : list string) : string :=
  match filter (fun a => negb (Str.isEmpty a) = true) args with
  | [] => "."
  | parts => normalize (Str.join "/" parts)
  end.

(** [path.posix.isAbsolute] *)
Definition posixIsAbsolute (p : string) : bool := Str.startsWith p "/".

End Path.


(** ** JSON values *)

(** What [JSON.parse] returns.  A number keeps its literal; an object lists
    its members in the order [Object.keys] enumerates them. *)
#[warnings="-register-all"]
Inductive JSON : Type :=
| JNull
| JBool (b : bool)
| JNum (literal : string)
| JStr (s : string)
| JArr (items : list JSON)
| JObj (members : list (string * JSON)).

(** Structural induction that reaches the values nested in arrays and
    objects. *)
Fixpoint JSON_nested_ind (P : JSON -> Prop)
    (Hnull : P JNull) (Hbool : forall b, P (JBool b))
    (Hnum : forall l, P (JNum l)) (Hstr : forall s, P (JStr s))
    (Harr : forall items, Forall P items -> P (JArr items))
    (Hobj : forall members, Forall (fun kv => P kv.2) members -> P (JObj members))
    (j : JSON) {struct j} : P j :=
  let rec := JSON_nested_ind P Hnull Hbool Hnum Hstr Harr Hobj in
  match j with
  | JNull => Hnull
  | JBool b => Hbool b
  | JNum l => Hnum l
  | JStr s => Hstr s
  | JArr items =>
      Harr items
        ((fix all (l : list JSON) : Forall P l :=
            match l with
            | [] => Forall_nil_2 P
            | x :: l' => Forall_cons_2 P x l' (rec x) (all l')
            end) items)
  | JObj members =>
      Hobj members
        ((fix all (l : list (string * JSON)) : Forall (fun kv => P kv.2) l :=
            match l with
            | [] => Forall_nil_2 _
            | kv :: l' => Forall_cons_2 (fun kv => P kv.2) kv l' (rec kv.2) (all l')
            end) members)
  end.

Module Json.

(** Own-property lookup [obj[k]] on an object's member list. *)
Fixpoint lookup (k : string) (members : list (string * JSON)) : option JSON :=
  match members with
  | [] => None
  | (k', v) :: rest => if String.eqb k k' then Some v else lookup k rest
  end.

(** A property read [v.k] for the names the source reads ([exports],
    [main], ["."], [default]); none of them is inherited from a prototype,
    so only the own members of an object can answer.  Reading a property of
    [null] throws; [None] is [undefined]. *)
Definition getProp (v : JSON) (k : string) : Outcome (option JSON) :=
  match v with
  | JNull => Throw TypeError
  | JObj members => Ret (lookup k members)
  | _ => Ret None
  end.

(** The mantissa of a number literal has a non-zero digit.  (A literal so
    small that the host rounds it to zero is not told apart; the shim treats
    every number alike, whatever its truth value.) *)
Fixpoint literalNonZero (l : string) : bool :=
  match l with
  | EmptyString => false
  | String c r =>
      if Ascii.eqb c "e"%char || Ascii.eqb c "E"%char then false
      else if Ascii.eqb c "-"%char || Ascii.eqb c "."%char || Ascii.eqb c "0"%char
           then literalNonZero r
           else true
  end.

(** Truthiness of a parsed value (and of [undefined], as [None]). *)
Definition truthy (v : option JSON) : bool :=
  match v with
  | None | Some JNull => false
  | Some (JBool b) => b
  | Some (JNum l) => literalNonZero l
  | Some (JStr s) => negb (Str.isEmpty s)
  | Some (JArr _) | Some (JObj _) => true
  end.

(** [typeof v === "object"] for a value that is not [null] *)
Definition isObject (v : JSON) : bool :=
  match v with JArr _ | JObj _ => true | _ => false end.

End Json.

(** ** A reference reader for JSON text

    [JSON.parse] belongs to the host; the resolver below is parametric in it.
    This reader is the instance used to run the resolver on concrete
    manifests.  It follows the JSON grammar on ASCII text (a [\u] escape is
    accepted below code point 256) and builds objects the way the host does:
    a repeated key overwrites in place, and keys that are array indices are
    enumerated first, in ascending order. *)

Module JsonText.

Definition dquote : ascii := "034"%char.

Definition isWs (c : ascii) : bool :=
  Ascii.eqb c " "%char || Ascii.eqb c "009"%char
  || Ascii.eqb c "010"%char || Ascii.eqb c "013"%char.

Fixpoint skipWs (s : string) : string :=
  match s with
  | String c r => if isWs c then skipWs r else s
  | EmptyString => s
  end.

Definition isDigit (c : ascii) : bool :=
  (48 <=? nat_of_ascii c) && (nat_of_ascii c <=? 57).

Definition hexVal (c : ascii) : option nat :=
  let n := nat_of_ascii c in
  if (48 <=? n) && (n <=? 57) then Some (n - 48)
  else if (65 <=? n) && (n <=? 70) then Some (n - 55)
  else if (97 <=? n) && (n <=? 102) then Some (n - 87)
  else None.

Definition unescape (c : ascii) : option ascii :=
  if Ascii.eqb c dquote then Some dquote
  else if Ascii.eqb c "\"%char then Some "\"%char
  else if Ascii.eqb c "/"%char then Some "/"%char
  else if Ascii.eqb c "b"%char then Some "008"%char
  else if Ascii.eqb c "f"%char then Some "012"%char
  else if Ascii.eqb c "n"%char then Some "010"%char
  else if Ascii.eqb c "r"%char then Some "013"%char
  else if Ascii.eqb c "t"%char then Some "009"%char
  else None.

(** The body of a string, after its opening quote. *)
Fixpoint readString (s : string) : option (string * string) :=
  match s with
  | EmptyString => None
  | String c r =>
      if Ascii.eqb c dquote then Some (EmptyString, r)
      else if Ascii.eqb c "\"%char then
        match r with
        | String e r' =>
            match unescape e with
            | Some ch =>
                match readString r' with
                | Some (body, rest) => Some (String ch body, rest)
                | None => None
                end
            | None =>
                if Ascii.eqb e "u"%char then
                  match r' with
                  | String h1 (String h2 (String h3 (String h4 r''))) =>
                      match hexVal h1, hexVal h2, hexVal h3, hexVal h4 with
                      | Some 0, Some 0, Some a, Some b =>
                          match readString r'' with
                          | Some (body, rest) =>
                              Some (String (ascii_of_nat (16 * a + b)) body, rest)
                          | None => None
                          end
                      | _, _, _, _ => None
                      end
                  | _ => None
                  end
                else None
            end
        | EmptyString => None
        end
      else if nat_of_ascii c <? 32 then None
      else
        match readString r with
        | Some (body, rest) => Some (String c body, rest)
        | None => None
        end
  end.

(** The longest run of digits at the head of [s]. *)
Fixpoint spanDigits (s : string) : string * string :=
  match s with
  | String c r =>
      if isDigit c then let '(ds, rest) := spanDigits r in (String c ds, rest)
      else (EmptyString, s)
  | EmptyString => (EmptyString, s)
  end.

Definition readInt (s : string) : option (string * string) :=
  match s with
  | String c r =>
      if Ascii.eqb c "0"%char then Some ("0", r)
      else if isDigit c then Some (spanDigits s)
      else None
  | EmptyString => None
  end.

Definition readFrac (s : string) : option (string * string) :=
  match s with
  | String "." r =>
      match spanDigits r with
      | (EmptyString, _) => None
      | (ds, rest) => Some (String "." ds, rest)
      end
  | _ => Some (EmptyString, s)
  end.

Definition readExp (s : string) : option (string * string) :=
  match s with
  | String c r =>
      if Ascii.eqb c "e"%char || Ascii.eqb c "E"%char then
        let '(sign, r1) :=
          match r with
          | String d r' =>
              if Ascii.eqb d "+"%char || Ascii.eqb d "-"%char
              then (String d EmptyString, r') else (EmptyString, r)
          | EmptyString => (EmptyString, r)
          end in
        match spanDigits r1 with
        | (EmptyString, _) => None
        | (ds, rest) => Some (String c (sign +:+ ds), rest)
        end
      else Some (EmptyString, s)
  | EmptyString => Some (EmptyString, s)
  end.

Definition readNumber (s : string) : option (string * string) :=
  let '(sign, r0) :=
    match s with
    | String "-" r => ("-", r)
    | _ => (EmptyString, s)
    end in
  '(i, r1) ← readInt r0;
  '(f, r2) ← readFrac r1;
  '(e, r3) ← readExp r2;
  Some (sign +:+ i +:+ f +:+ e, r3).

(** [k] is an array index: a canonical decimal below [2^32 - 1]. *)
Fixpoint decimal (acc : N) (s : string) : option N :=
  match s with
  | EmptyString => Some acc
  | String c r =>
      if isDigit c then decimal (acc * 10 + N.of_nat (nat_of_ascii c - 48))%N r
      else None
  end.

Definition arrayIndex (k : string) : option N :=
  match k with
  | EmptyString => None
  | String c r =>
      if Ascii.eqb c "0"%char && negb (Str.isEmpty r) then None
      else if 10 <? String.length k then None
      else match decimal 0%N k with
           | Some n => if (n <? 4294967295)%N then Some n else None
           | None => None
           end
  end.

Fixpoint replaceMember (k : string) (v : JSON) (ms : list (string * JSON))
  : option (list (string * JSON)) :=
  match ms with
  | [] => None
  | (k', v') :: rest =>
      if String.eqb k k' then Some ((k, v) :: rest)
      else match replaceMember k v rest with
           | Some rest' => Some ((k', v') :: rest')
           | None => None
           end
  end.

Fixpoint insertIndex (n : N) (k : string) (v : JSON) (ms : list (string * JSON))
  : list (string * JSON) :=
  match ms with
  | [] => [(k, v)]
  | (k', v') :: rest =>
      match arrayIndex k' with
      | Some n' => if (n' <? n)%N then (k', v') :: insertIndex n k v rest
                   else (k, v) :: ms
      | None => (k, v) :: ms
      end
  end.

(** [obj[k] = v] while the object is being built. *)
Definition setMember (ms : list (string * JSON)) (k : string) (v : JSON)
  : list (string * JSON) :=
  match replaceMember k v ms with
  | Some ms' => ms'
  | None =>
      match arrayIndex k with
      | Some n => insertIndex n k v ms
      | None => ms ++ [(k, v)]
      end
  end.

Definition expect (c : ascii) (s : string) : option string :=
  match s with
  | String d r => if Ascii.eqb c d then Some r else None
  | EmptyString => None
  end.

(** A value, the members of an object after its brace, the items of an
    array after its bracket.  Every call consumes input, so fuel equal to
    the length of the text is never exhausted. *)
Fixpoint readValue (fuel : nat) (s : string) : option (JSON * string) :=
  match fuel with
  | O => None
  | S fuel' =>
      match skipWs s with
      | String c r =>
          if Ascii.eqb c "{"%char then
            match skipWs r with
            | String "}" r' => Some (JObj [], r')
            | r' => readMembers fuel' r' []
            end
          else if Ascii.eqb c "["%char then
            match skipWs r with
            | String "]" r' => Some (JArr [], r')
            | r' => readItems fuel' r' []
            end
          else if Ascii.eqb c dquote then
            '(body, rest) ← readString r; Some (JStr body, rest)
          else if Str.startsWith (String c r) "true" then Some (JBool true, Str.slice 4 (String c r))
          else if Str.startsWith (String c r) "false" then Some (JBool false, Str.slice 5 (String c r))
          else if Str.startsWith (String c r) "null" then Some (JNull, Str.slice 4 (String c r))
          else '(lit, rest) ← readNumber (String c r); Some (JNum lit, rest)
      | EmptyString => None
      end
  end
with readMembers (fuel : nat) (s : string) (acc : list (string * JSON))
  : option (JSON * string) :=
  match fuel with
  | O => None
  | S fuel' =>
      r0 ← expect dquote (skipWs s);
      '(key, r1) ← readString r0;
      r2 ← expect ":"%char (skipWs r1);
      '(v, r3) ← readValue fuel' r2;
      let acc' := setMember acc key v in
      match skipWs r3 with
      | String "," r4 => readMembers fuel' r4 acc'
      | String "}" r4 => Some (JObj acc', r4)
      | _ => None
      end
  end
with readItems (fuel : nat) (s : string) (acc : list JSON) : option (JSON * string) :=
  match fuel with
  | O => None
  | S fuel' =>
      '(v, r1) ← readValue fuel' s;
      match skipWs r1 with
      | String "," r2 => readItems fuel' r2 (acc ++ [v])
      | String "]" r2 => Some (JArr (acc ++ [v]), r2)
      | _ => None
      end
  end.

(** The whole text is one value. *)
Definition parse (text : string) : option JSON :=
  '(v, rest) ← readValue (S (String.length text)) text;
  if Str.isEmpty (skipWs rest) then Some v else None.

(** Write a JSON text with apostrophes where it has quotation marks. *)
Fixpoint q (s : string) : string :=
  match s with
  | EmptyString => EmptyString
  | String c r => String (if Ascii.eqb c "'"%char then dquote else c) (q r)
  end.

End JsonText.


(** ** The runtime the shim patches *)

(** Functions are compared by identity.  [HostFn] is a function the host
    runtime owns (its [fs] primitives, its [Module._findPath]); [OverlayFn]
    is a wrapper that [patchFs] installs; the remaining constructors are the
    closures [shimFs] creates. *)
Inductive Fn : Type :=
| HostFn (name : string)
| OverlayFn (name : string)
| InternalModuleReadFile
| InternalModuleReadJSON
| InternalModuleStat
| NexeFindPath (capturedOrigFindPath : Fn).

(** What [fs.Stats] tells the shim: [isFile()] and [isDirectory()]. *)
Inductive Stats : Type := StatFile | StatDirectory | StatOther.

Definition isFileStat (s : Stats) : bool :=
  match s with StatFile => true | _ => false end.
Definition isDirectoryStat (s : Stats) : bool :=
  match s with StatDirectory => true | _ => false end.

Record Layout : Type := {
  resourceStart : nat;
  resourceSize : nat;
  contentSize : nat;
  contentStart : nat
}.

Record NexeHeader : Type := {
  blobPath : string;
  layout : Layout
}.

(** The value of the module-level [lazyRestoreFs]: the initial no-op, or the
    closure [shimFs] assigns, which carries that call's [_origFindPath]. *)
Inductive Restore : Type :=
| RestoreNoop
| RestoreShim (_origFindPath : option Fn).

(** A call into a filesystem primitive made while installing. *)
Inductive HostCall : Type :=
| CallOpenSync (f : Fn) (path : string) (flags : string)
| CallReadSync (f : Fn) (fd : Z) (offset length position : nat)
| CallZipFS (blob : list Byte.byte)
| CallPatchFs (blob : list Byte.byte).

(** The mutable state the module reads and writes.  [Module_findPath] is
    [None] when [Module._findPath] is not a function (or [require("module")]
    throws); [hostCalls] records, oldest first, the primitive calls made by
    [shimFs]. *)
Record Runtime : Type := {
  fs : gmap string Fn;
  patches : gmap string Fn;
  originalPatches : gmap string Fn;
  Module_findPath : option Fn;
  originalFsMethods : option (gmap string Fn);
  lazyRestoreFs : Restore;
  hostCalls : list HostCall
}.

(** The state right after the module is loaded:
    [const patches = process.nexe.patches || {}],
    [const originalPatches = { ...patches }]. *)
Definition moduleLoaded (fs0 patches0 : gmap string Fn) (findPath0 : option Fn) : Runtime :=
  {| fs := fs0; patches := patches0; originalPatches := patches0;
     Module_findPath := findPath0; originalFsMethods := None;
     lazyRestoreFs := RestoreNoop; hostCalls := [] |}.

(** State and exceptions threaded through [shimFs]. *)
Definition Shim (A : Type) : Type := Runtime -> Outcome A * Runtime.

Definition shimRet {A} (a : A) : Shim A := fun st => (Ret a, st).
Definition shimThrow {A} (e : Exn) : Shim A := fun st => (Throw e, st).
Definition shimBind {A B} (m : Shim A) (k : A -> Shim B) : Shim B :=
  fun st => match m st with
            | (Ret a, st') => k a st'
            | (Throw e, st') => (Throw e, st')
            end.
Definition shimGet : Shim Runtime := fun st => (Ret st, st).
Definition shimModify (f : Runtime -> Runtime) : Shim unit := fun st => (Ret tt, f st).
Definition shimLift {A} (o : Outcome A) : Shim A := fun st => (o, st).
Definition shimCall (c : HostCall) : Shim unit :=
  shimModify (fun st =>
    {| fs := fs st; patches := patches st; originalPatches := originalPatches st;
       Module_findPath := Module_findPath st; originalFsMethods := originalFsMethods st;
       lazyRestoreFs := lazyRestoreFs st; hostCalls := hostCalls st ++ [c] |}).

#[global] Instance Shim_ret : MRet Shim := @shimRet.
#[global] Instance Shim_bind : MBind Shim := fun A B k m => shimBind m k.

Definition set_fs (t : gmap string Fn) (st : Runtime) : Runtime :=
  {| fs := t; patches := patches st; originalPatches := originalPatches st;
     Module_findPath := Module_findPath st; originalFsMethods := originalFsMethods st;
     lazyRestoreFs := lazyRestoreFs st; hostCalls := hostCalls st |}.
Definition set_patches (t : gmap string Fn) (st : Runtime) : Runtime :=
  {| fs := fs st; patches := t; originalPatches := originalPatches st;
     Module_findPath := Module_findPath st; originalFsMethods := originalFsMethods st;
     lazyRestoreFs := lazyRestoreFs st; hostCalls := hostCalls st |}.
Definition set_Module_findPath (f : option Fn) (st : Runtime) : Runtime :=
  {| fs := fs st; patches := patches st; originalPatches := originalPatches st;
     Module_findPath := f; originalFsMethods := originalFsMethods st;
     lazyRestoreFs := lazyRestoreFs st; hostCalls := hostCalls st |}.
Definition set_originalFsMethods (o : option (gmap string Fn)) (st : Runtime) : Runtime :=
  {| fs := fs st; patches := patches st; originalPatches := originalPatches st;
     Module_findPath := Module_findPath st; originalFsMethods := o;
     lazyRestoreFs := lazyRestoreFs st; hostCalls := hostCalls st |}.
Definition set_lazyRestoreFs (r : Restore) (st : Runtime) : Runtime :=
  {| fs := fs st; patches := patches st; originalPatches := originalPatches st;
     Module_findPath := Module_findPath st; originalFsMethods := originalFsMethods st;
     lazyRestoreFs := r; hostCalls := hostCalls st |}.

(** The own enumerable properties of an object, in the order the object
    lists them.  [keyOrder] gives that order; a property it does not name
    comes after the ones it names. *)
Definition Object_entries (keyOrder : list string) (object : gmap string Fn)
  : list (string * Fn) :=
  omap (fun key => (fun value => (key, value)) <$> object !! key) keyOrder
  ++ filter (fun entry => entry.1 ∉ keyOrder) (map_to_list object).

(** [Object.assign(target, source)], [source] given by its properties in
    order: each is assigned to [target] in turn, overwriting or extending it;
    nothing is removed.  Assigning a property that [target] holds read-only (a
    non-writable data property, or an accessor without a setter) throws a
    [TypeError]: the properties before it stay assigned, the ones after it are
    not reached. *)
Fixpoint Object_assign (writable : string -> bool) (target : gmap string Fn)
    (source : list (string * Fn)) : Outcome unit * gmap string Fn :=
  match source with
  | [] => (Ret tt, target)
  | (key, value) :: rest =>
      if writable key then Object_assign writable (<[key := value]> target) rest
      else (Throw TypeError, target)
  end.

(** ** The specification's wording, as definitions

    These follow the sentences of the specification, not the source; the
    theorems below compare them with the embedding of the source. *)

Module Spec.

(** The ordered condition set of the resolver. *)
Definition conditions : list string := ["require"; "node"; "default"].

(** "Iterate keys in insertion order; the first key present in the
    condition set selects its value; recurse": the walk commits to the first
    key that is in the condition set.  ("If no key matches and a default key
    is present, recurse into it" adds nothing here, since [default] is in the
    condition set.) *)
Fixpoint firstKeyTarget (v : JSON) {struct v} : option string :=
  match v with
  | JStr s => Some s
  | JObj members =>
      (fix first (ms : list (string * JSON)) : option string :=
         match ms with
         | [] => None
         | (key, value) :: rest =>
             if Str.includes conditions key then firstKeyTarget value else first rest
         end) members
  | _ => None
  end.

(** "Objects may contain a top-level "." subpath key that is unwrapped
    first." *)
Definition unwrapDot (exports : JSON) : JSON :=
  match exports with
  | JObj members =>
      match Json.lookup "." members with
      | Some JNull | None => exports
      | Some v => v
      end
  | _ => exports
  end.

(** The first element on which [f] answers. *)
Definition firstSome {A B : Type} (f : A -> option B) : list A -> option B :=
  fix go (l : list A) : option B :=
    match l with
    | [] => None
    | x :: rest => match f x with
                   | Some y => Some y
                   | None => go rest
                   end
    end.

Definition nonEmpty (t : option string) : option string :=
  match t with
  | Some s => if Str.isEmpty s then None else Some s
  | None => None
  end.

(** The walk as amended: the keys present in the condition set are tried
    in insertion order; a string value is the target; an object value is
    walked and taken when it gives a non-empty target; otherwise the next
    key is tried. *)
Fixpoint conditionalTarget (v : JSON) {struct v} : option string :=
  match v with
  | JStr s => Some s
  | JObj members =>
      firstSome
        (fun member : string * JSON =>
           let '(key, value) := member in
           if Str.includes conditions key then
             match value with
             | JStr s => Some s
             | JObj _ | JArr _ => nonEmpty (conditionalTarget value)
             | _ => None
             end
           else None)
        members
  | _ => None
  end.

Definition exportsTarget (exports : JSON) : option string :=
  match exports with
  | JStr s => Some s
  | JObj _ => conditionalTarget (unwrapDot exports)
  | _ => None
  end.

(** "main (default "index.js")" *)
Definition declaredMain (pkgMain : option JSON) : string :=
  match pkgMain with
  | Some (JStr s) => s
  | _ => "index.js"
  end.

(** "Strip a leading ./; if empty or ., use index.js; if it ends with /,
    append index.js." *)
Definition entryName (main : string) : string :=
  let stripped := match main with
                  | String "." (String "/" rest) => rest
                  | _ => main
                  end in
  let named := match stripped with
               | EmptyString | String "." EmptyString => "index.js"
               | _ => stripped
               end in
  if Str.endsWithChar "/" named then named +:+ "index.js" else named.

(** The first path of a list of guarded candidates whose guard holds. *)
Definition firstHolding (candidates : list (bool * string)) : option string :=
  snd <$> List.find fst candidates.

End Spec.

(** ** The shim *)

Section Shim.

(** *** What the host provides *)

(** [dirname(process.argv[0])], [path.relative], [path.isAbsolute] of the
    host platform, [constants.ENOENT], [JSON.parse]. *)
Variable projectRoot : string.
Variable relative : string -> string -> string.
Variable isAbsolute : string -> bool.
Variable ENOENT : Z.
Variable JSON_parse : string -> option JSON.

(** Calling a filesystem function by identity.  [None] is a thrown
    exception at a call site the source wraps in [try]. *)
Variable call_openSync : Fn -> string -> string -> Outcome Z.
Variable call_readSync : Fn -> Z -> nat -> nat -> nat -> Outcome (list Byte.byte).
Variable call_fstatSync : Fn -> Z -> option Stats.
Variable call_statSync : Fn -> string -> option Stats.
Variable call_readFileSync : Fn -> string -> option string.

(** [new ZipFS(blob, { readOnly: true })] throws on a blob it cannot read;
    [patchFs(fs, new PosixFS(new SnapshotZipFS({ zipFs, baseFs, root })))]
    rewrites the [fs] table. *)
Variable ZipFS_new : list Byte.byte -> Outcome unit.
Variable patchFs : list Byte.byte -> gmap string Fn -> gmap string Fn.

(** The [fs] object that [shimFs] is given (by default [require("fs")]):
    which of its properties can be assigned, and the order in which it lists
    its own enumerable properties.  The patch table is the plain object of
    [process.nexe.patches || {}], whose properties [shimFs] itself assigns. *)
Variable fsWritable : string -> bool.
Variable fsKeyOrder : list string.

(** [const drive = projectRoot.slice(0, 2)] *)
Definition drive : string := Str.take 2 projectRoot.

(** *** Path mapping *)

Definition toSnapshotPath (filePath : string) : string :=
  if Str.startsWith filePath "/snapshot/" then filePath
  else if Str.startsWith filePath (drive +:+ "\snapshot\") then
    "/snapshot/"
      +:+ Str.backslashesToSlashes (Str.slice (String.length drive + 9) filePath)
  else if Str.startsWith filePath projectRoot then
    "/snapshot/" +:+ Str.backslashesToSlashes (relative projectRoot filePath)
  else filePath.

(** [if (p.startsWith("\\\\?\\")) p = p.slice(4)], as both low-level hooks
    do before mapping. *)
Definition stripExtendedPrefix (p : string) : string :=
  if Str.startsWith p "\\?\" then Str.slice 4 p else p.

(** *** Calls through the (possibly patched) [fs] object *)

Definition fs_statSync (st : Runtime) (p : string) : option Stats :=
  f ← fs st !! "statSync"; call_statSync f p.

Definition fs_readFileSync (st : Runtime) (p : string) : option string :=
  f ← fs st !! "readFileSync"; call_readFileSync f p.

Definition originalFsMethods_fstatSync (st : Runtime) (fd : Z) : option Stats :=
  saved ← originalFsMethods st; f ← saved !! "fstatSync"; call_fstatSync f fd.

(** *** Low-level hooks *)

Definition internalModuleReadFile (st : Runtime) (args : list JSVal) : string :=
  let filePath := match nth 0 args VUndefined with
                  | VStr s => s
                  | _ => EmptyString
                  end in
  let filePath := stripExtendedPrefix filePath in
  let mappedPath := toSnapshotPath filePath in
  match fs_readFileSync st mappedPath with
  | Some text => text
  | None => EmptyString
  end.

Definition internalModuleReadJSON (st : Runtime) (args : list JSVal) : JSVal :=
  let content := internalModuleReadFile st args in
  if Str.isEmpty content then VUndefined else VStr content.

Definition internalModuleStat (st : Runtime)
    (original : list JSVal -> Outcome JSVal) (args : list JSVal) : Outcome JSVal :=
  let target := nth 0 args VUndefined in
  match target with
  | VNum fd =>
      match originalFsMethods_fstatSync st fd with
      | Some _ => Ret (VNum 0)
      | None => Ret (VNum (- ENOENT))
      end
  | _ =>
      let statPath := match target with
                      | VStr _ => target
                      | _ => nth 1 args VUndefined
                      end in
      match statPath with
      | VStr statPath =>
          let statPath := stripExtendedPrefix statPath in
          let mappedPath := toSnapshotPath statPath in
          match fs_statSync st mappedPath with
          | Some stat => Ret (VNum (if isDirectoryStat stat then 1 else 0))
          | None => Ret (VNum (- ENOENT))
          end
      | _ => original args
      end
  end.

(** *** The module resolver hook *)

Definition isFile (st : Runtime) (p : string) : bool :=
  match fs_statSync st p with
  | Some stat => isFileStat stat
  | None => false
  end.

(** The body of the [for] loop of [resolveExportsObject] for a key that is
    in [conditions]: [Some s] when the body returns [s], [None] when the
    loop goes on.  [nested] is [resolveExportsObject(value, conditions)]. *)
Definition conditionBranch (value : JSON) (nested : option string) : option string :=
  match value with
  | JStr s => Some s
  | JArr _ | JObj _ =>
      match nested with
      | Some n => if Str.isEmpty n then None else Some n
      | None => None
      end
  | _ => None
  end.

(** The tail of [resolveExportsObject], for [def = obj.default] truthy. *)
Definition defaultBranch (def : JSON) (nested : option string) : option string :=
  match def with
  | JStr s => if Str.isEmpty s then None else Some s
  | JArr _ | JObj _ => nested
  | _ => None
  end.

Definition indexKey (i : nat) : string :=
  DecimalString.NilEmpty.string_of_uint (Nat.to_uint i).

Fixpoint resolveExportsObject (conditions : list string) (obj : JSON) {struct obj}
  : option string :=
  match obj with
  | JStr s => Some s
  | JObj members =>
      let loop :=
        (fix loop (ms : list (string * JSON)) : option string :=
           match ms with
           | [] => None
           | (key, value) :: rest =>
               if Str.includes conditions key then
                 match conditionBranch value (resolveExportsObject conditions value) with
                 | Some s => Some s
                 | None => loop rest
                 end
               else loop rest
           end) members in
      match loop with
      | Some s => Some s
      | None =>
          if negb (Str.includes conditions "default") then
            (fix dflt (ms : list (string * JSON)) : option string :=
               match ms with
               | [] => None
               | (key, def) :: rest =>
                   if String.eqb "default" key
                   then defaultBranch def (resolveExportsObject conditions def)
                   else dflt rest
               end) members
          else None
      end
  | JArr items =>
      (fix loop (i : nat) (vs : list JSON) : option string :=
         match vs with
         | [] => None
         | value :: rest =>
             if Str.includes conditions (indexKey i) then
               match conditionBranch value (resolveExportsObject conditions value) with
               | Some s => Some s
               | None => loop (S i) rest
               end
             else loop (S i) rest
         end) 0 items
  | _ => None
  end.

Definition resolvePackageExports (exports : JSON) (conditions : list string)
  : option string :=
  match exports with
  | JStr s => Some s
  | JArr _ | JObj _ =>
      let subExports :=
        match exports with
        | JObj members =>
            match Json.lookup "." members with
            | Some JNull | None => exports
            | Some v => v
            end
        | _ => exports
        end in
      resolveExportsObject conditions subExports
  | _ => None
  end.

Definition basePath : string := "/snapshot/node_modules".
Definition extensions : list string := [".js"; ".json"; ".node"].

(** [for (const ext of [...]) { if (isFile(p + ext)) return p + ext }] *)
Definition firstWithExtension (st : Runtime) (p : string) : option string :=
  List.find (isFile st) (map (fun ext => p +:+ ext) extensions).

(** Step 1 of the hook, [if (pkg.exports) { ... }]: [Some p] when it
    returns [p]. *)
Definition exportsStep (st : Runtime) (request : string) (exports : option JSON)
  : option string :=
  if Json.truthy exports then
    match exports with
    | Some e =>
        match resolvePackageExports e ["require"; "node"; "default"] with
        | Some exportTarget =>
            if Str.isEmpty exportTarget then None
            else
              let candidate := Path.join [basePath; request; exportTarget] in
              if isFile st candidate then Some candidate
              else firstWithExtension st candidate
        | None => None
        end
    | None => None
    end
  else None.

(** The normalisation of [main]. *)
Definition normalizeMain (main : string) : string :=
  let main := if Str.startsWith main "./" then Str.slice 2 main else main in
  let main := if Str.isEmpty main || String.eqb main "." then "index.js" else main in
  if Str.endsWithChar "/" main then main +:+ "index.js" else main.

(** Steps 2 to 5 of the hook: [Some p] when one of them returns [p]. *)
Definition mainStep (st : Runtime) (request : string) (pkgMain : option JSON)
  : option string :=
  let main := match pkgMain with
              | Some (JStr s) => s
              | _ => "index.js"
              end in
  let main := normalizeMain main in
  let mainPath := Path.join [basePath; request; main] in
  let viaStat :=
    match fs_statSync st mainPath with
    | Some stat =>
        if isFileStat stat then Some mainPath
        else if isDirectoryStat stat then
          let idxPath := Path.join [mainPath; "index.js"] in
          if isFile st idxPath then Some idxPath else None
        else None
    | None => None
    end in
  match viaStat with
  | Some p => Some p
  | None =>
      match firstWithExtension st mainPath with
      | Some p => Some p
      | None =>
          let fallbackIndex := Path.join [basePath; request; "index.js"] in
          if isFile st fallbackIndex then Some fallbackIndex
          else
            let distIndex := Path.join [basePath; request; "dist"; "index.js"] in
            if isFile st distIndex then Some distIndex
            else
              let distMain := Path.join [basePath; request; "dist"; request +:+ ".js"] in
              if isFile st distMain then Some distMain
              else None
      end
  end.

(** [try { result = capturedOrigFindPath.apply(this, args) }
     catch (_) { result = false }] *)
Definition originalResult (origOutcome : Outcome JSVal) : JSVal :=
  match origOutcome with
  | Ret v => v
  | Throw _ => VBool false
  end.

(** [nexeFindPath(...args)] with [request = args[0]] a string;
    [origOutcome] is what [capturedOrigFindPath.apply(this, args)] does. *)
Definition nexeFindPath (st : Runtime) (origOutcome : Outcome JSVal) (request : string)
  : Outcome JSVal :=
  let result := originalResult origOutcome in
  if truthy result then Ret result
  else if Str.isEmpty request || Str.startsWith request "." || isAbsolute request
  then Ret result
  else
    let pkgJsonPath := Path.join [basePath; request; "package.json"] in
    match fs_readFileSync st pkgJsonPath ≫= JSON_parse with
    | None => Ret result
    | Some pkg =>
        match Json.getProp pkg "exports" with
        | Throw e => Throw e
        | Ret exports =>
            match exportsStep st request exports with
            | Some p => Ret (VStr p)
            | None =>
                match Json.getProp pkg "main" with
                | Throw e => Throw e
                | Ret pkgMain =>
                    match mainStep st request pkgMain with
                    | Some p => Ret (VStr p)
                    | None => Ret result
                    end
                end
            end
        end
    end.

(** *** Install and uninstall *)

Definition lookupFn (table : gmap string Fn) (name : string) : Shim Fn :=
  match table !! name with
  | Some f => shimRet f
  | None => shimThrow TypeError
  end.

Definition shimFs (binary : NexeHeader) : Shim unit :=
  st ← shimGet;
  match originalFsMethods st with
  | Some _ => mret tt
  | None =>
      shimModify (set_originalFsMethods (Some (fs st)));;
      let realFs := fs st in
      let size := resourceSize (layout binary) in
      openSync ← lookupFn realFs "openSync";
      shimCall (CallOpenSync openSync (blobPath binary) "r");;
      blobFd ← shimLift (call_openSync openSync (blobPath binary) "r");
      readSync ← lookupFn realFs "readSync";
      shimCall (CallReadSync readSync blobFd 0 size (resourceStart (layout binary)));;
      blob ← shimLift (call_readSync readSync blobFd 0 size (resourceStart (layout binary)));
      (if length blob =? size then mret tt else shimThrow AssertionError);;
      shimCall (CallZipFS blob);;
      shimLift (ZipFS_new blob);;
      shimCall (CallPatchFs blob);;
      shimModify (fun st => set_fs (patchFs blob (fs st)) st);;
      shimModify (fun st =>
        set_patches (<["internalModuleReadFile" := InternalModuleReadFile]> (patches st)) st);;
      shimModify (fun st =>
        set_patches (<["internalModuleReadJSON" := InternalModuleReadJSON]> (patches st)) st);;
      shimModify (fun st =>
        set_patches (<["internalModuleStat" := InternalModuleStat]> (patches st)) st);;
      st ← shimGet;
      let _origFindPath := Module_findPath st in
      match _origFindPath with
      | Some capturedOrigFindPath =>
          shimModify (set_Module_findPath (Some (NexeFindPath capturedOrigFindPath)))
      | None => mret tt
      end;;
      shimModify (set_lazyRestoreFs (RestoreShim _origFindPath))
  end.

(** [restoreFs() { lazyRestoreFs(); }], with the closure that [shimFs]
    assigns to [lazyRestoreFs].  Nothing in it is inside a [try] but the
    assignment to [Module._findPath], so an exception of
    [Object.assign(fs, originalFsMethods)] leaves through [restoreFs] and the
    statements after it do not run.  Every property of the patch table can be
    assigned, so [Object.assign(patches, originalPatches)] does not throw and
    the order of the properties makes no difference to it. *)
Definition restoreFs : Shim unit :=
  st ← shimGet;
  match lazyRestoreFs st with
  | RestoreNoop => mret tt
  | RestoreShim _origFindPath =>
      match originalFsMethods st with
      | Some saved =>
          let assigned :=
            Object_assign fsWritable (fs st) (Object_entries fsKeyOrder saved) in
          shimModify (set_fs assigned.2);;
          shimLift assigned.1
      | None => mret tt
      end;;
      shimModify (fun st =>
        set_patches
          (Object_assign (fun _ => true) (patches st)
             (map_to_list (originalPatches st))).2 st);;
      match _origFindPath with
      | Some f => shimModify (set_Module_findPath (Some f))
      | None => mret tt
      end;;
      shimModify (set_lazyRestoreFs RestoreNoop)
  end.

(** [install(); install(); uninstall()] *)
Definition installTwiceThenUninstall (binary : NexeHeader) : Shim unit :=
  shimFs binary;; shimFs binary;; restoreFs.


(** *** Notions used to state the properties *)

(** The path a low-level hook hands to [fs] for the path [p] it was given:
    the extended-length prefix stripped, then [toSnapshotPath]. *)
Definition hookPath (p : string) : string :=
  toSnapshotPath (stripExtendedPrefix p).

(** What the stat hook answers for a path. *)
Definition statAnswer (st : Runtime) (p : string) : JSVal :=
  match fs_statSync st (hookPath p) with
  | Some StatDirectory => VNum 1
  | Some _ => VNum 0
  | None => VNum (- ENOENT)
  end.

(** The patch table after the three unconditional assignments. *)
Definition hooked (table : gmap string Fn) : gmap string Fn :=
  <["internalModuleStat" := InternalModuleStat]>
    (<["internalModuleReadJSON" := InternalModuleReadJSON]>
       (<["internalModuleReadFile" := InternalModuleReadFile]> table)).

Definition hookedFindPath (slot : option Fn) : option Fn :=
  match slot with
  | Some capturedOrigFindPath => Some (NexeFindPath capturedOrigFindPath)
  | None => None
  end.

(** The state a successful install leaves, given the blob it read. *)
Definition installedState (st0 : Runtime) (calls : list HostCall) (blob : list Byte.byte)
  : Runtime :=
  {| fs := patchFs blob (fs st0);
     patches := hooked (patches st0);
     originalPatches := originalPatches st0;
     Module_findPath := hookedFindPath (Module_findPath st0);
     originalFsMethods := Some (fs st0);
     lazyRestoreFs := RestoreShim (Module_findPath st0);
     hostCalls := hostCalls st0 ++ calls |}.

(** A bare specifier, as the hook tests it. *)
Definition bare (request : string) : Prop :=
  Str.isEmpty request = false
  /\ Str.startsWith request "." = false
  /\ isAbsolute request = false.

(** The manifest of [request] in the snapshot reads and parses to [pkg]. *)
Definition manifest (st : Runtime) (request : string) (pkg : JSON) : Prop :=
  exists text,
    fs_readFileSync st (Path.join [basePath; request; "package.json"]) = Some text
    /\ JSON_parse text = Some pkg.

Definition isDirectoryAt (st : Runtime) (p : string) : bool :=
  match fs_statSync st p with
  | Some stat => isDirectoryStat stat
  | None => false
  end.

(** The candidates of the [main] fallback, in the order the specification
    lists them, each with the test that selects it. *)
Definition mainCandidates (st : Runtime) (request : string) (pkgMain : option JSON)
  : list (bool * string) :=
  let base (rel : list string) := Path.join (basePath :: request :: rel) in
  let entry := base [Spec.entryName (Spec.declaredMain pkgMain)] in
  let index := Path.join [entry; "index.js"] in
  [ (isFile st entry, entry);
    (isDirectoryAt st entry && isFile st index, index);
    (isFile st (entry +:+ ".js"), entry +:+ ".js");
    (isFile st (entry +:+ ".json"), entry +:+ ".json");
    (isFile st (entry +:+ ".node"), entry +:+ ".node");
    (isFile st (base ["index.js"]), base ["index.js"]);
    (isFile st (base ["dist"; "index.js"]), base ["dist"; "index.js"]);
    (isFile st (base ["dist"; request +:+ ".js"]), base ["dist"; request +:+ ".js"]) ].


End Shim.

(** ** A concrete host, to run the shim

    The executable is [/usr/bin/tool]; the archive occupies bytes 2 to 4 of
    it, and the real disk holds nothing else.  [patchFs] replaces the read
    primitives by overlay functions.

    Modelled from the spec: the overlay filesystem ([SnapshotZipFS] is not
    among the sources).  A path that is [/snapshot] or begins with
    [/snapshot/] is served by the archive only, any other path by the real
    disk only.  The archive is given as a list of file paths with their text;
    its directories are the proper ancestors of its files. *)

Module World.

Definition archiveStat (files : list (string * string)) (p : string) : option Stats :=
  if existsb (fun f => String.eqb f.1 p) files then Some StatFile
  else if existsb (fun f => Str.startsWith f.1 (p +:+ "/")) files then Some StatDirectory
  else None.

Definition archiveRead (files : list (string * string)) (p : string) : option string :=
  snd <$> List.find (fun f => String.eqb f.1 p) files.

Definition executable : list Byte.byte :=
  [Byte.x7f; Byte.x45; Byte.x50; Byte.x4b; Byte.x05; Byte.x06].

Definition header : NexeHeader :=
  {| blobPath := "/usr/bin/tool";
     layout := {| resourceStart := 2; resourceSize := 3;
                  contentSize := 0; contentStart := 0 |} |}.

(** A header whose archive would end past the end of the executable. *)
Definition longHeader : NexeHeader :=
  {| blobPath := "/usr/bin/tool";
     layout := {| resourceStart := 2; resourceSize := 9;
                  contentSize := 0; contentStart := 0 |} |}.

Definition call_openSync (f : Fn) (path flags : string) : Outcome Z :=
  match f with
  | HostFn _ => if String.eqb path "/usr/bin/tool" then Ret 3%Z else Throw (HostError "ENOENT")
  | _ => Throw (HostError "EROFS")
  end.

Definition call_readSync (f : Fn) (fd : Z) (offset length position : nat)
  : Outcome (list Byte.byte) :=
  match f with
  | HostFn _ =>
      if Z.eqb fd 3 then Ret (take length (drop position executable))
      else Throw (HostError "EBADF")
  | _ => Throw (HostError "EBADF")
  end.

Definition call_fstatSync (f : Fn) (fd : Z) : option Stats :=
  match f with
  | HostFn _ => if Z.eqb fd 3 then Some StatFile else None
  | _ => None
  end.

Definition realStat (p : string) : option Stats :=
  if String.eqb p "/usr/bin/tool" then Some StatFile
  else if existsb (String.eqb p) ["/"; "/usr"; "/usr/bin"] then Some StatDirectory
  else None.

Definition underSnapshot (p : string) : bool :=
  String.eqb p "/snapshot" || Str.startsWith p "/snapshot/".

Definition call_statSync (files : list (string * string)) (f : Fn) (p : string)
  : option Stats :=
  match f with
  | OverlayFn _ => if underSnapshot p then archiveStat files p else realStat p
  | HostFn _ => realStat p
  | _ => None
  end.

Definition call_readFileSync (files : list (string * string)) (f : Fn) (p : string)
  : option string :=
  match f with
  | OverlayFn _ => if underSnapshot p then archiveRead files p else None
  | _ => None
  end.

Definition ZipFS_new (blob : list Byte.byte) : Outcome unit := Ret tt.

Definition patchFs (blob : list Byte.byte) (t : gmap string Fn) : gmap string Fn :=
  <["statSync" := OverlayFn "statSync"]>
    (<["readFileSync" := OverlayFn "readFileSync"]>
       (<["readSync" := OverlayFn "readSync"]> t)).

Definition fs0 : gmap string Fn :=
  list_to_map
    [("openSync", HostFn "openSync"); ("readSync", HostFn "readSync");
     ("fstatSync", HostFn "fstatSync"); ("statSync", HostFn "statSync");
     ("readFileSync", HostFn "readFileSync")].

(** The module loaded in a runtime whose patch table is empty. *)
Definition loaded : Runtime := moduleLoaded fs0 ∅ (Some (HostFn "_findPath")).

Definition install (binary : NexeHeader) : Shim unit :=
  shimFs call_openSync call_readSync ZipFS_new patchFs binary.

(** The runtime after a successful [install]. *)
Definition installed : Runtime := (install header loaded).2.

Definition ENOENT : Z := 2%Z.

(** The resolver hook over an archive, on a POSIX host. *)
Definition findPath (files : list (string * string)) (text : string -> option JSON)
    (origOutcome : Outcome JSVal) (request : string) : Outcome JSVal :=
  nexeFindPath Path.posixIsAbsolute text (call_statSync files) (call_readFileSync files)
    installed origOutcome request.

(** [path.relative(from, to)] for [to] below [from], which is the only
    case the shim uses. *)
Definition relative (from to : string) : string :=
  let rest := Str.slice (String.length from) to in
  if Str.startsWith rest "/" then Str.slice 1 rest else rest.

End World.

(** The path the stat hook selects by type inspection: the first argument
    when it is a string; otherwise the second, when the first is not a number
    and the second is a string. *)
Definition selectsPath (args : list JSVal) (p : string) : Prop :=
  (exists rest, args = VStr p :: rest)
  \/ (exists ctx rest,
        args = ctx :: VStr p :: rest
        /\ (forall n, ctx <> VNum n) /\ (forall s, ctx <> VStr s)).

(** An archive with an empty file, a manifest and a script. *)
Definition sampleArchive : list (string * string) :=
  [("/snapshot/empty.json", EmptyString);
   ("/snapshot/app/package.json", "{}");
   ("/snapshot/app/main.js", "console.log(1)")].

(** The archives of the resolver scenarios. *)
Definition leftPadArchive : list (string * string) :=
  [("/snapshot/node_modules/left-pad/package.json",
    JsonText.q "{'exports':{'.':{'require':'./cjs/index.js','default':'./esm/index.js'}}}");
   ("/snapshot/node_modules/left-pad/cjs/index.js", "module.exports = 1")].


Definition nullManifestArchive : list (string * string) :=
  [("/snapshot/node_modules/pkg/package.json", "null")].

(** A manifest whose first matching condition leads nowhere. *)
Definition nestedExports : JSON :=
  JObj [("require", JObj [("import", JStr "./a.js")]); ("default", JStr "./b.js")].

Definition nestedArchive : list (string * string) :=
  [("/snapshot/node_modules/pkg/package.json",
    JsonText.q "{'exports':{'require':{'import':'./a.js'},'default':'./b.js'}}");
   ("/snapshot/node_modules/pkg/b.js", "module.exports = 2");
   ("/snapshot/node_modules/pkg/index.js", "module.exports = 3")].


(** ** The host's own [fs] module

    [require("fs")] as [shimFs] gets it by default: next to its functions it
    lists the access constant [F_OK], which it holds read-only.  [HostFn name]
    stands for the value the host keeps under [name]. *)

Module NodeFs.

Definition table : gmap string Fn := <["F_OK" := HostFn "F_OK"]> World.fs0.

Definition keyOrder : list string :=
  ["openSync"; "readSync"; "fstatSync"; "statSync"; "readFileSync"; "F_OK"].

Definition writable (key : string) : bool := negb (String.eqb key "F_OK").

(** The module loaded in a runtime whose patch table is empty. *)
Definition loaded : Runtime := moduleLoaded table ∅ (Some (HostFn "_findPath")).

End NodeFs.

(** ** Further notions used to state the properties *)

(** [s.includes(String c EmptyString)] *)
Fixpoint containsChar (c : ascii) (s : string) : bool :=
  match s with
  | EmptyString => false
  | String d s' => Ascii.eqb c d || containsChar c s'
  end.

(** [t] is one of the string values of [v], at any depth. *)
Fixpoint hasStringLeaf (t : string) (v : JSON) {struct v} : bool :=
  match v with
  | JStr s => String.eqb s t
  | JArr items => existsb (hasStringLeaf t) items
  | JObj members => existsb (fun member => hasStringLeaf t member.2) members
  | _ => false
  end.

(** ** The bundle step: which files go into the archive *)

Module Bundle.

Definition isSeparator (c : ascii) : bool :=
  Ascii.eqb c "/"%char || Ascii.eqb c "\"%char.

(** [file.split(/[\\/]/)] *)
Fixpoint splitPath (s : string) : list string :=
  match s with
  | EmptyString => [EmptyString]
  | String c s' =>
      if isSeparator c then EmptyString :: splitPath s'
      else match splitPath s' with
           | seg :: segs => String c seg :: segs
           | [] => [String c EmptyString]
           end
  end.

(** [parts.lastIndexOf(x)]; [None] is [-1]. *)
Fixpoint lastIndexOf (x : string) (parts : list string) : option nat :=
  match parts with
  | [] => None
  | p :: rest =>
      match lastIndexOf x rest with
      | Some i => Some (S i)
      | None => if String.eqb p x then Some 0 else None
      end
  end.

(** [parts.slice(from, to)] for [from <= to] *)
Definition sliceParts (from to : nat) (parts : list string) : list string :=
  take (to - from) (drop from parts).

(** [s.indexOf(marker)]; [None] is [-1]. *)
Fixpoint indexOf (s marker : string) : option nat :=
  if Str.startsWith s marker then Some 0
  else match s with
       | EmptyString => None
       | String _ s' => S <$> indexOf s' marker
       end.

Definition getModuleName (file : string) : option string :=
  let parts := splitPath file in
  match lastIndexOf "node_modules" parts with
  | None => None
  | Some idx =>
      match parts !! (idx + 1) with
      | None => None
      | Some name =>
          if Str.isEmpty name then None
          else if Str.startsWith name "@"
               then Some (Str.join "/" (sliceParts (idx + 1) (idx + 3) parts))
               else Some name
      end
  end.

(** [sep] is [path.sep]. *)
Definition getModuleBasePath (sep : string) (file moduleName : string) : option string :=
  let parts := splitPath file in
  match lastIndexOf "node_modules" parts with
  | None => None
  | Some idx =>
      let baseParts := sliceParts 0 (idx + 1) parts in
      let baseParts :=
        if Str.startsWith moduleName "@"
        then baseParts ++ Str.split "/" moduleName
        else baseParts ++ [moduleName] in
      Some (Str.join sep baseParts)
  end.

Definition getModuleRelativePath (file moduleName : string) : string :=
  let normalizedFile := Str.backslashesToSlashes file in
  let normalizedModuleName := Str.backslashesToSlashes moduleName in
  let marker := "node_modules/" +:+ normalizedModuleName +:+ "/" in
  match indexOf normalizedFile marker with
  | None => EmptyString
  | Some idx => Str.slice (idx + String.length marker) normalizedFile
  end.

(** [type ModuleRule = { include?: string[]; exclude?: string[] }] *)
Record ModuleRule : Type := {
  include : option (list string);
  exclude : option (list string)
}.

(** [list && list.length > 0] *)
Definition nonEmptyList (l : option (list string)) : option (list string) :=
  match l with
  | Some (g :: gs) => Some (g :: gs)
  | _ => None
  end.

Section WithHost.

(** [minimatch(path, glob)] of the [minimatch] package; [readdirSync],
    [statSync] and [path.join] of the host ([None] is a thrown exception). *)
Variable minimatch : string -> string -> bool.
Variable readdirSync : string -> option (list string).
Variable statSync : string -> option Stats.
Variable join : string -> string -> string.

Definition shouldIncludeFile (file moduleName : string) (rule : ModuleRule) : bool :=
  let rel := getModuleRelativePath file moduleName in
  if Str.isEmpty rel then false
  else if String.eqb rel "package.json" then true
  else
    let includeOk :=
      match nonEmptyList (include rule) with
      | Some globs => existsb (minimatch rel) globs
      | None => true
      end in
    if negb includeOk then false
    else
      match nonEmptyList (exclude rule) with
      | Some globs => negb (existsb (minimatch rel) globs)
      | None => true
      end.

(** [walk(dir)] of [getAllFilesInModule], returning the files it pushes, in
    order.  The recursion follows the directory tree of the host, which the
    source does not bound; [fuel] bounds its depth and [None] is fuel
    exhausted. *)
Fixpoint walk (fuel : nat) (dir : string) : option (list string) :=
  match fuel with
  | O => None
  | S fuel' =>
      match readdirSync dir with
      | None => Some []
      | Some entries =>
          (fix each (es : list string) : option (list string) :=
             match es with
             | [] => Some []
             | entry :: rest =>
                 let fullPath := join dir entry in
                 let here :=
                   match statSync fullPath with
                   | Some StatDirectory => walk fuel' fullPath
                   | Some StatFile => Some [fullPath]
                   | _ => Some []
                   end in
                 match here, each rest with
                 | Some found, Some more => Some (found ++ more)
                 | _, _ => None
                 end
             end) entries
      end
  end.

(** One entry of the loop of [walk]. *)
Definition walkEntry (fuel : nat) (dir entry : string) : option (list string) :=
  match statSync (join dir entry) with
  | Some StatDirectory => walk fuel (join dir entry)
  | Some StatFile => Some [join dir entry]
  | _ => Some []
  end.

Definition getAllFilesInModule (fuel : nat) (basePath : string) : option (list string) :=
  walk fuel basePath.

End WithHost.

End Bundle.

(** [s] has a path separator. *)
Fixpoint hasSeparator (s : string) : bool :=
  match s with
  | EmptyString => false
  | String c s' => Bundle.isSeparator c || hasSeparator s'
  end.

(** Every path separator of [s] is the character [c]. *)
Fixpoint separatorsAre (c : ascii) (s : string) : bool :=
  match s with
  | EmptyString => true
  | String d s' => (negb (Bundle.isSeparator d) || Ascii.eqb d c) && separatorsAre c s'
  end.

(** ** The bundle step: selecting the resources

    The part of [bundle] that runs once the dependencies are resolved:
    [resolved] is [Object.keys(files)], [rulesAt name] is [rules[name]] when it
    is truthy, and the result lists the arguments of the [addResource] calls
    in the order they are made. *)

Module Select.

(** [set.add(x)] on a [Set] kept in insertion order *)
Definition setAdd (x : string) (set : list string) : list string :=
  if existsb (String.eqb x) set then set else set ++ [x].

(** [map.has(name)] on a [Map] kept in insertion order *)
Definition mapHas (name : string) (map : list (string * string)) : bool :=
  existsb (fun entry => String.eqb entry.1 name) map.

Section WithHost.

Variable sep : string.
Variable join : string -> string -> string.
Variable minimatch : string -> string -> bool.
Variable readdirSync : string -> option (list string).
Variable statSync : string -> option Stats.
Variable rulesAt : string -> option Bundle.ModuleRule.

(** Without bundle rules: the [package.json] collected for one resolved
    file. *)
Definition notePackageJson (pkgJsonsToAdd : list string) (key : string) : list string :=
  match Bundle.getModuleName key with
  | Some moduleName =>
      if Str.isEmpty moduleName then pkgJsonsToAdd
      else match Bundle.getModuleBasePath sep key moduleName with
           | Some basePath =>
               if Str.isEmpty basePath then pkgJsonsToAdd
               else setAdd (join basePath "package.json") pkgJsonsToAdd
           | None => pkgJsonsToAdd
           end
  | None => pkgJsonsToAdd
  end.

Definition existsOnDisk (p : string) : bool :=
  match statSync p with Some _ => true | None => false end.

(** [if (Object.keys(rules).length === 0) { ... }] *)
Definition resourcesWithoutRules (resolved : list string) : list string :=
  let pkgJsonsToAdd := fold_left notePackageJson resolved [] in
  resolved ++ filter (fun p => existsOnDisk p = true) pkgJsonsToAdd.

(** With bundle rules: the first loop, which records the base path of each
    module that has a rule. *)
Definition noteModule (modulesWithRules : list (string * string)) (file : string)
  : list (string * string) :=
  match Bundle.getModuleName file with
  | Some moduleName =>
      if negb (Str.isEmpty moduleName)
         && (match rulesAt moduleName with Some _ => true | None => false end)
         && negb (mapHas moduleName modulesWithRules)
      then match Bundle.getModuleBasePath sep file moduleName with
           | Some basePath =>
               if Str.isEmpty basePath then modulesWithRules
               else modulesWithRules ++ [(moduleName, basePath)]
           | None => modulesWithRules
           end
      else modulesWithRules
  | None => modulesWithRules
  end.

(** The second loop: resolved files of modules without a recorded rule. *)
Definition fromRuledModule (modulesWithRules : list (string * string)) (file : string)
  : bool :=
  match Bundle.getModuleName file with
  | Some moduleName => negb (Str.isEmpty moduleName) && mapHas moduleName modulesWithRules
  | None => false
  end.

Definition keepUnruled (modulesWithRules : list (string * string))
    (filesToInclude : list string) (file : string) : list string :=
  if fromRuledModule modulesWithRules file then filesToInclude
  else setAdd file filesToInclude.

(** The third loop, for one module: scan its directory and filter.  [None]
    is the scan out of fuel; reading [rule.include] of a missing rule
    throws. *)
Definition scanModule (fuel : nat) (filesToInclude : option (list string))
    (entry : string * string) : option (list string) :=
  match filesToInclude with
  | None => None
  | Some included =>
      match rulesAt entry.1,
            Bundle.getAllFilesInModule readdirSync statSync join fuel entry.2 with
      | Some rule, Some moduleFiles =>
          Some (fold_left
                  (fun acc file =>
                     if Bundle.shouldIncludeFile minimatch file entry.1 rule
                     then setAdd file acc else acc)
                  moduleFiles included)
      | _, _ => None
      end
  end.

(** [modulesWithRules] after the first loop *)
Definition recordedModules (resolved : list string) : list (string * string) :=
  fold_left noteModule resolved [].

Definition resourcesWithRules (fuel : nat) (resolved : list string) : option (list string) :=
  let modulesWithRules := recordedModules resolved in
  let filesToInclude := fold_left (keepUnruled modulesWithRules) resolved [] in
  fold_left (scanModule fuel) modulesWithRules (Some filesToInclude).

(** The [package.json] that goes with a resolved file: the one in the base
    path of its module. *)
Definition packageJsonOf (key : string) : option string :=
  match Bundle.getModuleName key with
  | Some moduleName =>
      match Bundle.getModuleBasePath sep key moduleName with
      | Some basePath => Some (join basePath "package.json")
      | None => None
      end
  | None => None
  end.

(** A file that the scan of a recorded module returns and its rule accepts. *)
Definition acceptedByScan (fuel : nat) (modules : list (string * string)) (file : string)
  : Prop :=
  exists moduleName basePath rule moduleFiles,
    (moduleName, basePath) ∈ modules
    /\ rulesAt moduleName = Some rule
    /\ Bundle.getAllFilesInModule readdirSync statSync join fuel basePath = Some moduleFiles
    /\ file ∈ moduleFiles
    /\ Bundle.shouldIncludeFile minimatch file moduleName rule = true.

End WithHost.

End Select.

(** ** The release build task: what gets built on which host

    The part of [build] that decides, before anything is compiled. *)

Module Build.

(** [s.includes(sub)] *)
Definition includes (s sub : string) : bool :=
  match Bundle.indexOf s sub with
  | Some _ => true
  | None => false
  end.

(** An environment variable is truthy when it is set and not empty. *)
Definition envTruthy (v : option string) : bool :=
  match v with
  | Some s => negb (Str.isEmpty s)
  | None => false
  end.

(** What [build] goes on to do. *)
Inductive Plan (Target : Type) : Type :=
| NoReleases
| NothingToBuild
| NotOnThisHost (target : Target)
| DockerBuild (target : Target)
| Compile (target : Target) (output : string).
Arguments NoReleases {Target}.
Arguments NothingToBuild {Target}.
Arguments NotOnThisHost {Target} target.
Arguments DockerBuild {Target} target.
Arguments Compile {Target} target output.

Section WithTargets.

(** [NexeTarget], with the two fields the task reads; [getTarget] and
    [semverGt] of the library. *)
Variable Target : Type.
Variable platform : Target -> string.
Variable version : Target -> string.
Variable getTarget : string -> Target.
Variable semverGt : string -> string -> bool.

(** [process.platform], [env.AGENT_JOBNAME], [env.NEXE_VERSION] *)
Variable processPlatform : string.
Variable AGENT_JOBNAME : option string.
Variable NEXE_VERSION : option string.

Definition isWindows : bool := String.eqb processPlatform "win32".
Definition isLinux : bool := String.eqb processPlatform "linux".
Definition isMac : bool := String.eqb processPlatform "darwin".

(** [env.AGENT_JOBNAME || (isWindows && "windows_2017_2015") || (the empty string)] *)
Definition buildHost : string :=
  if envTruthy AGENT_JOBNAME then default EmptyString AGENT_JOBNAME
  else if isWindows then "windows_2017_2015"
  else EmptyString.

Definition findPlatform (name : string) (releases : list Target) : option Target :=
  List.find (fun x => String.eqb (platform x) name) releases.

Definition chooseTarget (releases : list Target) : option Target :=
  let windowsBuild := findPlatform "windows" releases in
  let macBuild := findPlatform "mac" releases in
  let linux := findPlatform "linux" releases in
  let alpine := findPlatform "alpine" releases in
  let target :=
    if envTruthy NEXE_VERSION then Some (getTarget (default EmptyString NEXE_VERSION))
    else if isWindows then windowsBuild
    else if isMac then macBuild
    else if isLinux then linux
    else None in
  if includes buildHost "alpine" then alpine else target.

Definition plan (releases : list Target) : Plan Target :=
  match releases with
  | [] => NoReleases
  | _ =>
      match chooseTarget releases with
      | None => NothingToBuild
      | Some target =>
          if isWindows && includes buildHost "2017"
             && negb (semverGt (version target) "9.99.99")
          then NotOnThisHost target
          else if isWindows && includes buildHost "2015"
                  && semverGt (version target) "9.99.99"
          then NotOnThisHost target
          else if Str.includes ["alpine"] (platform target) && includes buildHost "alpine"
          then DockerBuild target
          else Compile target (if isWindows then "./out.exe" else "./out")
      end
  end.

End WithTargets.

End Build.

(** ** A concrete project on disk, to run the bundle step

    The project in [/app] depends on module [a], whose directory holds its
    manifest, its entry and a test.  The matcher stands for [minimatch] on the
    two shapes of glob used here: [dir/**] and a literal path. *)

Module Disk.

Definition files : list string :=
  ["/app/main.js";
   "/app/node_modules/a/index.js";
   "/app/node_modules/a/package.json";
   "/app/node_modules/a/test/t.js"].

Definition directories : list string :=
  ["/app"; "/app/node_modules"; "/app/node_modules/a"; "/app/node_modules/a/test"].

Definition statSync (p : string) : option Stats :=
  if existsb (String.eqb p) files then Some StatFile
  else if existsb (String.eqb p) directories then Some StatDirectory
  else None.

Definition readdirSync (dir : string) : option (list string) :=
  if String.eqb dir "/app/node_modules/a" then Some ["index.js"; "package.json"; "test"]
  else if String.eqb dir "/app/node_modules/a/test" then Some ["t.js"]
  else None.

Definition join (a b : string) : string := Path.join [a; b].

Definition minimatch (path glob : string) : bool :=
  match Bundle.indexOf glob "/**" with
  | Some i => Str.startsWith path (Str.take (S i) glob)
  | None => String.eqb path glob
  end.

Definition rulesAt (name : string) : option Bundle.ModuleRule :=
  if String.eqb name "a"
  then Some {| Bundle.include := None; Bundle.exclude := Some ["test/**"] |}
  else None.

(** The depth left below a directory. *)
Definition rank (dir : string) : nat :=
  if String.eqb dir "/app/node_modules/a" then 1 else 0.

(** What dependency resolution found. *)
Definition resolved : list string :=
  ["/app/main.js"; "/app/node_modules/a/index.js"; "/app/node_modules/a/test/t.js"].

(** A runtime whose [fs] has no [readFileSync] before the install. *)
Definition bare : Runtime :=
  moduleLoaded (delete "readFileSync" World.fs0) ∅ (Some (HostFn "_findPath")).

(** A release target as a platform and a version; [getTarget] on a version
    string, as on a Linux host. *)
Definition getTarget (v : string) : string * string := ("linux", v).

(** The unbuilt releases. *)
Definition releases : list (string * string) :=
  [("windows", "18.0.0"); ("linux", "18.0.0"); ("alpine", "18.0.0")].

(** Versions compared on their major number only, which is enough for the
    versions above. *)
Definition semverGt (a b : string) : bool :=
  match Bundle.indexOf a ".", Bundle.indexOf b "." with
  | Some i, Some j =>
      (j <? i) || ((i =? j) && negb (String.leb (Str.take i a) (Str.take j b)))
  | _, _ => false
  end.

End Disk.


(** * Properties *)

(** ** Running the embedding *)

Example join_exports :
  Path.join ["/snapshot/node_modules"; "left-pad"; "./cjs/index.js"]
  = "/snapshot/node_modules/left-pad/cjs/index.js".
Proof. vm_compute. reflexivity. Qed.

Example join_dotdot :
  Path.join ["/snapshot/node_modules"; "a/../b"; "../x//y/"]
  = "/snapshot/node_modules/x/y/".
Proof. vm_compute. reflexivity. Qed.

Example parse_left_pad :
  JsonText.parse
    (JsonText.q "{'exports':{'.':{'require':'./cjs/index.js','default':'./esm/index.js'}}}")
  = Some (JObj [("exports",
                 JObj [(".", JObj [("require", JStr "./cjs/index.js");
                                   ("default", JStr "./esm/index.js")])])]).
Proof. vm_compute. reflexivity. Qed.

Example parse_misc :
  JsonText.parse (JsonText.q " { 'b' : [1, -2.50e+3, true, null], '1': {}, 'b': 'x\/y', '0': false } ")
  = Some (JObj [("0", JBool false); ("1", JObj []); ("b", JStr "x/y")]).
Proof. vm_compute. reflexivity. Qed.

Example parse_null : JsonText.parse "null" = Some JNull.
Proof. vm_compute. reflexivity. Qed.

Example parse_rejects :
  JsonText.parse EmptyString = None /\ JsonText.parse "{" = None
  /\ JsonText.parse "01" = None /\ JsonText.parse "{} x" = None
  /\ JsonText.parse (JsonText.q "{'a':1,}") = None.
Proof. vm_compute. repeat split. Qed.

Example world_install_ok : (World.install World.header World.loaded).1 = Ret tt.
Proof. vm_compute. reflexivity. Qed.

Example world_left_pad :
  World.findPath
    [("/snapshot/node_modules/left-pad/package.json",
      JsonText.q "{'exports':{'.':{'require':'./cjs/index.js','default':'./esm/index.js'}}}");
     ("/snapshot/node_modules/left-pad/cjs/index.js", "module.exports = 1")]
    JsonText.parse (Ret (VBool false)) "left-pad"
  = Ret (VStr "/snapshot/node_modules/left-pad/cjs/index.js").
Proof. vm_compute. reflexivity. Qed.

Example world_axios :
  World.findPath
    [("/snapshot/node_modules/axios/package.json", JsonText.q "{'main':'./lib/axios'}");
     ("/snapshot/node_modules/axios/lib/axios.js", "module.exports = 1")]
    JsonText.parse (Ret (VBool false)) "axios"
  = Ret (VStr "/snapshot/node_modules/axios/lib/axios.js").
Proof. vm_compute. reflexivity. Qed.

Example world_widget :
  World.findPath
    [("/snapshot/node_modules/widget/package.json", "{}");
     ("/snapshot/node_modules/widget/dist/index.js", "module.exports = 1")]
    JsonText.parse (Ret (VBool false)) "widget"
  = Ret (VStr "/snapshot/node_modules/widget/dist/index.js").
Proof. vm_compute. reflexivity. Qed.

Example world_null_manifest :
  World.findPath [("/snapshot/node_modules/pkg/package.json", "null")]
    JsonText.parse (Ret (VBool false)) "pkg"
  = Throw TypeError.
Proof. vm_compute. reflexivity. Qed.

(** ** Strings *)

Lemma append_String (c : ascii) (s t : string) : String c s +:+ t = String c (s +:+ t).
Proof. reflexivity. Qed.

Lemma append_Empty (t : string) : EmptyString +:+ t = t.
Proof. reflexivity. Qed.

Lemma startsWith_append (p s : string) : Str.startsWith (p +:+ s) p = true.
Proof.
  induction p as [|c p IH]; [reflexivity|].
  rewrite append_String. simpl. rewrite Ascii.eqb_refl. exact IH.
Qed.

Lemma slice_append (p s : string) : Str.slice (String.length p) (p +:+ s) = s.
Proof. induction p as [|c p IH]; [reflexivity|]. rewrite append_String. exact IH. Qed.

Lemma append_assoc (a b c : string) : (a +:+ b) +:+ c = a +:+ (b +:+ c).
Proof. induction a as [|x a IH]; [reflexivity|]. rewrite !append_String, IH. reflexivity. Qed.

Lemma isEmpty_true (s : string) : Str.isEmpty s = true <-> s = EmptyString.
Proof. destruct s; simpl; split; congruence. Qed.

Lemma isEmpty_false (s : string) : Str.isEmpty s = false <-> s <> EmptyString.
Proof. destruct s; simpl; split; congruence. Qed.

Lemma length_two (d : string) :
  String.length d = 2 -> exists a b, d = String a (String b EmptyString).
Proof.
  destruct d as [|a [|b [|c d]]]; simpl; intros H; try discriminate.
  eauto.
Qed.

(** ** Path mapping *)

Section PathMapping.

Variable projectRoot : string.
Variable relative : string -> string -> string.

Local Abbreviation mapPath := (toSnapshotPath projectRoot relative).

Lemma toSnapshotPath_snapshot (p : string) :
  Str.startsWith p "/snapshot/" = true -> mapPath p = p.
Proof. intros H. unfold toSnapshotPath. rewrite H. reflexivity. Qed.

(** The result of either rewriting branch is already a snapshot path. *)
Lemma startsWith_snapshot_prefix (rest : string) :
  Str.startsWith ("/snapshot/" +:+ rest) "/snapshot/" = true.
Proof. apply startsWith_append. Qed.

(** A path that begins with two characters and a backslash is not a POSIX
    snapshot path. *)
Lemma drive_path_not_posix (d rest : string) :
  String.length d = 2 ->
  Str.startsWith (d +:+ "\snapshot\" +:+ rest) "/snapshot/" = false.
Proof.
  intros Hd. destruct (length_two d Hd) as (a & b & ->).
  rewrite !append_String, append_Empty. cbn [Str.startsWith].
  destruct (Ascii.eqb "/" a); [|reflexivity].
  destruct (Ascii.eqb "s" b); reflexivity.
Qed.

(** C3: for a path that begins with the two-character drive followed by
    [\snapshot\], the source slices at [drive.length + 9], one character
    short of the twelve-character prefix, so the prefix's closing backslash
    is kept and becomes a second slash: the result is ["/snapshot//"]
    followed by the remainder with its backslashes converted, not
    ["/snapshot/"] followed by it. *)
Theorem toSnapshotPath_drive_prefix_keeps_separator (rest : string) :
  String.length (drive projectRoot) = 2 ->
  mapPath (drive projectRoot +:+ "\snapshot\" +:+ rest)
  = "/snapshot//" +:+ Str.backslashesToSlashes rest.
Proof.
  intros Hd. unfold toSnapshotPath.
  rewrite (drive_path_not_posix _ _ Hd).
  rewrite <- append_assoc, startsWith_append.
  rewrite Hd. destruct (length_two _ Hd) as (a & b & ->).
  reflexivity.
Qed.

(** The mapping steps alone are idempotent on every path, and a path that
    already begins with [/snapshot/] is returned unchanged. *)
Lemma toSnapshotPath_idempotent :
  (forall p, mapPath (mapPath p) = mapPath p)
  /\ (forall p, Str.startsWith p "/snapshot/" = true -> mapPath p = p).
Proof.
  split; [|exact toSnapshotPath_snapshot].
  intros p. unfold toSnapshotPath at 2 3.
  destruct (Str.startsWith p "/snapshot/") eqn:Hposix.
  - apply toSnapshotPath_snapshot, Hposix.
  - destruct (Str.startsWith p (drive projectRoot +:+ "\snapshot\")) eqn:Hwin.
    + apply toSnapshotPath_snapshot, startsWith_snapshot_prefix.
    + destruct (Str.startsWith p projectRoot) eqn:Hroot.
      * apply toSnapshotPath_snapshot, startsWith_snapshot_prefix.
      * unfold toSnapshotPath. rewrite Hposix, Hwin, Hroot. reflexivity.
Qed.

(** The low-level hooks strip the extended-length prefix once before they
    map the path; that composition is not idempotent, because stripping can
    uncover a second prefix. *)
Lemma hookPath_strips_once :
  hookPath "C:\app" relative "\\?\\\?\x" = "\\?\x"
  /\ hookPath "C:\app" relative (hookPath "C:\app" relative "\\?\\\?\x") = "x".
Proof. split; reflexivity. Qed.

Local Abbreviation toVirtual := (hookPath projectRoot relative).

(** The mapping steps leave a path as it is or give a snapshot path. *)
Lemma toSnapshotPath_cases (p : string) :
  mapPath p = p \/ Str.startsWith (mapPath p) "/snapshot/" = true.
Proof.
  unfold toSnapshotPath.
  destruct (Str.startsWith p "/snapshot/") eqn:Hposix; [left; reflexivity|].
  destruct (Str.startsWith p (drive projectRoot +:+ "\snapshot\"));
    [right; apply startsWith_snapshot_prefix|].
  destruct (Str.startsWith p projectRoot);
    [right; apply startsWith_snapshot_prefix|left; reflexivity].
Qed.

Lemma snapshot_path_not_extended (s : string) :
  Str.startsWith s "/snapshot/" = true -> Str.startsWith s "\\?\" = false.
Proof.
  destruct s as [|c s]; [discriminate|]. cbn [Str.startsWith].
  destruct (Ascii.eqb_spec "/" c) as [<-|_]; [reflexivity|discriminate].
Qed.

Lemma stripExtendedPrefix_shorter (s : string) :
  Str.startsWith s "\\?\" = true -> String.length (Str.slice 4 s) < String.length s.
Proof.
  destruct s as [|a [|b [|c [|d s]]]]; cbn [Str.startsWith];
    repeat match goal with
           | |- context [Ascii.eqb ?x ?y] => destruct (Ascii.eqb x y)
           end; try discriminate.
  intros _. cbn [Str.slice String.length]. lia.
Qed.

(** C9, as amended: the normaliser of the hooks, which strips one
    extended-length prefix and then maps the path, gives the same result when
    applied twice exactly when its result does not itself begin with the
    extended-length prefix; that is so for every path that, after one prefix
    is stripped, does not begin with another.  The mapping steps alone are
    idempotent on every path, and a path that already begins with
    [/snapshot/] is returned unchanged. *)
Theorem hookPath_idempotent (p : string) :
  (toVirtual (toVirtual p) = toVirtual p
   <-> Str.startsWith (toVirtual p) "\\?\" = false)
  /\ (Str.startsWith (stripExtendedPrefix p) "\\?\" = false ->
      toVirtual (toVirtual p) = toVirtual p)
  /\ mapPath (mapPath p) = mapPath p
  /\ (Str.startsWith p "/snapshot/" = true -> toVirtual p = p).
Proof.
  assert (forall q, toVirtual (mapPath q) = mapPath q
                    <-> Str.startsWith (mapPath q) "\\?\" = false) as Hiff.
  { intros q. unfold hookPath, stripExtendedPrefix.
    destruct (Str.startsWith (mapPath q) "\\?\") eqn:Hextended.
    - split; [|discriminate]. intros Heq. exfalso.
      destruct (toSnapshotPath_cases (Str.slice 4 (mapPath q))) as [Hsame|Hsnapshot].
      + rewrite Hsame in Heq.
        pose proof (stripExtendedPrefix_shorter _ Hextended) as Hshorter.
        rewrite Heq in Hshorter. lia.
      + rewrite Heq in Hsnapshot.
        rewrite (snapshot_path_not_extended _ Hsnapshot) in Hextended. discriminate.
    - split; [reflexivity|]. intros _. apply (proj1 toSnapshotPath_idempotent). }
  split; [apply Hiff|]. split; [|split].
  - intros Hone. apply Hiff.
    destruct (toSnapshotPath_cases (stripExtendedPrefix p)) as [->|Hsnapshot];
      [exact Hone|apply snapshot_path_not_extended, Hsnapshot].
  - apply (proj1 toSnapshotPath_idempotent).
  - intros Hsnapshot. unfold hookPath, stripExtendedPrefix.
    rewrite (snapshot_path_not_extended _ Hsnapshot).
    apply toSnapshotPath_snapshot, Hsnapshot.
Qed.

End PathMapping.

(** ** The low-level hooks *)

Section Hooks.

Variable projectRoot : string.
Variable relative : string -> string -> string.
Variable ENOENT : Z.
Variable call_fstatSync : Fn -> Z -> option Stats.
Variable call_statSync : Fn -> string -> option Stats.
Variable call_readFileSync : Fn -> string -> option string.

Local Abbreviation toVirtual := (hookPath projectRoot relative).
Local Abbreviation readFile :=
  (internalModuleReadFile projectRoot relative call_readFileSync).
Local Abbreviation readJSON :=
  (internalModuleReadJSON projectRoot relative call_readFileSync).
Local Abbreviation statHook :=
  (internalModuleStat projectRoot relative ENOENT call_fstatSync call_statSync).
Local Abbreviation fileAt := (fs_readFileSync call_readFileSync).
Local Abbreviation statAt := (fs_statSync call_statSync).
Local Abbreviation answer := (statAnswer projectRoot relative ENOENT call_statSync).

Lemma internalModuleReadFile_path (st : Runtime) (p : string) (rest : list JSVal) :
  readFile st (VStr p :: rest)
  = match fileAt st (toVirtual p) with
    | Some text => text
    | None => EmptyString
    end.
Proof. reflexivity. Qed.

(** C5, as amended: the plain read hook returns the file's text when the
    file at the translated path is present and the empty string when it is
    absent; the JSON variant returns the text when the file is present and
    not empty, and the absent marker when the file is absent or present but
    empty. *)
Theorem read_hooks_present_absent (st : Runtime) (p : string) (rest : list JSVal) :
  (forall text, fileAt st (toVirtual p) = Some text ->
     readFile st (VStr p :: rest) = text)
  /\ (fileAt st (toVirtual p) = None ->
     readFile st (VStr p :: rest) = EmptyString)
  /\ (forall text, fileAt st (toVirtual p) = Some text -> text <> EmptyString ->
     readJSON st (VStr p :: rest) = VStr text)
  /\ (fileAt st (toVirtual p) = None ->
     readJSON st (VStr p :: rest) = VUndefined)
  /\ (fileAt st (toVirtual p) = Some EmptyString ->
     readJSON st (VStr p :: rest) = VUndefined).
Proof.
  unfold internalModuleReadJSON. rewrite internalModuleReadFile_path.
  repeat split.
  - intros text ->. reflexivity.
  - intros ->. reflexivity.
  - intros text -> Hne. apply isEmpty_false in Hne. rewrite Hne. reflexivity.
  - intros ->. reflexivity.
  - intros ->. reflexivity.
Qed.

(** C10: when the first argument is neither a number nor a string and the
    second is not a string, the stat hook calls the original primitive with
    the arguments it received and returns what that call does. *)
Theorem internalModuleStat_fallback (st : Runtime)
    (original : list JSVal -> Outcome JSVal) (args : list JSVal) :
  (forall n, nth 0 args VUndefined <> VNum n) ->
  (forall s, nth 0 args VUndefined <> VStr s) ->
  (forall s, nth 1 args VUndefined <> VStr s) ->
  statHook st original args = original args.
Proof.
  intros Hnum Hstr Hsnd. unfold internalModuleStat.
  destruct (nth 0 args VUndefined) as [| |b|n|s|id] eqn:Hfirst;
    try (exfalso; eapply Hnum; reflexivity);
    try (exfalso; eapply Hstr; reflexivity);
    destruct (nth 1 args VUndefined) as [| |b'|n'|s'|id'] eqn:Hsecond;
    try (exfalso; eapply Hsnd; reflexivity); reflexivity.
Qed.


Lemma internalModuleStat_path_first (st : Runtime) original (p : string) rest :
  statHook st original (VStr p :: rest) = Ret (answer st p).
Proof.
  unfold internalModuleStat, statAnswer. simpl.
  destruct (fs_statSync call_statSync st _) as [[]|]; reflexivity.
Qed.

Lemma internalModuleStat_path_second (st : Runtime) original (ctx : JSVal) (p : string) rest :
  (forall n, ctx <> VNum n) -> (forall s, ctx <> VStr s) ->
  statHook st original (ctx :: VStr p :: rest) = Ret (answer st p).
Proof.
  intros Hnum Hstr. unfold internalModuleStat, statAnswer. simpl.
  destruct ctx as [| |b|n|s|id];
    try (exfalso; eapply Hnum; reflexivity);
    try (exfalso; eapply Hstr; reflexivity);
    destruct (fs_statSync call_statSync st _) as [[]|]; reflexivity.
Qed.

Lemma internalModuleStat_descriptor (st : Runtime) original (fd : Z) rest :
  statHook st original (VNum fd :: rest)
  = Ret (VNum (match originalFsMethods_fstatSync call_fstatSync st fd with
               | Some _ => 0
               | None => - ENOENT
               end)).
Proof.
  unfold internalModuleStat. simpl.
  destruct (originalFsMethods_fstatSync call_fstatSync st fd); reflexivity.
Qed.

End Hooks.

(** ** Install and uninstall *)

Section Install.

Variable call_openSync : Fn -> string -> string -> Outcome Z.
Variable call_readSync : Fn -> Z -> nat -> nat -> nat -> Outcome (list Byte.byte).
Variable ZipFS_new : list Byte.byte -> Outcome unit.
Variable patchFs : list Byte.byte -> gmap string Fn -> gmap string Fn.

Local Abbreviation install := (shimFs call_openSync call_readSync ZipFS_new patchFs).


Ltac run_shim :=
  unfold shimFs, lookupFn, mbind, mret, Shim_bind, Shim_ret, shimBind, shimGet,
    shimModify, shimCall, shimLift, shimRet, shimThrow; simpl.

Lemma shimFs_already_installed (binary : NexeHeader) (st : Runtime) :
  originalFsMethods st <> None -> install binary st = (Ret tt, st).
Proof.
  intros H. run_shim. destruct (originalFsMethods st); [reflexivity|congruence].
Qed.


(** A first install that succeeds ends in [installedState]. *)
Lemma shimFs_success_inv (binary : NexeHeader) (st0 st : Runtime) :
  originalFsMethods st0 = None ->
  install binary st0 = (Ret tt, st) ->
  exists calls blob, st = installedState patchFs st0 calls blob.
Proof.
  intros Hnone. run_shim. rewrite Hnone. simpl.
  destruct (fs st0 !! "openSync") as [fopen|]; simpl; [|discriminate].
  destruct (call_openSync fopen _ _) as [fd|]; simpl; [|discriminate].
  destruct (fs st0 !! "readSync") as [fread|]; simpl; [|discriminate].
  destruct (call_readSync fread fd _ _ _) as [bytes|]; simpl; [|discriminate].
  destruct (length bytes =? _); simpl; [|discriminate].
  destruct (ZipFS_new bytes) as [[]|]; simpl; [|discriminate].
  unfold installedState, hooked, hookedFindPath.
  destruct (Module_findPath st0); simpl; intros [= <-]; rewrite <- !app_assoc;
    eexists _, bytes; reflexivity.
Qed.


Lemma hooked_lookup (table : gmap string Fn) (k : string) :
  hooked table !! k
  = if decide (k = "internalModuleStat") then Some InternalModuleStat
    else if decide (k = "internalModuleReadJSON") then Some InternalModuleReadJSON
    else if decide (k = "internalModuleReadFile") then Some InternalModuleReadFile
    else table !! k.
Proof.
  unfold hooked. rewrite !lookup_insert.
  repeat case_decide; subst; congruence.
Qed.

End Install.

(** ** [Object.assign] *)

Lemma Object_entries_elem (keyOrder : list string) (object : gmap string Fn)
    (k : string) (v : Fn) :
  (k, v) ∈ Object_entries keyOrder object <-> object !! k = Some v.
Proof.
  unfold Object_entries. rewrite elem_of_app, list_elem_of_omap, list_elem_of_filter.
  rewrite elem_of_map_to_list. cbn [fst]. split.
  - intros [(key & Hkey & Hsome)|[_ H]]; [|exact H].
    destruct (object !! key) as [value|] eqn:Hvalue; [|discriminate].
    cbn in Hsome. injection Hsome as -> ->. exact Hvalue.
  - intros Hk. destruct (decide (k ∈ keyOrder)) as [Hin|Hout].
    + left. exists k. split; [exact Hin|]. rewrite Hk. reflexivity.
    + right. split; [exact Hout|exact Hk].
Qed.

(** Whatever happens, a property of the target holds what it held or what
    the source holds for it. *)
Lemma Object_assign_lookup (writable : string -> bool) (source : list (string * Fn))
    (target : gmap string Fn) (k : string) :
  (Object_assign writable target source).2 !! k = target !! k
  \/ exists v, (k, v) ∈ source /\ (Object_assign writable target source).2 !! k = Some v.
Proof.
  revert target. induction source as [|[key value] rest IH]; intros target;
    cbn [Object_assign]; [left; reflexivity|].
  destruct (writable key); [|left; reflexivity].
  destruct (IH (<[key := value]> target)) as [Hsame|(v & Hin & Hv)].
  - rewrite Hsame, lookup_insert. case_decide as Hkey; [|left; reflexivity].
    subst key. right. exists value. split; [left|reflexivity].
  - right. exists v. split; [right; exact Hin|exact Hv].
Qed.

Lemma Object_assign_outcome (writable : string -> bool) (source : list (string * Fn))
    (target : gmap string Fn) :
  (Object_assign writable target source).1 = Ret tt
  \/ (Object_assign writable target source).1 = Throw TypeError.
Proof.
  revert target. induction source as [|[key value] rest IH]; intros target;
    cbn [Object_assign]; [left; reflexivity|].
  destruct (writable key); [apply IH|right; reflexivity].
Qed.

(** When every property of the source can be assigned, all of them are. *)
Lemma Object_assign_writable (writable : string -> bool) (source : list (string * Fn))
    (target : gmap string Fn) :
  (forall k v, (k, v) ∈ source -> writable k = true) ->
  (forall k v v', (k, v) ∈ source -> (k, v') ∈ source -> v = v') ->
  (Object_assign writable target source).1 = Ret tt
  /\ forall k v, (k, v) ∈ source ->
       (Object_assign writable target source).2 !! k = Some v.
Proof.
  revert target. induction source as [|[key value] rest IH]; intros target Hw Hfun;
    cbn [Object_assign].
  { split; [reflexivity|]. intros k v Hin. apply elem_of_nil in Hin. contradiction. }
  rewrite (Hw key value) by left.
  destruct (IH (<[key := value]> target)) as [Hret Hall].
  { intros k v Hin. apply (Hw k v). right. exact Hin. }
  { intros k v v' Hin Hin'. apply (Hfun k v v'); right; assumption. }
  split; [exact Hret|].
  intros k v Hin. apply elem_of_cons in Hin as [[= -> ->]|Hin]; [|apply Hall, Hin].
  destruct (Object_assign_lookup writable rest (<[key := value]> target) key)
    as [Hsame|(v & Hin & Hv)].
  - rewrite Hsame, lookup_insert. case_decide; [reflexivity|congruence].
  - rewrite Hv. f_equal. apply (Hfun key v value); [right; exact Hin|left].
Qed.

(** A read-only property of the target among those of the source makes the
    assignment throw. *)
Lemma Object_assign_read_only (writable : string -> bool) (source : list (string * Fn))
    (target : gmap string Fn) (k : string) (v : Fn) :
  (k, v) ∈ source -> writable k = false ->
  (Object_assign writable target source).1 = Throw TypeError.
Proof.
  revert target. induction source as [|[key value] rest IH]; intros target Hin Hro;
    [apply elem_of_nil in Hin; contradiction|].
  cbn [Object_assign]. destruct (writable key) eqn:Hkey; [|reflexivity].
  apply elem_of_cons in Hin as [[= -> ->]|Hin]; [congruence|].
  apply IH; assumption.
Qed.

(** On a plain object the assignment is the union that prefers the source. *)
Lemma Object_assign_plain (target source : gmap string Fn) (k : string) :
  (Object_assign (fun _ => true) target (map_to_list source)).2 !! k
  = (source ∪ target) !! k.
Proof.
  destruct (Object_assign_writable (fun _ => true) (map_to_list source) target)
    as [_ Hall].
  { reflexivity. }
  { intros key v v' Hv Hv'. apply elem_of_map_to_list in Hv, Hv'. congruence. }
  destruct (source !! k) as [v|] eqn:Hk.
  - rewrite (Hall k v) by (apply elem_of_map_to_list, Hk).
    symmetry. apply lookup_union_Some_l, Hk.
  - rewrite lookup_union_r by exact Hk.
    destruct (Object_assign_lookup (fun _ => true) (map_to_list source) target k)
      as [Hsame|(v & Hin & _)]; [exact Hsame|].
    apply elem_of_map_to_list in Hin. congruence.
Qed.

(** ** Uninstall *)

Section Uninstall.

Variable call_openSync : Fn -> string -> string -> Outcome Z.
Variable call_readSync : Fn -> Z -> nat -> nat -> nat -> Outcome (list Byte.byte).
Variable ZipFS_new : list Byte.byte -> Outcome unit.
Variable patchFs : list Byte.byte -> gmap string Fn -> gmap string Fn.
Variable fsWritable : string -> bool.
Variable fsKeyOrder : list string.

Local Abbreviation install := (shimFs call_openSync call_readSync ZipFS_new patchFs).
Local Abbreviation uninstall := (restoreFs fsWritable fsKeyOrder).

(** The run of [restoreFs], in any state. *)
Lemma restoreFs_run (st : Runtime) :
  uninstall st
  = match lazyRestoreFs st with
    | RestoreNoop => (Ret tt, st)
    | RestoreShim _origFindPath =>
        let assigned :=
          match originalFsMethods st with
          | Some saved =>
              Object_assign fsWritable (fs st) (Object_entries fsKeyOrder saved)
          | None => (Ret tt, fs st)
          end in
        match assigned.1 with
        | Ret _ =>
            (Ret tt,
             {| fs := assigned.2;
                patches := (Object_assign (fun _ => true) (patches st)
                              (map_to_list (originalPatches st))).2;
                originalPatches := originalPatches st;
                Module_findPath := match _origFindPath with
                                   | Some f => Some f
                                   | None => Module_findPath st
                                   end;
                originalFsMethods := originalFsMethods st;
                lazyRestoreFs := RestoreNoop;
                hostCalls := hostCalls st |})
        | Throw e => (Throw e, set_fs assigned.2 st)
        end
    end.
Proof.
  destruct st as [fs1 patches1 originalPatches1 findPath1 saved1 lazy1 calls1].
  unfold restoreFs, mbind, mret, Shim_bind, Shim_ret, shimBind, shimGet, shimModify,
    shimLift, shimRet, set_fs, set_patches, set_Module_findPath, set_lazyRestoreFs.
  cbn [lazyRestoreFs originalFsMethods fs patches originalPatches Module_findPath
         hostCalls].
  destruct lazy1 as [|orig]; [reflexivity|].
  destruct saved1 as [saved|]; cbn [fst snd].
  - destruct (Object_assign fsWritable fs1 (Object_entries fsKeyOrder saved))
      as [[[]|e] assigned]; cbn [fst snd]; [|reflexivity].
    destruct orig; reflexivity.
  - destruct orig; reflexivity.
Qed.

(** Whether it returns or throws, [restoreFs] leaves the saved originals in
    place. *)
Lemma restoreFs_originalFsMethods (st : Runtime) :
  originalFsMethods (uninstall st).2 = originalFsMethods st.
Proof.
  rewrite restoreFs_run. destruct (lazyRestoreFs st); [reflexivity|].
  cbv zeta. destruct (_.1) as [[]|e]; reflexivity.
Qed.

(** A method of [fs] is, after [restoreFs], what it was or what the saved
    originals hold for it. *)
Lemma restoreFs_fs (st : Runtime) (k : string) :
  fs (uninstall st).2 !! k = fs st !! k
  \/ exists saved v, originalFsMethods st = Some saved /\ saved !! k = Some v
                     /\ fs (uninstall st).2 !! k = Some v.
Proof.
  rewrite restoreFs_run. destruct (lazyRestoreFs st); [left; reflexivity|].
  cbv zeta. destruct (originalFsMethods st) as [saved|].
  - destruct (Object_assign_lookup fsWritable (Object_entries fsKeyOrder saved) (fs st) k)
      as [Hsame|(v & Hin & Hv)].
    + left. destruct (_.1) as [[]|e]; exact Hsame.
    + right. exists saved, v. apply Object_entries_elem in Hin.
      split; [reflexivity|]. split; [exact Hin|].
      destruct (_.1) as [[]|e]; exact Hv.
  - left. reflexivity.
Qed.

(** After a successful first install, the second does nothing and the
    uninstall starts from the installed state. *)
Lemma installTwiceThenUninstall_run (binary : NexeHeader) (st0 st1 : Runtime) :
  originalFsMethods st0 = None ->
  install binary st0 = (Ret tt, st1) ->
  installTwiceThenUninstall call_openSync call_readSync ZipFS_new patchFs
    fsWritable fsKeyOrder binary st0
  = uninstall st1.
Proof.
  intros Hnone Hfirst.
  assert (originalFsMethods st1 <> None) as Hheld.
  { destruct (shimFs_success_inv _ _ _ _ _ _ _ Hnone Hfirst) as (calls & blob & ->).
    discriminate. }
  unfold installTwiceThenUninstall, mbind, Shim_bind, shimBind.
  rewrite Hfirst.
  rewrite (shimFs_already_installed call_openSync call_readSync ZipFS_new patchFs
             binary st1 Hheld).
  reflexivity.
Qed.

(** C2: what [install(); install(); uninstall()] leaves, from a freshly
    loaded module on which the install succeeds.  In every case the saved
    originals are still in place, an entry of the patch table that did not
    exist before the install still holds the hook, and each method of [fs] is
    as the install left it or as it was before.  When every property that
    [fs] had before the install can be assigned, the uninstall returns, with
    those properties and [Module._findPath] again the originals.  When one of
    them is read-only, as in the host's own [fs], the uninstall throws a
    [TypeError] out of [Object.assign(fs, originalFsMethods)]: the patch
    table and [Module._findPath] keep the hooks, and [lazyRestoreFs] is not
    reset. *)
Theorem install_install_uninstall (binary : NexeHeader)
    (fs0 patches0 : gmap string Fn) (findPath0 : option Fn) (st1 st : Runtime)
    (outcome : Outcome unit) :
  install binary (moduleLoaded fs0 patches0 findPath0) = (Ret tt, st1) ->
  installTwiceThenUninstall call_openSync call_readSync ZipFS_new patchFs
    fsWritable fsKeyOrder binary (moduleLoaded fs0 patches0 findPath0)
  = (outcome, st) ->
  originalFsMethods st = Some fs0
  /\ (forall k, patches0 !! k = None -> patches st !! k = hooked ∅ !! k)
  /\ (forall k, fs st !! k = fs st1 !! k \/ fs st !! k = fs0 !! k)
  /\ ((forall k, is_Some (fs0 !! k) -> fsWritable k = true) ->
        outcome = Ret tt
        /\ (forall k f, fs0 !! k = Some f -> fs st !! k = Some f)
        /\ Module_findPath st = findPath0
        /\ (forall k f, patches0 !! k = Some f -> patches st !! k = Some f)
        /\ lazyRestoreFs st = RestoreNoop)
  /\ (forall k, is_Some (fs0 !! k) -> fsWritable k = false ->
        outcome = Throw TypeError
        /\ Module_findPath st = hookedFindPath findPath0
        /\ patches st = hooked patches0
        /\ lazyRestoreFs st = RestoreShim findPath0).
Proof.
  intros Hfirst Hrun.
  rewrite (installTwiceThenUninstall_run binary (moduleLoaded fs0 patches0 findPath0)
             st1 eq_refl Hfirst) in Hrun.
  destruct (shimFs_success_inv call_openSync call_readSync ZipFS_new patchFs binary
              (moduleLoaded fs0 patches0 findPath0) st1 eq_refl Hfirst)
    as (calls & blob & ->).
  rewrite restoreFs_run in Hrun.
  cbn [installedState lazyRestoreFs originalFsMethods fs patches originalPatches
         Module_findPath hostCalls moduleLoaded] in Hrun.
  cbv zeta in Hrun. cbn [installedState fs moduleLoaded].
  pose proof (Object_assign_lookup fsWritable (Object_entries fsKeyOrder fs0)
                (patchFs blob fs0)) as Hlookup.
  pose proof (Object_assign_writable fsWritable (Object_entries fsKeyOrder fs0)
                (patchFs blob fs0)) as Hwritable.
  pose proof (Object_assign_read_only fsWritable (Object_entries fsKeyOrder fs0)
                (patchFs blob fs0)) as Hreadonly.
  destruct (Object_assign fsWritable (patchFs blob fs0) (Object_entries fsKeyOrder fs0))
    as [result assigned].
  cbn [fst snd] in Hrun, Hlookup, Hwritable, Hreadonly.
  assert (forall k, assigned !! k = patchFs blob fs0 !! k \/ assigned !! k = fs0 !! k)
    as Hfs.
  { intros k. destruct (Hlookup k) as [H|(v & Hin & H)]; [left; exact H|].
    right. apply Object_entries_elem in Hin. congruence. }
  assert (forall k, patches0 !! k = None ->
            (Object_assign (fun _ => true) (hooked patches0) (map_to_list patches0)).2 !! k
            = hooked ∅ !! k) as Hhooks.
  { intros k Hk. rewrite Object_assign_plain, lookup_union_r by exact Hk.
    rewrite !hooked_lookup, Hk, lookup_empty. reflexivity. }
  destruct result as [[]|e]; injection Hrun as <- <-;
    cbn [originalFsMethods patches fs Module_findPath lazyRestoreFs set_fs
           installedState moduleLoaded originalPatches].
  - split; [reflexivity|]. split; [exact Hhooks|]. split; [exact Hfs|]. split.
    + intros Hall. destruct Hwritable as [_ Hassigned].
      { intros k v Hin. apply Object_entries_elem in Hin. apply Hall. eauto. }
      { intros k v v' Hin Hin'. apply Object_entries_elem in Hin, Hin'. congruence. }
      split; [reflexivity|]. split.
      * intros k f Hk. apply Hassigned, Object_entries_elem, Hk.
      * split; [destruct findPath0; reflexivity|]. split; [|reflexivity].
        intros k f Hk. rewrite Object_assign_plain. apply lookup_union_Some_l, Hk.
    + intros k [v Hk] Hro.
      assert (Ret tt = Throw TypeError) as Habsurd; [|discriminate Habsurd].
      apply (Hreadonly k v); [apply Object_entries_elem, Hk|exact Hro].
  - split; [reflexivity|]. split.
    { intros k Hk. rewrite !hooked_lookup, Hk, lookup_empty. reflexivity. }
    split; [exact Hfs|]. split.
    + intros Hall. destruct Hwritable as [Habsurd _]; [| |discriminate Habsurd].
      { intros k v Hin. apply Object_entries_elem in Hin. apply Hall. eauto. }
      { intros k v v' Hin Hin'. apply Object_entries_elem in Hin, Hin'. congruence. }
    + intros k [v Hk] Hro.
      assert (Throw e = Throw TypeError) as ->
        by (apply (Hreadonly k v); [apply Object_entries_elem, Hk|exact Hro]).
      auto.
Qed.

End Uninstall.

(** ** Conditional exports *)

Lemma indexKey_not_condition (i : nat) :
  Str.includes Spec.conditions (indexKey i) = false.
Proof. unfold indexKey. destruct (Nat.to_uint i); reflexivity. Qed.

Lemma conditionBranch_spec (value : JSON) (nested : option string) :
  nested = Spec.conditionalTarget value ->
  conditionBranch value nested
  = match value with
    | JStr s => Some s
    | JObj _ | JArr _ => Spec.nonEmpty (Spec.conditionalTarget value)
    | _ => None
    end.
Proof. intros ->. destruct value; reflexivity. Qed.

(** The source's walk computes the amended walk. *)
Lemma resolveExportsObject_conditionalTarget (v : JSON) :
  resolveExportsObject Spec.conditions v = Spec.conditionalTarget v.
Proof.
  induction v as [|b|l|s|items IH|members IH] using JSON_nested_ind; try reflexivity.
  - (* arrays: no index is a condition *)
    simpl. generalize 0. clear IH.
    induction items as [|x items IHitems]; intros i; [reflexivity|].
    pose proof (indexKey_not_condition i) as Hi. simpl in Hi. rewrite Hi.
    apply IHitems.
  - (* objects *)
    cbn [resolveExportsObject Spec.conditionalTarget].
    replace (negb (Str.includes Spec.conditions "default")) with false by reflexivity.
    match goal with
    | |- match ?loop with Some s => Some s | None => None end = _ =>
        transitivity loop; [destruct loop; reflexivity|]
    end.
    induction IH as [|[key value] rest Hvalue _ IHrest]; [reflexivity|].
    cbn [Spec.firstSome]. cbn [snd] in Hvalue.
    destruct (Str.includes Spec.conditions key); [|exact IHrest].
    rewrite (conditionBranch_spec value _ Hvalue).
    rewrite IHrest. reflexivity.
Qed.

(** Where the walk that commits to the first key in the condition set
    chooses a non-empty target, the source chooses the same one; the two
    differ only where that first key leads nowhere. *)
Lemma firstKeyTarget_conditionalTarget (v : JSON) (t : string) :
  Spec.firstKeyTarget v = Some t -> t <> EmptyString ->
  Spec.conditionalTarget v = Some t.
Proof.
  intros Hfirst Hne. revert Hfirst.
  induction v as [|b|l|s|items IH|members IH] using JSON_nested_ind;
    try discriminate; [intros H; exact H|].
  cbn [Spec.firstKeyTarget Spec.conditionalTarget].
  induction IH as [|[key value] rest Hvalue _ IHrest]; [discriminate|].
  cbn [Spec.firstSome]. cbn [snd] in Hvalue.
  destruct (Str.includes Spec.conditions key); [|exact IHrest].
  intros Hfirst. specialize (Hvalue Hfirst).
  destruct value; try discriminate.
  - exact Hfirst.
  - rewrite Hvalue. unfold Spec.nonEmpty.
    apply isEmpty_false in Hne. rewrite Hne. reflexivity.
Qed.

Lemma resolvePackageExports_exportsTarget (exports : JSON) :
  resolvePackageExports exports Spec.conditions = Spec.exportsTarget exports.
Proof.
  destruct exports as [|b|l|s|items|members]; try reflexivity.
  - apply (resolveExportsObject_conditionalTarget (JArr items)).
  - apply resolveExportsObject_conditionalTarget.
Qed.

Lemma exportsTarget_truthy (exports : JSON) (t : string) :
  Spec.exportsTarget exports = Some t -> t <> EmptyString ->
  Json.truthy (Some exports) = true.
Proof.
  destruct exports; simpl; try discriminate; [|reflexivity].
  intros [= ->] Hne. apply isEmpty_false in Hne. rewrite Hne. reflexivity.
Qed.

(** ** The resolver hook *)

Section Resolver.

Variable isAbsolute : string -> bool.
Variable JSON_parse : string -> option JSON.
Variable call_statSync : Fn -> string -> option Stats.
Variable call_readFileSync : Fn -> string -> option string.

Local Abbreviation findPath :=
  (nexeFindPath isAbsolute JSON_parse call_statSync call_readFileSync).
Local Abbreviation fileAt := (fs_readFileSync call_readFileSync).
Local Abbreviation statAt := (fs_statSync call_statSync).
Local Abbreviation isFileAt := (isFile call_statSync).
Local Abbreviation isBare := (bare isAbsolute).
Local Abbreviation hasManifest := (manifest JSON_parse call_readFileSync).
Local Abbreviation candidates := (mainCandidates call_statSync).




Lemma getProp_defined (pkg : JSON) (k k' : string) (x : option JSON) :
  Json.getProp pkg k = Ret x -> exists y, Json.getProp pkg k' = Ret y.
Proof. destruct pkg; simpl; intros H; try discriminate; eauto. Qed.

(** The hook returns the original's result when it is truthy. *)
Lemma nexeFindPath_truthy_original (st : Runtime) (o : Outcome JSVal) (request : string) :
  truthy (originalResult o) = true -> findPath st o request = Ret (originalResult o).
Proof. intros H. unfold nexeFindPath. rewrite H. reflexivity. Qed.

(** It returns the original's falsy result for a request that is not a
    bare specifier. *)
Lemma nexeFindPath_not_bare (st : Runtime) (o : Outcome JSVal) (request : string) :
  Str.isEmpty request || Str.startsWith request "." || isAbsolute request = true ->
  truthy (originalResult o) = false ->
  findPath st o request = Ret (originalResult o).
Proof. intros Hb H. unfold nexeFindPath. rewrite H, Hb. reflexivity. Qed.

(** And when the manifest cannot be read or parsed. *)
Lemma nexeFindPath_no_manifest (st : Runtime) (o : Outcome JSVal) (request : string) :
  fileAt st (Path.join [basePath; request; "package.json"]) ≫= JSON_parse = None ->
  truthy (originalResult o) = false ->
  findPath st o request = Ret (originalResult o).
Proof.
  intros Hm H. unfold nexeFindPath. rewrite H, Hm.
  destruct (_ || _); reflexivity.
Qed.

(** The two steps of the hook once the manifest is parsed. *)
Lemma nexeFindPath_manifest (st : Runtime) (o : Outcome JSVal) (request : string)
    (pkg : JSON) (exports pkgMain : option JSON) :
  truthy (originalResult o) = false ->
  isBare request ->
  hasManifest st request pkg ->
  Json.getProp pkg "exports" = Ret exports ->
  Json.getProp pkg "main" = Ret pkgMain ->
  findPath st o request
  = Ret (match exportsStep call_statSync st request exports with
         | Some p => VStr p
         | None =>
             match mainStep call_statSync st request pkgMain with
             | Some p => VStr p
             | None => originalResult o
             end
         end).
Proof.
  intros Hfalsy (Hne & Hdot & Habs) (text & Hread & Hparse) Hexports Hmain.
  unfold nexeFindPath. rewrite Hfalsy, Hne, Hdot, Habs, Hread.
  cbn [orb mbind option_bind]. rewrite Hparse, Hexports, Hmain.
  destruct (exportsStep _ _ _ _); [reflexivity|].
  destruct (mainStep _ _ _ _); reflexivity.
Qed.

(** With a manifest that is not [null] the hook returns. *)
Lemma nexeFindPath_returns (st : Runtime) (o : Outcome JSVal) (request : string) :
  (forall text,
      fileAt st (Path.join [basePath; request; "package.json"]) = Some text ->
      JSON_parse text <> Some JNull) ->
  exists v, findPath st o request = Ret v.
Proof.
  intros Hnull. unfold nexeFindPath.
  destruct (truthy (originalResult o)); [eauto|].
  destruct (_ || _); [eauto|].
  destruct (fileAt st _) as [text|] eqn:Hread; cbn [mbind option_bind]; [|eauto].
  specialize (Hnull text eq_refl).
  destruct (JSON_parse text) as [pkg|]; [|eauto].
  destruct pkg; try congruence; cbn [Json.getProp];
    (match goal with
     | |- context [exportsStep ?a ?b ?c ?d] => destruct (exportsStep a b c d)
     end; [eauto|]);
    match goal with
    | |- context [mainStep ?a ?b ?c ?d] => destruct (mainStep a b c d)
    end; eauto.
Qed.

Lemma exportsStep_target (st : Runtime) (request : string) (exports : JSON) (t : string) :
  Spec.exportsTarget exports = Some t -> t <> EmptyString ->
  let candidate := Path.join [basePath; request; t] in
  exportsStep call_statSync st request (Some exports)
  = List.find (isFileAt st) (candidate :: map (fun ext => candidate +:+ ext) extensions).
Proof.
  intros Ht Hne candidate. unfold exportsStep.
  rewrite (exportsTarget_truthy exports t Ht Hne).
  change ["require"; "node"; "default"] with Spec.conditions.
  rewrite resolvePackageExports_exportsTarget, Ht.
  apply isEmpty_false in Hne. rewrite Hne.
  fold candidate. cbn [List.find]. unfold firstWithExtension.
  destruct (isFile call_statSync st candidate); reflexivity.
Qed.


(** C1, as amended: for a bare request on which the original find-path
    gave nothing, whose manifest parses and has an [exports] field, the
    hook walks the exports value against [require, node, default] (the
    top-level ["."] unwrapped first; the keys present in the condition set
    tried in insertion order; a string value taken as the target; an object
    value walked and taken when it gives a non-empty target, the next key
    tried otherwise) and, for the non-empty target so chosen, returns the
    first of target joined to the package base, that path with [.js],
    with [.json], with [.node], that is a file. *)
Theorem exports_resolution (st : Runtime) (o : Outcome JSVal) (request : string)
    (pkg exports : JSON) (t f : string) :
  truthy (originalResult o) = false ->
  isBare request ->
  hasManifest st request pkg ->
  Json.getProp pkg "exports" = Ret (Some exports) ->
  Spec.exportsTarget exports = Some t ->
  t <> EmptyString ->
  let candidate := Path.join [basePath; request; t] in
  List.find (isFileAt st)
    [candidate; candidate +:+ ".js"; candidate +:+ ".json"; candidate +:+ ".node"]
    = Some f ->
  findPath st o request = Ret (VStr f).
Proof.
  intros Hfalsy Hbare Hmanifest Hexports Ht Hne candidate Hfile.
  destruct (getProp_defined pkg "exports" "main" _ Hexports) as [pkgMain Hmain].
  rewrite (nexeFindPath_manifest st o request pkg _ _ Hfalsy Hbare Hmanifest Hexports Hmain).
  rewrite (exportsStep_target st request exports t Ht Hne).
  fold candidate. unfold extensions. cbn [map]. rewrite Hfile. reflexivity.
Qed.



(** C7: the hook does throw.  For a bare request on which the original gave
    nothing and whose manifest parses to [null], reading [pkg.exports]
    raises a type error outside every [try] of the hook. *)
Theorem null_manifest_throws (st : Runtime) (o : Outcome JSVal) (request : string) :
  truthy (originalResult o) = false ->
  isBare request ->
  hasManifest st request JNull ->
  findPath st o request = Throw TypeError.
Proof.
  intros Hfalsy (Hne & Hdot & Habs) (text & Hread & Hparse).
  unfold nexeFindPath. rewrite Hfalsy, Hne, Hdot, Habs, Hread.
  cbn [orb mbind option_bind]. rewrite Hparse. reflexivity.
Qed.

End Resolver.

(** ** The stat hook after install *)


Section InstalledStatHook.

Variable projectRoot : string.
Variable relative : string -> string -> string.
Variable ENOENT : Z.
Variable call_openSync : Fn -> string -> string -> Outcome Z.
Variable call_readSync : Fn -> Z -> nat -> nat -> nat -> Outcome (list Byte.byte).
Variable call_fstatSync : Fn -> Z -> option Stats.
Variable call_statSync : Fn -> string -> option Stats.
Variable ZipFS_new : list Byte.byte -> Outcome unit.
Variable patchFs : list Byte.byte -> gmap string Fn -> gmap string Fn.

Local Abbreviation toVirtual := (hookPath projectRoot relative).
Local Abbreviation statHook :=
  (internalModuleStat projectRoot relative ENOENT call_fstatSync call_statSync).
Local Abbreviation statAt := (fs_statSync call_statSync).

(** C4: after an install from a freshly loaded module, the stat hook
    given a number calls the [fstatSync] that the [fs] table held before the
    install and answers 0 when that call succeeds and [-ENOENT] when it
    throws; given a path (as first argument, or as second argument after a
    context that is neither a number nor a string) it stats the translated
    path through the current [fs] and answers 1 for a directory, 0 for a
    file and [-ENOENT] when the stat throws. *)
Theorem internalModuleStat_descriptor_or_path (binary : NexeHeader)
    (fs0 patches0 : gmap string Fn) (findPath0 : option Fn) (st : Runtime)
    (original : list JSVal -> Outcome JSVal) :
  shimFs call_openSync call_readSync ZipFS_new patchFs binary
    (moduleLoaded fs0 patches0 findPath0) = (Ret tt, st) ->
  (forall (fd : Z) (rest : list JSVal) (fstat : Fn),
      fs0 !! "fstatSync" = Some fstat ->
      (is_Some (call_fstatSync fstat fd) ->
         statHook st original (VNum fd :: rest) = Ret (VNum 0))
      /\ (call_fstatSync fstat fd = None ->
         statHook st original (VNum fd :: rest) = Ret (VNum (- ENOENT))))
  /\ (forall (args : list JSVal) (p : string),
      selectsPath args p ->
      (statAt st (toVirtual p) = Some StatDirectory ->
         statHook st original args = Ret (VNum 1))
      /\ (statAt st (toVirtual p) = Some StatFile ->
         statHook st original args = Ret (VNum 0))
      /\ (statAt st (toVirtual p) = None ->
         statHook st original args = Ret (VNum (- ENOENT)))).
Proof.
  intros Hinstall.
  apply shimFs_success_inv in Hinstall as (calls & blob & ->); [|reflexivity].
  split.
  - intros fd rest fstat Hfstat.
    rewrite internalModuleStat_descriptor.
    unfold originalFsMethods_fstatSync, installedState. simpl.
    rewrite Hfstat. simpl.
    split; [intros [s ->]; reflexivity | intros ->; reflexivity].
  - intros args p Hsel.
    assert (statHook (installedState patchFs (moduleLoaded fs0 patches0 findPath0) calls blob)
              original args
            = Ret (statAnswer projectRoot relative ENOENT call_statSync
                     (installedState patchFs (moduleLoaded fs0 patches0 findPath0) calls blob)
                     p)) as ->.
    { destruct Hsel as [[rest ->]|(ctx & rest & -> & Hnum & Hstr)].
      - apply internalModuleStat_path_first.
      - apply internalModuleStat_path_second; assumption. }
    unfold statAnswer.
    repeat split; intros ->; reflexivity.
Qed.

End InstalledStatHook.

(** ** The properties on concrete inputs *)

(** C3 at [C:\snapshot\src\entry.js], executable in [C:\app]: the mapped
    path has a doubled separator. *)
Lemma toSnapshotPath_drive_example :
  String.length (drive "C:\app") = 2
  /\ toSnapshotPath "C:\app" World.relative "C:\snapshot\src\entry.js"
     = "/snapshot//src/entry.js".
Proof.
  split; [reflexivity|].
  apply (toSnapshotPath_drive_prefix_keeps_separator "C:\app" World.relative "src\entry.js").
  reflexivity.
Defined.

(** The mapping steps on a path below the project root and on a snapshot
    path. *)
Lemma toSnapshotPath_idempotent_example :
  toSnapshotPath "/usr/bin" World.relative
    (toSnapshotPath "/usr/bin" World.relative "/usr/bin/app/main.js")
  = toSnapshotPath "/usr/bin" World.relative "/usr/bin/app/main.js"
  /\ toSnapshotPath "/usr/bin" World.relative "/snapshot/app/main.js"
     = "/snapshot/app/main.js".
Proof.
  destruct (toSnapshotPath_idempotent "/usr/bin" World.relative) as [Hidem Hfixed].
  split; [apply Hidem | apply Hfixed; reflexivity].
Defined.


(** C9 as stated fails: at a path that carries the extended-length prefix
    twice the normaliser strips one prefix and leaves the rest unmapped;
    applied again it strips the other and maps the path. *)
Lemma hookPath_not_idempotent :
  let toVirtual := hookPath "/usr/bin" World.relative in
  let p := "\\?\\\?\/usr/bin/app/main.js" in
  toVirtual p = "\\?\/usr/bin/app/main.js"
  /\ toVirtual (toVirtual p) = "/snapshot/app/main.js"
  /\ toVirtual (toVirtual p) <> toVirtual p.
Proof.
  split; [vm_compute; reflexivity|].
  split; [vm_compute; reflexivity|].
  vm_compute. discriminate.
Qed.

(** C9 as amended, on a path below the project root that carries the
    prefix once, and on a snapshot path. *)
Lemma hookPath_idempotent_example :
  let toVirtual := hookPath "/usr/bin" World.relative in
  toVirtual (toVirtual "\\?\/usr/bin/app/main.js") = toVirtual "\\?\/usr/bin/app/main.js"
  /\ toVirtual "/snapshot/app/main.js" = "/snapshot/app/main.js".
Proof.
  intros toVirtual. split.
  - apply (proj1 (proj2 (hookPath_idempotent "/usr/bin" World.relative
                           "\\?\/usr/bin/app/main.js"))).
    reflexivity.
  - apply (proj2 (proj2 (proj2 (hookPath_idempotent "/usr/bin" World.relative
                                  "/snapshot/app/main.js")))).
    reflexivity.
Defined.

(** C5 as stated fails: the file is present and empty, the plain hook
    returns its empty text, and the JSON variant returns the absent marker
    where the statement promises the file's text. *)
Lemma internalModuleReadJSON_empty_file_absent :
  let readFileSync := World.call_readFileSync sampleArchive in
  fs_readFileSync readFileSync World.installed
    (hookPath "/usr/bin" World.relative "/snapshot/empty.json")
  = Some EmptyString
  /\ internalModuleReadFile "/usr/bin" World.relative readFileSync World.installed
       [VStr "/snapshot/empty.json"] = EmptyString
  /\ internalModuleReadJSON "/usr/bin" World.relative readFileSync World.installed
       [VStr "/snapshot/empty.json"] = VUndefined
  /\ VUndefined <> VStr EmptyString.
Proof.
  split; [vm_compute; reflexivity|].
  split; [vm_compute; reflexivity|].
  split; [vm_compute; reflexivity|discriminate].
Qed.

(** C5 as amended, on the sample archive. *)
Lemma read_hooks_example :
  let readFileSync := World.call_readFileSync sampleArchive in
  internalModuleReadFile "/usr/bin" World.relative readFileSync World.installed
    [VStr "/usr/bin/app/main.js"] = "console.log(1)"
  /\ internalModuleReadJSON "/usr/bin" World.relative readFileSync World.installed
       [VStr "/usr/bin/app/package.json"] = VStr "{}"
  /\ internalModuleReadJSON "/usr/bin" World.relative readFileSync World.installed
       [VStr "/usr/bin/app/missing.json"] = VUndefined.
Proof.
  pose proof (read_hooks_present_absent "/usr/bin" World.relative
                (World.call_readFileSync sampleArchive) World.installed) as H.
  split; [|split].
  - destruct (H "/usr/bin/app/main.js" []) as (Hpresent & _).
    apply Hpresent. vm_compute. reflexivity.
  - destruct (H "/usr/bin/app/package.json" []) as (_ & _ & Htext & _).
    apply Htext; [vm_compute; reflexivity | discriminate].
  - destruct (H "/usr/bin/app/missing.json" []) as (_ & _ & _ & Habsent & _).
    apply Habsent. vm_compute. reflexivity.
Defined.

(** C10 with a context object and no path. *)
Lemma internalModuleStat_fallback_example :
  internalModuleStat "/usr/bin" World.relative World.ENOENT World.call_fstatSync
    (World.call_statSync sampleArchive) World.installed
    (fun args => Ret (VNum (Z.of_nat (length args)))) [VObject 0; VUndefined]
  = Ret (VNum 2).
Proof.
  apply (internalModuleStat_fallback "/usr/bin" World.relative World.ENOENT
           World.call_fstatSync (World.call_statSync sampleArchive) World.installed
           (fun args => Ret (VNum (Z.of_nat (length args)))) [VObject 0; VUndefined]);
    simpl; discriminate.
Defined.

(** C4 on the sample archive: descriptor 3 is open on the real disk,
    descriptor 4 is not; [/snapshot/app] is a directory, [main.js] a file. *)
Lemma internalModuleStat_example :
  let statHook :=
    internalModuleStat "/usr/bin" World.relative World.ENOENT World.call_fstatSync
      (World.call_statSync sampleArchive) World.installed (fun _ => Throw TypeError) in
  statHook [VNum 3] = Ret (VNum 0)
  /\ statHook [VNum 4] = Ret (VNum (-2))
  /\ statHook [VStr "/usr/bin/app"] = Ret (VNum 1)
  /\ statHook [VObject 0; VStr "\\?\/snapshot/app/main.js"] = Ret (VNum 0)
  /\ statHook [VStr "/usr/bin/app/none.js"] = Ret (VNum (-2)).
Proof.
  assert (World.install World.header World.loaded = (Ret tt, World.installed)) as Hinstall
    by (vm_compute; reflexivity).
  destruct (internalModuleStat_descriptor_or_path "/usr/bin" World.relative World.ENOENT
              World.call_openSync World.call_readSync World.call_fstatSync
              (World.call_statSync sampleArchive) World.ZipFS_new World.patchFs
              World.header World.fs0 ∅ (Some (HostFn "_findPath")) World.installed
              (fun _ => Throw TypeError) Hinstall) as [Hfd Hpath].
  split; [|split; [|split; [|split]]].
  - apply (Hfd 3%Z [] (HostFn "fstatSync")); [vm_compute; reflexivity|].
    exists StatFile. reflexivity.
  - apply (Hfd 4%Z [] (HostFn "fstatSync")); vm_compute; reflexivity.
  - apply (Hpath [VStr "/usr/bin/app"] "/usr/bin/app");
      [left; exists []; reflexivity | vm_compute; reflexivity].
  - apply (Hpath [VObject 0; VStr "\\?\/snapshot/app/main.js"] "\\?\/snapshot/app/main.js");
      [right; exists (VObject 0), []; split; [reflexivity|split; discriminate]
      | vm_compute; reflexivity].
  - apply (Hpath [VStr "/usr/bin/app/none.js"] "/usr/bin/app/none.js");
      [left; exists []; reflexivity | vm_compute; reflexivity].
Defined.


(** C1 as stated fails: the first key of the exports value that is in the
    condition set is [require], and walking its value selects nothing, so the
    walk the statement describes chooses no target and the resolution goes on
    to [index.js]; the hook goes on to the next key, [default], and returns
    [b.js]. *)
Lemma exports_first_key_not_committed :
  JsonText.parse (JsonText.q "{'exports':{'require':{'import':'./a.js'},'default':'./b.js'}}")
  = Some (JObj [("exports", nestedExports)])
  /\ Spec.firstKeyTarget (Spec.unwrapDot nestedExports) = None
  /\ resolvePackageExports nestedExports Spec.conditions = Some "./b.js"
  /\ Spec.firstHolding
       (mainCandidates (World.call_statSync nestedArchive) World.installed "pkg" None)
     = Some "/snapshot/node_modules/pkg/index.js"
  /\ World.findPath nestedArchive JsonText.parse (Ret (VBool false)) "pkg"
     = Ret (VStr "/snapshot/node_modules/pkg/b.js").
Proof.
  split; [vm_compute; reflexivity|].
  split; [vm_compute; reflexivity|].
  split; [vm_compute; reflexivity|].
  split; vm_compute; reflexivity.
Qed.

(** C1 as amended, on the left-pad scenario. *)
Lemma exports_resolution_left_pad :
  World.findPath leftPadArchive JsonText.parse (Ret (VBool false)) "left-pad"
  = Ret (VStr "/snapshot/node_modules/left-pad/cjs/index.js").
Proof.
  apply (exports_resolution Path.posixIsAbsolute JsonText.parse
           (World.call_statSync leftPadArchive) (World.call_readFileSync leftPadArchive)
           World.installed (Ret (VBool false)) "left-pad"
           (JObj [("exports",
                   JObj [(".", JObj [("require", JStr "./cjs/index.js");
                                     ("default", JStr "./esm/index.js")])])])
           (JObj [(".", JObj [("require", JStr "./cjs/index.js");
                              ("default", JStr "./esm/index.js")])])
           "./cjs/index.js").
  - reflexivity.
  - split; [reflexivity|split; reflexivity].
  - eexists. split; [vm_compute; reflexivity|]. vm_compute. reflexivity.
  - reflexivity.
  - reflexivity.
  - discriminate.
  - vm_compute. reflexivity.
Defined.


(** C7 on a manifest that holds [null]. *)
Lemma null_manifest_throws_example :
  World.findPath nullManifestArchive JsonText.parse (Ret (VBool false)) "pkg"
  = Throw TypeError.
Proof.
  apply (null_manifest_throws Path.posixIsAbsolute JsonText.parse
           (World.call_statSync nullManifestArchive)
           (World.call_readFileSync nullManifestArchive)
           World.installed (Ret (VBool false)) "pkg").
  - reflexivity.
  - split; [reflexivity|split; reflexivity].
  - eexists. split; [vm_compute; reflexivity|]. vm_compute. reflexivity.
Defined.

(** C2 with the host's own [fs], whose [F_OK] is read-only: the uninstall
    throws, the resolver and the patch table keep the hooks, and the saved
    originals are still held.  With an [fs] object whose properties can all be
    assigned the uninstall returns and restores [fs] and the resolver, but the
    patch table keeps the hooks and the saved originals are still held. *)
Lemma install_install_uninstall_example :
  let run := installTwiceThenUninstall World.call_openSync World.call_readSync
               World.ZipFS_new World.patchFs NodeFs.writable NodeFs.keyOrder
               World.header NodeFs.loaded in
  let plain := installTwiceThenUninstall World.call_openSync World.call_readSync
                 World.ZipFS_new World.patchFs (fun _ => true) []
                 World.header World.loaded in
  (run.1 = Throw TypeError
   /\ Module_findPath run.2 = Some (NexeFindPath (HostFn "_findPath"))
   /\ patches run.2 = hooked ∅
   /\ originalFsMethods run.2 = Some NodeFs.table)
  /\ (plain.1 = Ret tt
      /\ fs plain.2 !! "statSync" = Some (HostFn "statSync")
      /\ Module_findPath plain.2 = Some (HostFn "_findPath")
      /\ patches plain.2 !! "internalModuleStat" = Some InternalModuleStat
      /\ originalFsMethods plain.2 = Some World.fs0).
Proof.
  intros run plain. split.
  - destruct (install_install_uninstall World.call_openSync World.call_readSync
                World.ZipFS_new World.patchFs NodeFs.writable NodeFs.keyOrder
                World.header NodeFs.table ∅ (Some (HostFn "_findPath"))
                (World.install World.header NodeFs.loaded).2 run.2 run.1)
      as (Hsaved & _ & _ & _ & Hthrows).
    + vm_compute. reflexivity.
    + exact (surjective_pairing run).
    + destruct (Hthrows "F_OK") as (Houtcome & Hfind & Hpatches & _).
      * exists (HostFn "F_OK"). vm_compute. reflexivity.
      * reflexivity.
      * split; [exact Houtcome|]. split; [exact Hfind|].
        split; [exact Hpatches|exact Hsaved].
  - destruct (install_install_uninstall World.call_openSync World.call_readSync
                World.ZipFS_new World.patchFs (fun _ => true) []
                World.header World.fs0 ∅ (Some (HostFn "_findPath"))
                World.installed plain.2 plain.1)
      as (Hsaved & Hhooks & _ & Hreturns & _).
    + vm_compute. reflexivity.
    + exact (surjective_pairing plain).
    + destruct Hreturns as (Houtcome & Hfs & Hfind & _); [reflexivity|].
      split; [exact Houtcome|].
      split; [apply Hfs; vm_compute; reflexivity|].
      split; [exact Hfind|].
      split; [rewrite (Hhooks "internalModuleStat" eq_refl); reflexivity|exact Hsaved].
Defined.



(** * Further properties *)

(** ** The shim *)

Lemma backslashesToSlashes_clean (s : string) :
  containsChar "\" (Str.backslashesToSlashes s) = false.
Proof.
  induction s as [|c s IH]; [reflexivity|].
  cbn [Str.backslashesToSlashes containsChar]. rewrite IH, orb_false_r.
  destruct (Ascii.eqb_spec c "\") as [->|Hne]; [reflexivity|].
  apply Ascii.eqb_neq. congruence.
Qed.

Section PathRange.
Variable projectRoot : string.
Variable relative : string -> string -> string.

(** X1: the path mapping leaves a path as it is or returns a path under
    [/snapshot/] whose remainder has no backslash. *)
Theorem toSnapshotPath_range (p : string) :
  toSnapshotPath projectRoot relative p = p
  \/ exists rest,
       toSnapshotPath projectRoot relative p = "/snapshot/" +:+ rest
       /\ containsChar "\" rest = false.
Proof.
  unfold toSnapshotPath.
  destruct (Str.startsWith p "/snapshot/"); [left; reflexivity|].
  destruct (Str.startsWith p (drive projectRoot +:+ "\snapshot\")).
  - right. eexists. split; [reflexivity|apply backslashesToSlashes_clean].
  - destruct (Str.startsWith p projectRoot); [|left; reflexivity].
    right. eexists. split; [reflexivity|apply backslashesToSlashes_clean].
Qed.
End PathRange.

Section ResolverExtras.
Variable isAbsolute : string -> bool.
Variable JSON_parse : string -> option JSON.
Variable call_statSync : Fn -> string -> option Stats.
Variable call_readFileSync : Fn -> string -> option string.

Local Abbreviation findPath :=
  (nexeFindPath isAbsolute JSON_parse call_statSync call_readFileSync).
Local Abbreviation isFileAt := (isFile call_statSync).

Lemma firstWithExtension_isFile (st : Runtime) (p found : string) :
  firstWithExtension call_statSync st p = Some found -> isFileAt st found = true.
Proof.
  unfold firstWithExtension. intros H.
  apply List.find_some in H. exact (proj2 H).
Qed.

Lemma exportsStep_isFile (st : Runtime) (request : string) (exports : option JSON)
    (found : string) :
  exportsStep call_statSync st request exports = Some found -> isFileAt st found = true.
Proof.
  unfold exportsStep.
  destruct (Json.truthy exports); [|discriminate].
  destruct exports as [e|]; [|discriminate].
  destruct (resolvePackageExports e _) as [t|]; [|discriminate].
  destruct (Str.isEmpty t); [discriminate|].
  destruct (isFile call_statSync st (Path.join _)) eqn:Hfile.
  - intros [= <-]. exact Hfile.
  - apply firstWithExtension_isFile.
Qed.

Lemma mainStep_isFile (st : Runtime) (request : string) (pkgMain : option JSON)
    (found : string) :
  mainStep call_statSync st request pkgMain = Some found -> isFileAt st found = true.
Proof.
  unfold mainStep.
  set (mainPath := Path.join _).
  assert (isFile call_statSync st mainPath
          = match fs_statSync call_statSync st mainPath with
            | Some stat => isFileStat stat
            | None => false
            end) as Hmain by reflexivity.
  destruct (fs_statSync call_statSync st mainPath) as [stat|].
  - destruct (isFileStat stat) eqn:Hstat.
    + intros [= <-]. rewrite Hmain. reflexivity.
    + destruct (isDirectoryStat stat);
        [destruct (isFile call_statSync st (Path.join [mainPath; "index.js"])) eqn:Hidx;
           [intros [= <-]; exact Hidx|]|];
        (destruct (firstWithExtension call_statSync st mainPath) as [p|] eqn:Hext;
         [intros [= <-]; eapply firstWithExtension_isFile; exact Hext|]);
        repeat match goal with
               | |- (if isFile call_statSync st ?q then _ else _) = _ -> _ =>
                   destruct (isFile call_statSync st q) eqn:?; [intros [= <-]; assumption|]
               end; discriminate.
  - destruct (firstWithExtension call_statSync st mainPath) as [p|] eqn:Hext;
      [intros [= <-]; eapply firstWithExtension_isFile; exact Hext|].
    repeat match goal with
           | |- (if isFile call_statSync st ?q then _ else _) = _ -> _ =>
               destruct (isFile call_statSync st q) eqn:?; [intros [= <-]; assumption|]
           end; discriminate.
Qed.

(** X2: what the resolver hook returns is what the original resolver
    returned, or a path that the patched [fs] reports as a regular file. *)
Theorem nexeFindPath_adds_only_files (st : Runtime) (o : Outcome JSVal)
    (request : string) (v : JSVal) :
  findPath st o request = Ret v ->
  v = originalResult o \/ exists p, v = VStr p /\ isFileAt st p = true.
Proof.
  unfold nexeFindPath.
  destruct (truthy (originalResult o)); [intros [= <-]; left; reflexivity|].
  destruct (_ || _); [intros [= <-]; left; reflexivity|].
  destruct (_ ≫= JSON_parse) as [pkg|]; [|intros [= <-]; left; reflexivity].
  destruct (Json.getProp pkg "exports") as [exports|]; [|discriminate].
  destruct (exportsStep call_statSync st request exports) as [p|] eqn:Hexp.
  { intros [= <-]. right. exists p. split; [reflexivity|].
    eapply exportsStep_isFile. exact Hexp. }
  destruct (Json.getProp pkg "main") as [pkgMain|]; [|discriminate].
  destruct (mainStep call_statSync st request pkgMain) as [p|] eqn:Hmain.
  - intros [= <-]. right. exists p. split; [reflexivity|].
    eapply mainStep_isFile. exact Hmain.
  - intros [= <-]. left. reflexivity.
Qed.

(** X3: the resolver hook throws in one situation only: the original
    resolver found nothing, the request is a bare package name, and the
    manifest of the package in the archive parses to [null].  The exception is
    then a [TypeError]; an exception of the original resolver never comes
    out. *)
Theorem nexeFindPath_throws_only_on_null_manifest (st : Runtime) (o : Outcome JSVal)
    (request : string) (e : Exn) :
  findPath st o request = Throw e
  <-> e = TypeError
      /\ truthy (originalResult o) = false
      /\ bare isAbsolute request
      /\ manifest JSON_parse call_readFileSync st request JNull.
Proof.
  unfold nexeFindPath, bare, manifest.
  destruct (truthy (originalResult o)).
  { split; [discriminate|]. intros (_ & H & _). discriminate. }
  destruct (Str.isEmpty request) eqn:Hempty.
  { split; [discriminate|]. intros (_ & _ & (H & _) & _). discriminate. }
  destruct (Str.startsWith request ".") eqn:Hdot.
  { split; [discriminate|]. intros (_ & _ & (_ & H & _) & _). discriminate. }
  destruct (isAbsolute request) eqn:Habs.
  { split; [discriminate|]. intros (_ & _ & (_ & _ & H) & _). discriminate. }
  cbn [orb].
  destruct (fs_readFileSync call_readFileSync st _) as [text|]; cbn [mbind option_bind].
  2:{ split; [discriminate|]. intros (_ & _ & _ & (text & H & _)). discriminate. }
  destruct (JSON_parse text) as [pkg|] eqn:Hparse.
  2:{ split; [discriminate|]. intros (_ & _ & _ & (text' & [= <-] & H)). congruence. }
  destruct pkg; cbn [Json.getProp];
    try (split;
         [ repeat match goal with
                  | |- context [match ?x with Some _ => _ | None => _ end] => destruct x
                  end; discriminate
         | intros (_ & _ & _ & (text' & [= <-] & H)); congruence ]).
  split.
  - intros [= <-]. repeat split; eauto.
  - intros (-> & _). reflexivity.
Qed.

End ResolverExtras.

(** ** Conditional exports, for any condition list *)

Lemma conditionBranch_leaf (value : JSON) (nested : option string) (s : string) :
  (nested = Some s -> hasStringLeaf s value = true) ->
  conditionBranch value nested = Some s -> hasStringLeaf s value = true.
Proof.
  intros Hnested. destruct value; try discriminate; cbn [conditionBranch].
  - intros [= ->]. cbn. apply String.eqb_refl.
  - destruct nested as [n|]; [|discriminate].
    destruct (Str.isEmpty n); [discriminate|]. intros [= ->]. auto.
  - destruct nested as [n|]; [|discriminate].
    destruct (Str.isEmpty n); [discriminate|]. intros [= ->]. auto.
Qed.

Lemma defaultBranch_leaf (def : JSON) (nested : option string) (s : string) :
  (nested = Some s -> hasStringLeaf s def = true) ->
  defaultBranch def nested = Some s -> hasStringLeaf s def = true.
Proof.
  intros Hnested. destruct def; try discriminate; cbn [defaultBranch]; auto.
  destruct (Str.isEmpty s0); [discriminate|]. intros [= ->]. cbn. apply String.eqb_refl.
Qed.

Lemma resolveExportsObject_leaf (conditions : list string) (v : JSON) (t : string) :
  resolveExportsObject conditions v = Some t -> hasStringLeaf t v = true.
Proof.
  revert t.
  induction v as [|b|l|s|items IH|members IH] using JSON_nested_ind; intros t;
    try discriminate.
  - intros [= ->]. cbn. apply String.eqb_refl.
  - cbn [resolveExportsObject hasStringLeaf]. generalize 0.
    induction IH as [|x items Hx _ IHitems]; intros i; [discriminate|].
    cbn [existsb].
    destruct (Str.includes conditions (indexKey i)).
    + destruct (conditionBranch x (resolveExportsObject conditions x)) as [s|] eqn:Hb.
      * intros [= ->]. apply (conditionBranch_leaf _ _ _ (Hx t)) in Hb.
        rewrite Hb. reflexivity.
      * intros H. rewrite (IHitems _ H). apply orb_true_r.
    + intros H. rewrite (IHitems _ H). apply orb_true_r.
  - cbn [resolveExportsObject hasStringLeaf].
    match goal with
    | |- match ?loop with Some s => Some s | None => ?tail end = _ -> _ =>
        assert (forall s, loop = Some s ->
                  existsb (fun member => hasStringLeaf s member.2) members = true) as Hloop;
        [|assert (forall s, tail = Some s ->
                    existsb (fun member => hasStringLeaf s member.2) members = true) as Htail;
          [|destruct loop as [s|]; [intros [= ->]; auto|auto]]]
    end.
    + clear t. induction IH as [|[key value] rest Hvalue _ IHrest]; intros s; [discriminate|].
      cbn [existsb snd]. cbn [snd] in Hvalue.
      destruct (Str.includes conditions key).
      * destruct (conditionBranch value (resolveExportsObject conditions value)) as [s'|] eqn:Hb.
        -- intros [= ->]. apply (conditionBranch_leaf _ _ _ (Hvalue s)) in Hb.
           rewrite Hb. reflexivity.
        -- intros H. rewrite (IHrest _ H). apply orb_true_r.
      * intros H. rewrite (IHrest _ H). apply orb_true_r.
    + clear t Hloop. destruct (negb _); [|discriminate].
      induction IH as [|[key def] rest Hdef _ IHrest]; intros s; [discriminate|].
      cbn [existsb snd]. cbn [snd] in Hdef.
      destruct (String.eqb "default" key).
      * intros H. apply (defaultBranch_leaf _ _ _ (Hdef s)) in H.
        rewrite H. reflexivity.
      * intros H. rewrite (IHrest _ H). apply orb_true_r.
Qed.

Lemma lookup_member (k : string) (members : list (string * JSON)) (v : JSON) :
  Json.lookup k members = Some v -> In (k, v) members.
Proof.
  induction members as [|[k' v'] rest IH]; [discriminate|].
  cbn [Json.lookup]. destruct (String.eqb_spec k k') as [->|_].
  - intros [= ->]. left. reflexivity.
  - intros H. right. auto.
Qed.

(** X4: the target that the exports resolution selects, under any list of
    conditions, is one of the strings written in the exports value. *)
Theorem resolvePackageExports_returns_a_manifest_string
    (conditions : list string) (exports : JSON) (t : string) :
  resolvePackageExports exports conditions = Some t ->
  hasStringLeaf t exports = true.
Proof.
  destruct exports as [|b|l|s|items|members]; try discriminate.
  - intros [= ->]. cbn. apply String.eqb_refl.
  - apply (resolveExportsObject_leaf conditions (JArr items)).
  - cbn [resolvePackageExports].
    destruct (Json.lookup "." members) as [sub|] eqn:Hdot;
      [|apply resolveExportsObject_leaf].
    destruct sub; try apply resolveExportsObject_leaf;
      intros H; apply resolveExportsObject_leaf in H; cbn [hasStringLeaf];
      apply existsb_exists; eexists; (split; [eapply lookup_member; exact Hdot|exact H]).
Qed.

(** X5: among the keys of a conditional object the order of the manifest
    decides, not the order of the condition list: the first key that is a
    condition and holds a string gives the target. *)
Theorem resolveExportsObject_manifest_order (conditions : list string)
    (before after : list (string * JSON)) (key target : string) :
  Forall (fun member => Str.includes conditions member.1 = false) before ->
  Str.includes conditions key = true ->
  resolveExportsObject conditions (JObj (before ++ (key, JStr target) :: after))
  = Some target.
Proof.
  intros Hbefore Hkey. cbn [resolveExportsObject].
  match goal with
  | |- match ?loop with Some s => Some s | None => _ end = _ =>
      assert (loop = Some target) as ->; [|reflexivity]
  end.
  induction Hbefore as [|[k v] rest Hk _ IH]; cbn [app].
  - rewrite Hkey. reflexivity.
  - cbn [fst] in Hk. rewrite Hk. exact IH.
Qed.


(** ** More on install and uninstall *)

Section InstallExtras.
Variable call_openSync : Fn -> string -> string -> Outcome Z.
Variable call_readSync : Fn -> Z -> nat -> nat -> nat -> Outcome (list Byte.byte).
Variable ZipFS_new : list Byte.byte -> Outcome unit.
Variable patchFs : list Byte.byte -> gmap string Fn -> gmap string Fn.

Local Abbreviation install := (shimFs call_openSync call_readSync ZipFS_new patchFs).

(** A first install that throws has changed nothing but the saved originals
    and the log of calls. *)
Lemma shimFs_throw_inv (binary : NexeHeader) (st0 st1 : Runtime) (e : Exn) :
  originalFsMethods st0 = None ->
  install binary st0 = (Throw e, st1) ->
  exists calls,
    st1 = {| fs := fs st0; patches := patches st0;
             originalPatches := originalPatches st0;
             Module_findPath := Module_findPath st0;
             originalFsMethods := Some (fs st0);
             lazyRestoreFs := lazyRestoreFs st0;
             hostCalls := hostCalls st0 ++ calls |}.
Proof.
  intros Hnone.
  unfold shimFs, lookupFn, mbind, mret, Shim_bind, Shim_ret, shimBind, shimGet,
    shimModify, shimCall, shimLift, shimRet, shimThrow; simpl.
  rewrite Hnone. simpl.
  destruct (fs st0 !! "openSync") as [fopen|]; simpl;
    [|intros [= <- <-]; exists []; rewrite app_nil_r; reflexivity].
  destruct (call_openSync fopen _ _) as [fd|]; simpl;
    [|intros [= <- <-]; eexists; reflexivity].
  destruct (fs st0 !! "readSync") as [fread|]; simpl;
    [|intros [= <- <-]; eexists; reflexivity].
  destruct (call_readSync fread fd _ _ _) as [bytes|]; simpl;
    [|intros [= <- <-]; eexists; rewrite <- !app_assoc; reflexivity].
  destruct (length bytes =? _); simpl;
    [|intros [= <- <-]; eexists; rewrite <- !app_assoc; reflexivity].
  destruct (ZipFS_new bytes) as [[]|]; simpl;
    [|intros [= <- <-]; eexists; rewrite <- !app_assoc; reflexivity].
  destruct (Module_findPath st0); simpl; discriminate.
Qed.

(** X8: an install that throws leaves [fs], the patch table and the
    resolver as they were, and yet blocks every later install, which returns
    at once without installing. *)
Theorem failed_install_blocks_retry (binary again : NexeHeader) (st0 st1 : Runtime)
    (e : Exn) :
  originalFsMethods st0 = None ->
  install binary st0 = (Throw e, st1) ->
  fs st1 = fs st0
  /\ patches st1 = patches st0
  /\ Module_findPath st1 = Module_findPath st0
  /\ install again st1 = (Ret tt, st1).
Proof.
  intros Hnone Hthrow.
  destruct (shimFs_throw_inv binary st0 st1 e Hnone Hthrow) as (calls & ->).
  split; [reflexivity|]. split; [reflexivity|]. split; [reflexivity|].
  apply shimFs_already_installed. discriminate.
Qed.

End InstallExtras.

Section UninstallExtras.
Variable call_openSync : Fn -> string -> string -> Outcome Z.
Variable call_readSync : Fn -> Z -> nat -> nat -> nat -> Outcome (list Byte.byte).
Variable ZipFS_new : list Byte.byte -> Outcome unit.
Variable patchFs : list Byte.byte -> gmap string Fn -> gmap string Fn.
Variable fsWritable : string -> bool.
Variable fsKeyOrder : list string.

Local Abbreviation install := (shimFs call_openSync call_readSync ZipFS_new patchFs).
Local Abbreviation uninstall := (restoreFs fsWritable fsKeyOrder).

(** X7: after an install and an uninstall, whether the uninstall returned
    or threw, a new install does nothing: the saved originals are still held,
    so [shimFs] returns at once and leaves the runtime as the uninstall left
    it. *)
Theorem no_install_after_uninstall (binary again : NexeHeader) (st0 st1 : Runtime) :
  originalFsMethods st0 = None ->
  install binary st0 = (Ret tt, st1) ->
  install again (uninstall st1).2 = (Ret tt, (uninstall st1).2).
Proof.
  intros Hnone Hinstall.
  destruct (shimFs_success_inv call_openSync call_readSync ZipFS_new patchFs binary
              st0 st1 Hnone Hinstall) as (calls & blob & ->).
  apply shimFs_already_installed.
  rewrite restoreFs_originalFsMethods. discriminate.
Qed.

(** X9: the uninstall restores the methods that [fs] had before the
    install and removes nothing: a method that the overlay added under a new
    name is still there afterwards, whether the uninstall returns or
    throws. *)
Theorem uninstall_keeps_added_methods (binary : NexeHeader) (st0 st1 : Runtime) :
  originalFsMethods st0 = None ->
  install binary st0 = (Ret tt, st1) ->
  forall k, fs st0 !! k = None -> fs (uninstall st1).2 !! k = fs st1 !! k.
Proof.
  intros Hnone Hinstall k Hk.
  destruct (shimFs_success_inv call_openSync call_readSync ZipFS_new patchFs binary
              st0 st1 Hnone Hinstall) as (calls & blob & ->).
  destruct (restoreFs_fs fsWritable fsKeyOrder
              (installedState patchFs st0 calls blob) k)
    as [Hsame|(saved & v & Hsaved & Hv & _)]; [exact Hsame|].
  cbn [installedState originalFsMethods] in Hsaved. injection Hsaved as <-.
  congruence.
Qed.

End UninstallExtras.

(** ** The main entry *)

Lemma endsWithChar_append (c : ascii) (a b : string) :
  b <> EmptyString -> Str.endsWithChar c (a +:+ b) = Str.endsWithChar c b.
Proof.
  intros Hb. induction a as [|x a IH]; [reflexivity|].
  rewrite append_String. cbn [Str.endsWithChar]. rewrite IH.
  destruct (a +:+ b) eqn:Hab; [|reflexivity].
  destruct a; [rewrite append_Empty in Hab; congruence|discriminate].
Qed.

(** X10: the normalised [main] is never empty and never ends in a slash. *)
Theorem normalizeMain_names_a_file (main : string) :
  Str.isEmpty (normalizeMain main) = false
  /\ Str.endsWithChar "/" (normalizeMain main) = false.
Proof.
  unfold normalizeMain.
  set (stripped := if Str.startsWith main "./" then Str.slice 2 main else main).
  set (named := if Str.isEmpty stripped || String.eqb stripped "." then "index.js"
                else stripped).
  assert (Str.isEmpty named = false) as Hnamed.
  { unfold named. destruct (Str.isEmpty stripped) eqn:He; [reflexivity|].
    cbn [orb]. destruct (String.eqb stripped "."); [reflexivity|exact He]. }
  destruct (Str.endsWithChar "/" named) eqn:Hslash.
  - split.
    + destruct named; [discriminate|reflexivity].
    + rewrite endsWithChar_append by discriminate. reflexivity.
  - split; assumption.
Qed.

(** ** The stat hook never answers anything else *)

Section StatRange.
Variable projectRoot : string.
Variable relative : string -> string -> string.
Variable ENOENT : Z.
Variable call_fstatSync : Fn -> Z -> option Stats.
Variable call_statSync : Fn -> string -> option Stats.

Local Abbreviation statHook :=
  (internalModuleStat projectRoot relative ENOENT call_fstatSync call_statSync).

(** X11: called with a descriptor or with a path, the stat hook never
    throws and never calls the original; it returns 0, 1 or [-ENOENT]. *)
Theorem internalModuleStat_range (st : Runtime)
    (original : list JSVal -> Outcome JSVal) (args : list JSVal) :
  (exists fd, nth 0 args VUndefined = VNum fd) \/ (exists p, selectsPath args p) ->
  exists n, statHook st original args = Ret (VNum n)
            /\ (n = 0 \/ n = 1 \/ n = - ENOENT)%Z.
Proof.
  intros [[fd Hfd]|[p [[rest ->]|(ctx & rest & -> & Hnum & Hstr)]]].
  - destruct args as [|first rest]; [discriminate|]. cbn [nth] in Hfd. subst first.
    rewrite internalModuleStat_descriptor.
    destruct (originalFsMethods_fstatSync call_fstatSync st fd); eauto.
  - rewrite internalModuleStat_path_first. unfold statAnswer.
    destruct (fs_statSync call_statSync st _) as [[]|]; eauto.
  - rewrite internalModuleStat_path_second by assumption. unfold statAnswer.
    destruct (fs_statSync call_statSync st _) as [[]|]; eauto.
Qed.

End StatRange.

(** ** The bundle step: modules, rules and the directory walk *)

Lemma splitPath_cons (s : string) : exists seg segs, Bundle.splitPath s = seg :: segs.
Proof.
  induction s as [|c s (seg & segs & IH)]; cbn [Bundle.splitPath]; [eauto|].
  destruct (Bundle.isSeparator c); [eauto|]. rewrite IH. eauto.
Qed.

Lemma splitPath_plain (s : string) : hasSeparator s = false -> Bundle.splitPath s = [s].
Proof.
  induction s as [|c s IH]; [reflexivity|].
  cbn [hasSeparator Bundle.splitPath]. intros H. apply orb_false_iff in H as [Hc Hs].
  rewrite Hc, (IH Hs). reflexivity.
Qed.

Lemma splitPath_app (a b : string) (c : ascii) :
  Bundle.isSeparator c = true ->
  Bundle.splitPath (a +:+ String c b) = Bundle.splitPath a ++ Bundle.splitPath b.
Proof.
  intros Hc. induction a as [|x a IH].
  - rewrite append_Empty. cbn [Bundle.splitPath]. rewrite Hc. reflexivity.
  - rewrite append_String. cbn [Bundle.splitPath].
    destruct (Bundle.isSeparator x); rewrite IH; [reflexivity|].
    destruct (splitPath_cons a) as (seg & segs & ->). reflexivity.
Qed.

Lemma splitPath_segments (s : string) :
  Forall (fun seg => hasSeparator seg = false) (Bundle.splitPath s).
Proof.
  induction s as [|c s IH]; cbn [Bundle.splitPath]; [repeat constructor|].
  destruct (Bundle.isSeparator c) eqn:Hc; [constructor; [reflexivity|exact IH]|].
  destruct (Bundle.splitPath s) as [|seg segs]; [repeat constructor; cbn; rewrite Hc; reflexivity|].
  inversion IH as [|? ? Hseg Hsegs]; subst.
  constructor; [cbn; rewrite Hc; exact Hseg|exact Hsegs].
Qed.

Lemma lastIndexOf_None (x : string) (parts : list string) :
  Bundle.lastIndexOf x parts = None <-> x ∉ parts.
Proof.
  induction parts as [|p rest IH]; cbn [Bundle.lastIndexOf].
  - split; [intros _; apply not_elem_of_nil|reflexivity].
  - rewrite not_elem_of_cons, <- IH.
    destruct (Bundle.lastIndexOf x rest); [split; [discriminate|intros [_ H]; discriminate]|].
    destruct (String.eqb_spec p x) as [->|Hne]; split; try discriminate; try tauto.
    intros _. split; [congruence|reflexivity].
Qed.

Lemma lastIndexOf_app (x : string) (before after : list string) :
  Bundle.lastIndexOf x (before ++ after)
  = match Bundle.lastIndexOf x after with
    | Some i => Some (length before + i)
    | None => Bundle.lastIndexOf x before
    end.
Proof.
  induction before as [|p before IH]; cbn [app Bundle.lastIndexOf length].
  - destruct (Bundle.lastIndexOf x after); reflexivity.
  - rewrite IH. destruct (Bundle.lastIndexOf x after); reflexivity.
Qed.

(** X12: the module a file belongs to is the directory after its last
    [node_modules] segment, with the next segment added for a scope. *)
Theorem getModuleName_of_module_file (dir name rest : string) (c1 c2 c3 : ascii) :
  Bundle.isSeparator c1 = true -> Bundle.isSeparator c2 = true ->
  Bundle.isSeparator c3 = true ->
  hasSeparator name = false ->
  name <> EmptyString ->
  name <> "node_modules" ->
  "node_modules" ∉ Bundle.splitPath rest ->
  Bundle.getModuleName
    (dir +:+ String c1 ("node_modules" +:+ String c2 (name +:+ String c3 rest)))
  = Some (if Str.startsWith name "@"
          then name +:+ "/" +:+ hd EmptyString (Bundle.splitPath rest)
          else name).
Proof.
  intros H1 H2 H3 Hname Hne Hnm Hrest.
  unfold Bundle.getModuleName.
  rewrite (splitPath_app dir _ c1 H1), (splitPath_app "node_modules" _ c2 H2),
    (splitPath_app name _ c3 H3).
  rewrite (splitPath_plain "node_modules" eq_refl), (splitPath_plain name Hname).
  set (before := Bundle.splitPath dir).
  destruct (splitPath_cons rest) as (seg & segs & Hsplit). rewrite Hsplit in *.
  assert (Bundle.lastIndexOf "node_modules"
            (before ++ ["node_modules"] ++ [name] ++ seg :: segs)
          = Some (length before)) as ->.
  { rewrite lastIndexOf_app.
    assert (Bundle.lastIndexOf "node_modules" ([name] ++ seg :: segs) = None) as Hafter.
    { apply lastIndexOf_None. cbn [app]. apply not_elem_of_cons. split; [congruence|exact Hrest]. }
    cbn [app] in *. cbn [Bundle.lastIndexOf] in *. rewrite Hafter.
    cbn. f_equal. lia. }
  rewrite lookup_app_r by lia.
  replace (length before + 1 - length before) with 1 by lia.
  change ((["node_modules"] ++ [name] ++ seg :: segs) !! 1) with (Some name).
  cbv beta iota.
  apply isEmpty_false in Hne. rewrite Hne.
  destruct (Str.startsWith name "@"); [|reflexivity].
  unfold Bundle.sliceParts.
  replace (length before + 3 - (length before + 1)) with 2 by lia.
  replace (before ++ ["node_modules"] ++ [name] ++ seg :: segs)
    with ((before ++ ["node_modules"]) ++ name :: seg :: segs)
    by (rewrite <- app_assoc; reflexivity).
  rewrite drop_app_length' by (rewrite length_app; cbn; lia).
  reflexivity.
Qed.

(** X13: outside every [node_modules] there is no module and no base path;
    nor is there a module name when the path stops at [node_modules]. *)
Theorem getModuleName_outside_node_modules (file : string) :
  ("node_modules" ∉ Bundle.splitPath file ->
     Bundle.getModuleName file = None
     /\ forall sep moduleName, Bundle.getModuleBasePath sep file moduleName = None)
  /\ (forall dir c, Bundle.isSeparator c = true ->
        file = dir +:+ String c "node_modules" ->
        Bundle.getModuleName file = None)
  /\ (forall dir c c', Bundle.isSeparator c = true -> Bundle.isSeparator c' = true ->
        file = dir +:+ String c ("node_modules" +:+ String c' EmptyString) ->
        Bundle.getModuleName file = None).
Proof.
  split; [|split].
  - intros Hout. apply lastIndexOf_None in Hout.
    unfold Bundle.getModuleName, Bundle.getModuleBasePath. rewrite Hout.
    split; reflexivity.
  - intros dir c Hc ->. unfold Bundle.getModuleName.
    rewrite (splitPath_app dir _ c Hc), (splitPath_plain "node_modules" eq_refl).
    rewrite lastIndexOf_app.
    change (Bundle.lastIndexOf "node_modules" ["node_modules"]) with (Some 0).
    cbv beta iota.
    rewrite lookup_ge_None_2; [reflexivity|]. rewrite length_app. cbn. lia.
  - intros dir c c' Hc Hc' ->. unfold Bundle.getModuleName.
    rewrite (splitPath_app dir _ c Hc), (splitPath_app "node_modules" _ c' Hc').
    rewrite (splitPath_plain "node_modules" eq_refl).
    change (Bundle.splitPath EmptyString) with [EmptyString].
    rewrite lastIndexOf_app.
    change (Bundle.lastIndexOf "node_modules" (["node_modules"] ++ [EmptyString]))
      with (Some 0).
    cbv beta iota.
    rewrite lookup_app_r by lia.
    replace (length (Bundle.splitPath dir) + 0 + 1 - length (Bundle.splitPath dir))
      with 1 by lia.
    reflexivity.
Qed.

(** *** Joining what was split *)

Lemma join_cons (sep seg : string) (segs : list string) :
  segs <> [] -> Str.join sep (seg :: segs) = seg +:+ sep +:+ Str.join sep segs.
Proof. destruct segs; [congruence|reflexivity]. Qed.

Lemma join_String (sep : string) (c : ascii) (seg : string) (segs : list string) :
  Str.join sep (String c seg :: segs) = String c (Str.join sep (seg :: segs)).
Proof. destruct segs; reflexivity. Qed.

Lemma join_splitPath (c : ascii) (s : string) :
  separatorsAre c s = true ->
  Str.join (String c EmptyString) (Bundle.splitPath s) = s.
Proof.
  induction s as [|d s IH]; [reflexivity|].
  cbn [separatorsAre Bundle.splitPath]. intros H. apply andb_true_iff in H as [Hd Hs].
  specialize (IH Hs).
  destruct (Bundle.isSeparator d) eqn:Hsep.
  - cbn [negb orb] in Hd. apply Ascii.eqb_eq in Hd. subst d.
    destruct (splitPath_cons s) as (seg & segs & Hsplit). rewrite Hsplit in *.
    rewrite join_cons by discriminate. rewrite IH. reflexivity.
  - destruct (splitPath_cons s) as (seg & segs & Hsplit). rewrite Hsplit in *.
    rewrite join_String, IH. reflexivity.
Qed.

Lemma join_take (sep : string) (n : nat) (l : list string) :
  0 < n ->
  exists rest,
    Str.join sep l = Str.join sep (take n l) +:+ rest
    /\ (rest = EmptyString \/ exists r, rest = sep +:+ r).
Proof.
  revert l. induction n as [|n IH]; intros l Hn; [lia|].
  destruct l as [|x l]; [exists EmptyString; split; [reflexivity|left; reflexivity]|].
  cbn [take].
  destruct n as [|n].
  - rewrite take_0. destruct l as [|y l].
    + exists EmptyString. cbn. split; [|left; reflexivity].
      clear. induction x; [reflexivity|]. rewrite append_String. congruence.
    + exists (sep +:+ Str.join sep (y :: l)). split; [reflexivity|right; eauto].
  - destruct l as [|y l].
    + exists EmptyString. cbn. split; [|left; reflexivity].
      clear. induction x; [reflexivity|]. rewrite append_String. congruence.
    + destruct (IH (y :: l) ltac:(lia)) as (rest & Heq & Hrest).
      exists rest. split; [|exact Hrest].
      rewrite join_cons by discriminate.
      rewrite (join_cons sep x (take (S n) (y :: l))) by (cbn; discriminate).
      rewrite Heq. rewrite !append_assoc. reflexivity.
Qed.

Lemma split_plain (s : string) :
  hasSeparator s = false -> Str.split "/" s = [s].
Proof.
  induction s as [|c s IH]; [reflexivity|].
  cbn [hasSeparator Str.split]. intros H. apply orb_false_iff in H as [Hc Hs].
  unfold Bundle.isSeparator in Hc. apply orb_false_iff in Hc as [Hslash _].
  rewrite Hslash, (IH Hs). reflexivity.
Qed.

Lemma split_app (a b : string) :
  hasSeparator a = false -> Str.split "/" (a +:+ "/" +:+ b) = a :: Str.split "/" b.
Proof.
  induction a as [|c a IH]; [reflexivity|].
  cbn [hasSeparator]. intros H. apply orb_false_iff in H as [Hc Ha].
  unfold Bundle.isSeparator in Hc. apply orb_false_iff in Hc as [Hslash _].
  rewrite append_String. cbn [Str.split]. rewrite Hslash, (IH Ha). reflexivity.
Qed.

(** X14: when the separators of a file are the host's, the base path of
    its module is a leading part of the file, up to the end of the file or to a
    separator. *)
Theorem getModuleBasePath_is_prefix (c : ascii) (file moduleName : string) :
  separatorsAre c file = true ->
  Bundle.getModuleName file = Some moduleName ->
  exists base rest,
    Bundle.getModuleBasePath (String c EmptyString) file moduleName = Some base
    /\ file = base +:+ rest
    /\ (rest = EmptyString \/ exists r, rest = String c r).
Proof.
  intros Huniform. unfold Bundle.getModuleName, Bundle.getModuleBasePath.
  pose proof (splitPath_segments file) as Hsegments.
  pose proof (join_splitPath c file Huniform) as Hjoin.
  set (parts := Bundle.splitPath file) in *.
  destruct (Bundle.lastIndexOf "node_modules" parts) as [idx|]; [|discriminate].
  destruct (parts !! (idx + 1)) as [name|] eqn:Hname; [|discriminate].
  destruct (Str.isEmpty name); [discriminate|].
  assert (hasSeparator name = false) as Hplain.
  { eapply Forall_lookup_1 in Hsegments; [exact Hsegments|exact Hname]. }
  unfold Bundle.sliceParts. rewrite Nat.sub_0_r, drop_0.
  assert (forall m,
            (exists n, 0 < n
                       /\ (if Str.startsWith m "@"
                           then take (idx + 1) parts ++ Str.split "/" m
                           else take (idx + 1) parts ++ [m]) = take n parts)
            -> exists base rest,
                 Some (Str.join (String c EmptyString)
                         (if Str.startsWith m "@"
                          then take (idx + 1) parts ++ Str.split "/" m
                          else take (idx + 1) parts ++ [m])) = Some base
                 /\ file = base +:+ rest
                 /\ (rest = EmptyString \/ exists r, rest = String c r)) as Hfinish.
  { intros m (n & Hn & ->).
    destruct (join_take (String c EmptyString) n parts Hn) as (rest & Heq & Hrest).
    eexists _, rest. split; [reflexivity|]. split; [rewrite <- Hjoin; exact Heq|].
    destruct Hrest as [->|[r ->]]; [left; reflexivity|right; eauto]. }
  destruct (Str.startsWith name "@") eqn:Hscoped.
  - (* scoped *)
    intros [= <-].
    replace (idx + 3 - (idx + 1)) with 2 by lia.
    destruct (drop (idx + 1) parts) as [|first tail] eqn:Hdrop.
    { apply (f_equal length) in Hdrop. rewrite length_drop in Hdrop. cbn in Hdrop.
      apply lookup_lt_Some in Hname. lia. }
    assert (first = name) as ->.
    { pose proof (lookup_drop parts (idx + 1) 0) as H0.
      rewrite Hdrop, Nat.add_0_r, Hname in H0. cbn in H0. congruence. }
    destruct tail as [|second tail].
    + cbn [take Str.join].
      apply Hfinish. rewrite Hscoped. exists (S (idx + 1)). split; [lia|].
      rewrite (split_plain name Hplain).
      symmetry. apply take_S_r. exact Hname.
    + cbn [take Str.join]. rewrite take_0.
      assert (parts !! (S (idx + 1)) = Some second) as Hsecond.
      { replace (S (idx + 1)) with (idx + 1 + 1) by lia.
        rewrite <- lookup_drop, Hdrop. reflexivity. }
      assert (hasSeparator second = false) as Hplain2.
      { eapply Forall_lookup_1 in Hsegments; [exact Hsegments|exact Hsecond]. }
      assert (Str.startsWith (name +:+ "/" +:+ second) "@" = true) as Hscoped2.
      { destruct name; [discriminate|]. exact Hscoped. }
      apply Hfinish. rewrite Hscoped2. exists (S (S (idx + 1))). split; [lia|].
      rewrite (split_app name second Hplain), (split_plain second Hplain2).
      rewrite (take_S_r parts (S (idx + 1)) second Hsecond).
      rewrite (take_S_r parts (idx + 1) name Hname).
      rewrite <- app_assoc. reflexivity.
  - intros [= <-].
    apply Hfinish. rewrite Hscoped. exists (S (idx + 1)). split; [lia|].
    symmetry. apply take_S_r. exact Hname.
Qed.

(** *** Searching for the marker *)

Lemma startsWith_decompose (s p : string) :
  Str.startsWith s p = true -> s = p +:+ Str.slice (String.length p) s.
Proof.
  revert s. induction p as [|c p IH]; intros s; [reflexivity|].
  destruct s as [|d s]; [discriminate|]. cbn [Str.startsWith].
  destruct (Ascii.eqb_spec c d) as [->|]; [|discriminate].
  intros H. rewrite append_String. cbn [String.length Str.slice]. f_equal. auto.
Qed.

Lemma indexOf_Some (s marker : string) (i : nat) :
  Bundle.indexOf s marker = Some i ->
  exists before,
    String.length before = i
    /\ s = before +:+ marker +:+ Str.slice (i + String.length marker) s.
Proof.
  revert i. induction s as [|c s IH]; intros i.
  - cbn [Bundle.indexOf].
    destruct (Str.startsWith EmptyString marker) eqn:Hstart; [|discriminate].
    intros [= <-]. exists EmptyString. split; [reflexivity|].
    apply startsWith_decompose, Hstart.
  - cbn [Bundle.indexOf].
    destruct (Str.startsWith (String c s) marker) eqn:Hstart.
    + intros [= <-]. exists EmptyString. split; [reflexivity|].
      apply startsWith_decompose, Hstart.
    + destruct (Bundle.indexOf s marker) as [j|]; [|discriminate].
      intros [= <-]. destruct (IH j eq_refl) as (before & Hlen & Heq).
      exists (String c before). split; [cbn; congruence|].
      rewrite append_String. cbn [Nat.add Str.slice]. congruence.
Qed.

Lemma indexOf_first (s marker : string) (a b : string) :
  s = a +:+ marker +:+ b ->
  exists i, Bundle.indexOf s marker = Some i /\ i <= String.length a.
Proof.
  revert s. induction a as [|c a IH]; intros s ->.
  - rewrite append_Empty. exists 0. split; [|cbn; lia].
    destruct (marker +:+ b) eqn:Heq; cbn [Bundle.indexOf];
      rewrite <- Heq, startsWith_append; reflexivity.
  - rewrite append_String. cbn [Bundle.indexOf].
    destruct (Str.startsWith _ marker); [exists 0; split; [reflexivity|cbn; lia]|].
    destruct (IH _ eq_refl) as (i & -> & Hle).
    exists (S i). split; [reflexivity|cbn; lia].
Qed.

(** X15: the relative path is what follows the first occurrence of
    [node_modules/<module>/] in the file, slashes normalised; it is empty when
    the marker does not occur. *)
Theorem getModuleRelativePath_after_first_marker (file moduleName : string) :
  let normalizedFile := Str.backslashesToSlashes file in
  let marker := "node_modules/" +:+ Str.backslashesToSlashes moduleName +:+ "/" in
  ((forall a b, normalizedFile <> a +:+ marker +:+ b) ->
     Bundle.getModuleRelativePath file moduleName = EmptyString)
  /\ (forall a b, normalizedFile = a +:+ marker +:+ b ->
        exists before,
          normalizedFile
          = before +:+ marker +:+ Bundle.getModuleRelativePath file moduleName
          /\ String.length before <= String.length a).
Proof.
  intros normalizedFile marker. unfold Bundle.getModuleRelativePath.
  fold normalizedFile. fold marker. split.
  - intros Habsent.
    destruct (Bundle.indexOf normalizedFile marker) as [i|] eqn:Hi; [|reflexivity].
    destruct (indexOf_Some _ _ _ Hi) as (before & _ & Heq).
    exfalso. eapply Habsent. exact Heq.
  - intros a b Heq.
    destruct (indexOf_first _ _ _ _ Heq) as (i & Hi & Hle). rewrite Hi.
    destruct (indexOf_Some _ _ _ Hi) as (before & Hlen & Hdec).
    exists before. split; [exact Hdec|lia].
Qed.

(** *** Bundle rules *)

Section Rules.
Variable minimatch : string -> string -> bool.

Local Abbreviation shouldInclude := (Bundle.shouldIncludeFile minimatch).

(** X16: a file found in a module's directory is kept exactly when it lies
    inside the module and either is the module's [package.json] or passes the
    rule: with a non-empty include list some include glob matches, and no
    exclude glob matches. *)
Theorem shouldIncludeFile_rule (file moduleName : string) (rule : Bundle.ModuleRule) :
  let rel := Bundle.getModuleRelativePath file moduleName in
  shouldInclude file moduleName rule = true
  <-> rel <> EmptyString
      /\ (rel = "package.json"
          \/ (match Bundle.include rule with
              | Some (g :: gs) => exists glob, glob ∈ g :: gs /\ minimatch rel glob = true
              | _ => True
              end)
             /\ (forall globs glob, Bundle.exclude rule = Some globs -> glob ∈ globs ->
                   minimatch rel glob = false)).
Proof.
  intros rel. unfold Bundle.shouldIncludeFile. fold rel.
  destruct (Str.isEmpty rel) eqn:Hempty.
  { apply isEmpty_true in Hempty. split; [discriminate|]. intros [H _]. contradiction. }
  apply isEmpty_false in Hempty.
  destruct (String.eqb_spec rel "package.json") as [Hpkg|Hpkg]; [tauto|].
  assert (forall globs, existsb (minimatch rel) globs = true
                        <-> exists glob, glob ∈ globs /\ minimatch rel glob = true) as Hex.
  { intros globs. rewrite existsb_exists. setoid_rewrite list_elem_of_In. reflexivity. }
  assert (forall globs, negb (existsb (minimatch rel) globs) = true
                        <-> forall glob, glob ∈ globs -> minimatch rel glob = false) as Hall.
  { intros globs. rewrite negb_true_iff. split.
    - intros Hnone glob Hin. destruct (minimatch rel glob) eqn:Hm; [|reflexivity].
      assert (existsb (minimatch rel) globs = true) by (apply Hex; eauto). congruence.
    - intros Hnone. destruct (existsb (minimatch rel) globs) eqn:He; [|reflexivity].
      apply Hex in He as (glob & Hin & Hm). rewrite (Hnone glob Hin) in Hm. discriminate. }
  assert ((match Bundle.nonEmptyList (Bundle.include rule) with
           | Some globs => existsb (minimatch rel) globs
           | None => true
           end) = true
          <-> match Bundle.include rule with
              | Some (g :: gs) => exists glob, glob ∈ g :: gs /\ minimatch rel glob = true
              | _ => True
              end) as Hinclude.
  { destruct (Bundle.include rule) as [[|g gs]|]; cbn [Bundle.nonEmptyList];
      [tauto|apply Hex|tauto]. }
  assert ((match Bundle.nonEmptyList (Bundle.exclude rule) with
           | Some globs => negb (existsb (minimatch rel) globs)
           | None => true
           end) = true
          <-> forall globs glob, Bundle.exclude rule = Some globs -> glob ∈ globs ->
                minimatch rel glob = false) as Hexclude.
  { destruct (Bundle.exclude rule) as [[|x xs]|]; cbn [Bundle.nonEmptyList].
    - split; [|reflexivity]. intros _ globs glob [= <-] Hin.
      apply elem_of_nil in Hin. contradiction.
    - rewrite Hall. split.
      + intros Hnone globs glob [= <-]. apply Hnone.
      + intros Hnone glob Hin. eapply Hnone; [reflexivity|exact Hin].
    - split; [|reflexivity]. intros _ globs glob H. discriminate. }
  rewrite <- Hinclude, <- Hexclude.
  destruct (match Bundle.nonEmptyList (Bundle.include rule) with
            | Some globs => existsb (minimatch rel) globs
            | None => true
            end); cbn [negb]; [tauto|].
  split; [discriminate|]. intros [_ [H|[H _]]]; [contradiction|discriminate].
Qed.

End Rules.

(** *** Walking a module's directory *)

Section Walk.
Variable readdirSync : string -> option (list string).
Variable statSync : string -> option Stats.
Variable join : string -> string -> string.

Local Abbreviation walk := (Bundle.walk readdirSync statSync join).

Local Abbreviation walkEntry := (Bundle.walkEntry readdirSync statSync join).

Lemma walk_S (fuel : nat) (dir : string) :
  walk (S fuel) dir
  = match readdirSync dir with
    | None => Some []
    | Some entries =>
        foldr (fun entry acc =>
                 match walkEntry fuel dir entry, acc with
                 | Some found, Some more => Some (found ++ more)
                 | _, _ => None
                 end) (Some []) entries
    end.
Proof.
  cbn [Bundle.walk]. destruct (readdirSync dir) as [entries|]; [|reflexivity].
  induction entries as [|entry rest IH]; [reflexivity|].
  cbn [foldr]. rewrite <- IH. reflexivity.
Qed.

(** X17: only regular files are collected. *)
Theorem getAllFilesInModule_regular_files (fuel : nat) (basePath : string)
    (files : list string) :
  Bundle.getAllFilesInModule readdirSync statSync join fuel basePath = Some files ->
  forall file, file ∈ files -> statSync file = Some StatFile.
Proof.
  unfold Bundle.getAllFilesInModule. revert basePath files.
  induction fuel as [|fuel IH]; intros dir files; [discriminate|].
  rewrite walk_S. destruct (readdirSync dir) as [entries|].
  2:{ intros [= <-] file Hin. apply elem_of_nil in Hin. contradiction. }
  revert files. induction entries as [|entry rest IHrest]; intros files; cbn [foldr].
  { intros [= <-] file Hin. apply elem_of_nil in Hin. contradiction. }
  destruct (walkEntry fuel dir entry) as [found|] eqn:Hentry; [|discriminate].
  destruct (foldr _ _ rest) as [more|]; [|discriminate].
  intros [= <-] file Hin. apply elem_of_app in Hin as [Hin|Hin]; [|eapply IHrest; eauto].
  unfold Bundle.walkEntry in Hentry.
  destruct (statSync (join dir entry)) as [[]|] eqn:Hstat.
  - injection Hentry as <-. apply list_elem_of_singleton in Hin. congruence.
  - eapply IH; eauto.
  - injection Hentry as <-. apply elem_of_nil in Hin. contradiction.
  - injection Hentry as <-. apply elem_of_nil in Hin. contradiction.
Qed.

(** More fuel does not change a result. *)
Lemma walk_more_fuel (fuel : nat) (dir : string) (files : list string) :
  walk fuel dir = Some files -> walk (S fuel) dir = Some files.
Proof.
  revert dir files. induction fuel as [|fuel IH]; intros dir files; [discriminate|].
  rewrite (walk_S (S fuel)), walk_S.
  destruct (readdirSync dir) as [entries|]; [|trivial].
  revert files. induction entries as [|entry rest IHrest]; intros files; cbn [foldr]; [trivial|].
  destruct (walkEntry fuel dir entry) as [found|] eqn:Hentry; [|discriminate].
  destruct (foldr _ _ rest) as [more|] eqn:Hrest; [|discriminate].
  intros [= <-]. rewrite (IHrest more eq_refl).
  assert (walkEntry (S fuel) dir entry = Some found) as ->; [|reflexivity].
  unfold Bundle.walkEntry in *. destruct (statSync (join dir entry)) as [[]|]; auto.
Qed.

Lemma walk_fuel_le (fuel fuel' : nat) (dir : string) (files : list string) :
  fuel <= fuel' -> walk fuel dir = Some files -> walk fuel' dir = Some files.
Proof.
  induction 1 as [|fuel' _ IH]; [trivial|]. intros H. apply walk_more_fuel, IH, H.
Qed.

Lemma walk_returns (rank : string -> nat) :
  (forall dir entries entry,
      readdirSync dir = Some entries -> entry ∈ entries ->
      statSync (join dir entry) = Some StatDirectory ->
      rank (join dir entry) < rank dir) ->
  forall fuel dir, rank dir < fuel -> exists files, walk fuel dir = Some files.
Proof.
  intros Hrank.
  induction fuel as [|fuel IH]; intros dir Hlt; [lia|].
  rewrite walk_S. destruct (readdirSync dir) as [entries|] eqn:Hdir; [|eauto].
  assert (forall entry, entry ∈ entries ->
            exists found, walkEntry fuel dir entry = Some found) as Hentries.
  { intros entry Hin. unfold Bundle.walkEntry.
    destruct (statSync (join dir entry)) as [[]|] eqn:Hstat; eauto.
    apply IH. specialize (Hrank dir entries entry Hdir Hin Hstat). lia. }
  clear Hdir. induction entries as [|entry rest IHrest]; cbn [foldr]; [eauto|].
  destruct (Hentries entry) as (found & ->); [left|].
  destruct IHrest as (more & ->); [|eauto].
  intros e He. apply Hentries. right. exact He.
Qed.

(** X18: on a directory tree of bounded depth the walk returns, and what it
    returns does not depend on the fuel. *)
Theorem getAllFilesInModule_returns (rank : string -> nat) (basePath : string) :
  (forall dir entries entry,
      readdirSync dir = Some entries -> entry ∈ entries ->
      statSync (join dir entry) = Some StatDirectory ->
      rank (join dir entry) < rank dir) ->
  exists files,
    forall fuel, rank basePath < fuel ->
      Bundle.getAllFilesInModule readdirSync statSync join fuel basePath = Some files.
Proof.
  intros Hrank. unfold Bundle.getAllFilesInModule.
  destruct (walk_returns rank Hrank (S (rank basePath)) basePath) as (files & Hfiles); [lia|].
  exists files. intros fuel Hlt.
  apply (walk_fuel_le (S (rank basePath))); [lia|exact Hfiles].
Qed.

End Walk.

(** ** The bundle step: the resources selected *)

Lemma setAdd_elem (x y : string) (set : list string) :
  y ∈ Select.setAdd x set <-> y = x \/ y ∈ set.
Proof.
  unfold Select.setAdd. destruct (existsb (String.eqb x) set) eqn:Hin.
  - apply existsb_exists in Hin as (z & Hz & Heq). apply String.eqb_eq in Heq. subst z.
    apply list_elem_of_In in Hz. split; [tauto|]. intros [->|H]; assumption.
  - rewrite elem_of_app, list_elem_of_singleton. tauto.
Qed.

Lemma setAdd_NoDup (x : string) (set : list string) :
  NoDup set -> NoDup (Select.setAdd x set).
Proof.
  intros Hset. unfold Select.setAdd. destruct (existsb (String.eqb x) set) eqn:Hin; [exact Hset|].
  apply NoDup_app. split; [exact Hset|]. split; [|apply NoDup_singleton].
  intros y Hy Hyx. apply list_elem_of_singleton in Hyx. subst y.
  assert (existsb (String.eqb x) set = true); [|congruence].
  apply existsb_exists. exists x. split; [apply list_elem_of_In, Hy|apply String.eqb_refl].
Qed.

(** Adding the elements of [xs] that pass [keep]. *)
Lemma fold_setAdd (keep : string -> bool) (xs set : list string) :
  let result := fold_left (fun acc x => if keep x then Select.setAdd x acc else acc) xs set in
  (NoDup set -> NoDup result)
  /\ forall y, y ∈ result <-> y ∈ set \/ (y ∈ xs /\ keep y = true).
Proof.
  revert set. induction xs as [|x xs IH]; intros set; cbn [fold_left].
  - split; [trivial|]. intros y. rewrite elem_of_nil. tauto.
  - destruct (IH (if keep x then Select.setAdd x set else set)) as [Hnodup Hiff].
    split.
    + intros Hset. apply Hnodup. destruct (keep x); [apply setAdd_NoDup|]; exact Hset.
    + intros y. rewrite Hiff, elem_of_cons.
      destruct (keep x) eqn:Hx.
      * rewrite setAdd_elem. split; [|tauto].
        intros [[->|H]|[H1 H2]]; [right; split; [left; reflexivity|exact Hx]|tauto|tauto].
      * split; [tauto|]. intros [H|[[->|H] Hy]]; [tauto|congruence|tauto].
Qed.

Lemma lastIndexOf_lookup (x : string) (parts : list string) (i : nat) :
  Bundle.lastIndexOf x parts = Some i -> parts !! i = Some x.
Proof.
  revert i. induction parts as [|p rest IH]; intros i; [discriminate|].
  cbn [Bundle.lastIndexOf].
  destruct (Bundle.lastIndexOf x rest) as [j|].
  - intros [= <-]. apply IH. reflexivity.
  - destruct (String.eqb_spec p x) as [->|]; [|discriminate]. intros [= <-]. reflexivity.
Qed.

Lemma join_nonempty (sep : string) (segs : list string) (seg : string) :
  seg ∈ segs -> seg <> EmptyString -> Str.join sep segs <> EmptyString.
Proof.
  induction segs as [|x segs IH]; [intros H; apply elem_of_nil in H; contradiction|].
  intros Hin Hne. destruct segs as [|y segs].
  - apply list_elem_of_singleton in Hin. subst. exact Hne.
  - rewrite join_cons by discriminate.
    apply elem_of_cons in Hin as [->|Hin].
    + destruct x; [congruence|]. rewrite append_String. discriminate.
    + specialize (IH Hin Hne). destruct x; [|rewrite append_String; discriminate].
      rewrite append_Empty. destruct sep; [rewrite append_Empty; exact IH|].
      rewrite append_String. discriminate.
Qed.

Lemma getModuleName_nonempty (file moduleName : string) :
  Bundle.getModuleName file = Some moduleName -> Str.isEmpty moduleName = false.
Proof.
  unfold Bundle.getModuleName.
  destruct (Bundle.lastIndexOf _ _) as [idx|]; [|discriminate].
  destruct (_ !! (idx + 1)) as [name|] eqn:Hname; [|discriminate].
  destruct (Str.isEmpty name) eqn:Hne; [discriminate|].
  destruct (Str.startsWith name "@"); [|intros [= <-]; exact Hne].
  intros [= <-]. apply isEmpty_false. apply (join_nonempty _ _ name).
  - unfold Bundle.sliceParts. replace (idx + 3 - (idx + 1)) with 2 by lia.
    apply list_elem_of_lookup. exists 0.
    rewrite lookup_take_lt by lia. rewrite lookup_drop, Nat.add_0_r. exact Hname.
  - apply isEmpty_false. exact Hne.
Qed.

Lemma getModuleBasePath_nonempty (sep file moduleName base : string) :
  Bundle.getModuleBasePath sep file moduleName = Some base -> Str.isEmpty base = false.
Proof.
  unfold Bundle.getModuleBasePath.
  destruct (Bundle.lastIndexOf _ _) as [idx|] eqn:Hidx; [|discriminate].
  apply lastIndexOf_lookup in Hidx.
  assert ("node_modules" ∈ Bundle.sliceParts 0 (idx + 1) (Bundle.splitPath file)) as Hin.
  { unfold Bundle.sliceParts. rewrite Nat.sub_0_r, drop_0.
    apply list_elem_of_lookup. exists idx. rewrite lookup_take_lt by lia. exact Hidx. }
  destruct (Str.startsWith moduleName "@"); intros [= <-]; apply isEmpty_false;
    (apply (join_nonempty _ _ "node_modules"); [apply elem_of_app; left; exact Hin|discriminate]).
Qed.

(** X26: a file that has a module name has a non-empty one, and its base
    path is defined and not empty, whatever the separator: the guards
    [if (moduleName)] and [if (basePath)] of [bundle] never turn such a file
    away. *)
Theorem module_guards_always_pass (sep file moduleName : string) :
  Bundle.getModuleName file = Some moduleName ->
  Str.isEmpty moduleName = false
  /\ exists basePath,
       Bundle.getModuleBasePath sep file moduleName = Some basePath
       /\ Str.isEmpty basePath = false.
Proof.
  intros Hname. split; [exact (getModuleName_nonempty _ _ Hname)|].
  assert (exists basePath, Bundle.getModuleBasePath sep file moduleName = Some basePath)
    as (basePath & Hbase).
  { unfold Bundle.getModuleName in Hname. unfold Bundle.getModuleBasePath.
    destruct (Bundle.lastIndexOf _ _); [eauto|discriminate]. }
  exists basePath. split; [exact Hbase|exact (getModuleBasePath_nonempty _ _ _ _ Hbase)].
Qed.

Lemma fold_setAdd_with (step : list string -> string -> list string)
    (keep : string -> bool) (xs set : list string) :
  (forall acc x, step acc x = if keep x then Select.setAdd x acc else acc) ->
  (NoDup set -> NoDup (fold_left step xs set))
  /\ forall y, y ∈ fold_left step xs set <-> y ∈ set \/ (y ∈ xs /\ keep y = true).
Proof.
  intros Hstep.
  assert (fold_left step xs set
          = fold_left (fun acc x => if keep x then Select.setAdd x acc else acc) xs set) as ->.
  { revert set. induction xs as [|x xs IH]; intros set; [reflexivity|].
    cbn [fold_left]. rewrite Hstep. apply IH. }
  apply fold_setAdd.
Qed.

(** *** Without bundle rules *)

Section Manifests.
Variable sep : string.
Variable join : string -> string -> string.
Variable statSync : string -> option Stats.

Lemma notePackageJson_packageJsonOf (acc : list string) (key : string) :
  Select.notePackageJson sep join acc key
  = match Select.packageJsonOf sep join key with
    | Some p => Select.setAdd p acc
    | None => acc
    end.
Proof.
  unfold Select.notePackageJson, Select.packageJsonOf.
  destruct (Bundle.getModuleName key) as [m|] eqn:Hm; [|reflexivity].
  rewrite (getModuleName_nonempty _ _ Hm).
  destruct (Bundle.getModuleBasePath sep key m) as [b|] eqn:Hb; [|reflexivity].
  rewrite (getModuleBasePath_nonempty _ _ _ _ Hb). reflexivity.
Qed.

Lemma fold_notePackageJson (keys acc : list string) :
  let result := fold_left (Select.notePackageJson sep join) keys acc in
  (NoDup acc -> NoDup result)
  /\ forall p, p ∈ result
               <-> p ∈ acc \/ exists key, key ∈ keys /\ Select.packageJsonOf sep join key = Some p.
Proof.
  revert acc. induction keys as [|key keys IH]; intros acc; cbn [fold_left].
  - split; [trivial|]. intros p. split; [tauto|].
    intros [H|(key & Hin & _)]; [exact H|apply elem_of_nil in Hin; contradiction].
  - destruct (IH (Select.notePackageJson sep join acc key)) as [Hnodup Hiff].
    rewrite notePackageJson_packageJsonOf in Hnodup, Hiff |- *.
    split.
    + intros Hacc. apply Hnodup.
      destruct (Select.packageJsonOf sep join key); [apply setAdd_NoDup|]; exact Hacc.
    + intros p. rewrite Hiff.
      destruct (Select.packageJsonOf sep join key) as [q|] eqn:Hq.
      * rewrite setAdd_elem. split.
        -- intros [[->|H]|(k & Hin & Hk)]; [right; exists key; split; [left|exact Hq]
                                            |tauto|right; exists k; split; [right; exact Hin|exact Hk]].
        -- intros [H|(k & Hin & Hk)]; [tauto|].
           apply elem_of_cons in Hin as [->|Hin]; [left; left; congruence|right; eauto].
      * split.
        -- intros [H|(k & Hin & Hk)]; [tauto|right; exists k; split; [right; exact Hin|exact Hk]].
        -- intros [H|(k & Hin & Hk)]; [tauto|].
           apply elem_of_cons in Hin as [->|Hin]; [congruence|right; eauto].
Qed.

(** X19: without bundle rules every resolved file is added, in order, and
    after them, once each, the [package.json] of the module of each resolved
    file, when it exists on disk. *)
Theorem resourcesWithoutRules_manifests (resolved : list string) :
  exists manifests,
    Select.resourcesWithoutRules sep join statSync resolved = resolved ++ manifests
    /\ NoDup manifests
    /\ forall p, p ∈ manifests
                 <-> Select.existsOnDisk statSync p = true
                     /\ exists key, key ∈ resolved
                                    /\ Select.packageJsonOf sep join key = Some p.
Proof.
  unfold Select.resourcesWithoutRules.
  destruct (fold_notePackageJson resolved []) as [Hnodup Hiff].
  eexists. split; [reflexivity|]. split.
  - apply NoDup_filter, Hnodup, NoDup_nil_2.
  - intros p. rewrite list_elem_of_filter, Hiff, elem_of_nil. tauto.
Qed.

End Manifests.

(** *** With bundle rules: the recorded modules *)

Section Recorded.
Variable sep : string.
Variable rulesAt : string -> option Bundle.ModuleRule.

Local Abbreviation noteModule := (Select.noteModule sep rulesAt).
Local Abbreviation recorded := (Select.recordedModules sep rulesAt).

Lemma getModuleBasePath_defined (file moduleName other : string) :
  Bundle.getModuleName file = Some moduleName ->
  exists base, Bundle.getModuleBasePath sep file other = Some base.
Proof.
  unfold Bundle.getModuleName, Bundle.getModuleBasePath.
  destruct (Bundle.lastIndexOf _ _); [eauto|discriminate].
Qed.

Lemma noteModule_cases (modules : list (string * string)) (file : string) :
  noteModule modules file
  = match Bundle.getModuleName file with
    | Some m =>
        match rulesAt m, Bundle.getModuleBasePath sep file m with
        | Some _, Some b => if Select.mapHas m modules then modules else modules ++ [(m, b)]
        | _, _ => modules
        end
    | None => modules
    end.
Proof.
  unfold Select.noteModule.
  destruct (Bundle.getModuleName file) as [m|] eqn:Hm; [|reflexivity].
  rewrite (getModuleName_nonempty _ _ Hm). cbn [negb andb].
  destruct (rulesAt m); [|reflexivity]. cbn [andb].
  destruct (Select.mapHas m modules); cbn [negb];
    destruct (Bundle.getModuleBasePath sep file m) as [b|] eqn:Hb; try reflexivity.
  rewrite (getModuleBasePath_nonempty _ _ _ _ Hb). reflexivity.
Qed.

Lemma mapHas_app (m : string) (a b : list (string * string)) :
  Select.mapHas m (a ++ b) = Select.mapHas m a || Select.mapHas m b.
Proof. unfold Select.mapHas. apply existsb_app. Qed.

Lemma mapHas_elem (m : string) (modules : list (string * string)) :
  Select.mapHas m modules = true <-> exists b, (m, b) ∈ modules.
Proof.
  unfold Select.mapHas. rewrite existsb_exists. split.
  - intros ([m' b] & Hin & Heq). apply String.eqb_eq in Heq. cbn in Heq. subst m'.
    exists b. apply list_elem_of_In, Hin.
  - intros (b & Hin). exists (m, b). split; [apply list_elem_of_In, Hin|apply String.eqb_refl].
Qed.

(** What the first loop records, from any starting map. *)
Lemma fold_noteModule (files : list string) (modules : list (string * string)) :
  let result := fold_left noteModule files modules in
  (NoDup modules.*1 -> NoDup result.*1)
  /\ (forall m, Select.mapHas m result = true
                <-> Select.mapHas m modules = true
                    \/ (is_Some (rulesAt m)
                        /\ exists file, file ∈ files /\ Bundle.getModuleName file = Some m))
  /\ (forall m b, (m, b) ∈ result ->
        (m, b) ∈ modules
        \/ (Select.mapHas m modules = false
            /\ is_Some (rulesAt m)
            /\ exists before file after,
                 files = before ++ file :: after
                 /\ Bundle.getModuleName file = Some m
                 /\ Bundle.getModuleBasePath sep file m = Some b
                 /\ forall f, f ∈ before -> Bundle.getModuleName f <> Some m)).
Proof.
  revert modules. induction files as [|file files IH]; intros modules; cbn [fold_left].
  - split; [trivial|]. split.
    + intros m. split; [tauto|]. intros [H|(_ & f & Hin & _)]; [exact H|].
      apply elem_of_nil in Hin. contradiction.
    + intros m b H. left. exact H.
  - destruct (IH (noteModule modules file)) as (Hnodup & Hhas & Hfirst).
    rewrite noteModule_cases in Hnodup, Hhas, Hfirst |- *.
    destruct (Bundle.getModuleName file) as [m0|] eqn:Hm0.
    2:{ split; [exact Hnodup|]. split.
        - intros m. rewrite Hhas. split.
          + intros [H|(Hr & f & Hin & Hf)]; [tauto|]. right. split; [exact Hr|].
            exists f. split; [right; exact Hin|exact Hf].
          + intros [H|(Hr & f & Hin & Hf)]; [tauto|].
            apply elem_of_cons in Hin as [->|Hin]; [congruence|]. right. eauto.
        - intros m b Hin. destruct (Hfirst m b Hin) as [H|(Hno & Hr & bf & f & af & -> & Hf & Hb & Hbefore)];
            [tauto|]. right. split; [exact Hno|]. split; [exact Hr|].
          exists (file :: bf), f, af. split; [reflexivity|]. split; [exact Hf|]. split; [exact Hb|].
          intros g Hg. apply elem_of_cons in Hg as [->|Hg]; [congruence|auto]. }
    destruct (getModuleBasePath_defined file m0 m0 Hm0) as (b0 & Hb0). rewrite Hb0 in Hnodup, Hhas, Hfirst |- *.
    destruct (rulesAt m0) as [rule0|] eqn:Hrule0.
    2:{ split; [exact Hnodup|]. split.
        - intros m. rewrite Hhas. split.
          + intros [H|(Hr & f & Hin & Hf)]; [tauto|]. right. split; [exact Hr|].
            exists f. split; [right; exact Hin|exact Hf].
          + intros [H|(Hr & f & Hin & Hf)]; [tauto|].
            apply elem_of_cons in Hin as [->|Hin]; [|right; eauto].
            assert (m = m0) as -> by congruence. rewrite Hrule0 in Hr.
            destruct Hr as [? Hr]. discriminate.
        - intros m b Hin. destruct (Hfirst m b Hin) as [H|(Hno & Hr & bf & f & af & -> & Hf & Hb & Hbefore)];
            [tauto|]. right. split; [exact Hno|]. split; [exact Hr|].
          exists (file :: bf), f, af. split; [reflexivity|]. split; [exact Hf|]. split; [exact Hb|].
          intros g Hg. apply elem_of_cons in Hg as [->|Hg]; [|auto].
          intros Hg. assert (m = m0) as -> by congruence. rewrite Hrule0 in Hr.
          destruct Hr as [? Hr]. discriminate. }
    destruct (Select.mapHas m0 modules) eqn:Hhas0.
    + split; [exact Hnodup|]. split.
      * intros m. rewrite Hhas. split.
        -- intros [H|(Hr & f & Hin & Hf)]; [tauto|]. right. split; [exact Hr|].
           exists f. split; [right; exact Hin|exact Hf].
        -- intros [H|(Hr & f & Hin & Hf)]; [tauto|].
           apply elem_of_cons in Hin as [->|Hin]; [|right; eauto].
           left. congruence.
      * intros m b Hin. destruct (Hfirst m b Hin) as [H|(Hno & Hr & bf & f & af & -> & Hf & Hb & Hbefore)];
          [tauto|]. right. split; [exact Hno|]. split; [exact Hr|].
        exists (file :: bf), f, af. split; [reflexivity|]. split; [exact Hf|]. split; [exact Hb|].
        intros g Hg. apply elem_of_cons in Hg as [->|Hg]; [|auto]. congruence.
    + split; [|split].
      * intros Hmods. apply Hnodup. rewrite fmap_app. apply NoDup_app.
        split; [exact Hmods|]. split; [|apply NoDup_singleton].
        intros m Hm Hm'. cbn in Hm'. apply list_elem_of_singleton in Hm'. subst m.
        apply list_elem_of_fmap in Hm as ([m b] & Heq & Hin). cbn in Heq. subst m.
        assert (Select.mapHas m0 modules = true) by (apply mapHas_elem; eauto). congruence.
      * intros m. rewrite Hhas, mapHas_app. cbn [Select.mapHas existsb fst orb].
        rewrite orb_false_r. split.
        -- intros [H|(Hr & f & Hin & Hf)].
           ++ apply orb_true_iff in H as [H|H]; [tauto|]. apply String.eqb_eq in H. subst m.
              right. split; [eauto|]. exists file. split; [left|exact Hm0].
           ++ right. split; [exact Hr|]. exists f. split; [right; exact Hin|exact Hf].
        -- intros [H|(Hr & f & Hin & Hf)]; [rewrite H; tauto|].
           apply elem_of_cons in Hin as [->|Hin]; [|right; eauto].
           left. assert (m = m0) as -> by congruence. rewrite String.eqb_refl. apply orb_true_r.
      * intros m b Hin. destruct (Hfirst m b Hin) as [H|(Hno & Hr & bf & f & af & -> & Hf & Hb & Hbefore)].
        -- apply elem_of_app in H as [H|H]; [tauto|]. apply list_elem_of_singleton in H.
           injection H as -> ->. right. split; [exact Hhas0|]. split; [eauto|].
           exists [], file, files. split; [reflexivity|]. split; [exact Hm0|]. split; [exact Hb0|].
           intros g Hg. apply elem_of_nil in Hg. contradiction.
        -- rewrite mapHas_app in Hno. apply orb_false_iff in Hno as [Hno Hne].
           cbn [Select.mapHas existsb fst orb] in Hne. rewrite orb_false_r in Hne.
           right. split; [exact Hno|]. split; [exact Hr|].
           exists (file :: bf), f, af. split; [reflexivity|]. split; [exact Hf|]. split; [exact Hb|].
           intros g Hg. apply elem_of_cons in Hg as [->|Hg]; [|auto].
           intros Hg. assert (m = m0) as -> by congruence. rewrite String.eqb_refl in Hne.
           discriminate.
Qed.

(** X20: the modules whose rule is applied.  A module is recorded when it
    has a rule and some resolved file belongs to it, once, with the base path
    of the first such file in the order of resolution. *)
Theorem recordedModules_first_file (resolved : list string) :
  NoDup (recorded resolved).*1
  /\ (forall m, Select.mapHas m (recorded resolved) = true
                <-> is_Some (rulesAt m)
                    /\ exists file, file ∈ resolved /\ Bundle.getModuleName file = Some m)
  /\ (forall m b, (m, b) ∈ recorded resolved ->
        exists before file after,
          resolved = before ++ file :: after
          /\ Bundle.getModuleName file = Some m
          /\ Bundle.getModuleBasePath sep file m = Some b
          /\ forall f, f ∈ before -> Bundle.getModuleName f <> Some m).
Proof.
  unfold Select.recordedModules.
  destruct (fold_noteModule resolved []) as (Hnodup & Hhas & Hfirst).
  split; [apply Hnodup, NoDup_nil_2|]. split.
  - intros m. rewrite Hhas. cbn [Select.mapHas existsb]. split; [|tauto].
    intros [H|H]; [discriminate|exact H].
  - intros m b Hin. destruct (Hfirst m b Hin) as [H|(_ & _ & H)]; [|exact H].
    apply elem_of_nil in H. contradiction.
Qed.

End Recorded.

(** *** With bundle rules: the selection *)

Section Selection.
Variable sep : string.
Variable join : string -> string -> string.
Variable minimatch : string -> string -> bool.
Variable readdirSync : string -> option (list string).
Variable statSync : string -> option Stats.
Variable rulesAt : string -> option Bundle.ModuleRule.

Local Abbreviation recorded := (Select.recordedModules sep rulesAt).
Local Abbreviation accepted :=
  (Select.acceptedByScan join minimatch readdirSync statSync rulesAt).
Local Abbreviation scanModule :=
  (Select.scanModule join minimatch readdirSync statSync rulesAt).

Lemma scanModule_None (fuel : nat) (modules : list (string * string)) :
  fold_left (scanModule fuel) modules None = None.
Proof. induction modules as [|entry modules IH]; [reflexivity|exact IH]. Qed.

Lemma fold_scanModule (fuel : nat) (modules : list (string * string))
    (included result : list string) :
  fold_left (scanModule fuel) modules (Some included) = Some result ->
  (NoDup included -> NoDup result)
  /\ forall file, file ∈ result <-> file ∈ included \/ accepted fuel modules file.
Proof.
  revert included. induction modules as [|[m b] modules IH]; intros included; cbn [fold_left].
  - intros [= <-]. split; [trivial|]. intros file. split; [tauto|].
    intros [H|(m & b & rule & scanned & Hin & _)]; [exact H|].
    apply elem_of_nil in Hin. contradiction.
  - unfold Select.scanModule at 2. cbn [fst snd].
    destruct (rulesAt m) as [rule|] eqn:Hrule; [|rewrite scanModule_None; discriminate].
    destruct (Bundle.getAllFilesInModule readdirSync statSync join fuel b) as [scanned|] eqn:Hscan;
      [|rewrite scanModule_None; discriminate].
    intros Hrest. destruct (IH _ Hrest) as [Hnodup Hiff].
    destruct (fold_setAdd (fun file => Bundle.shouldIncludeFile minimatch file m rule)
                scanned included) as [Hnodup' Hiff'].
    split; [intros H; apply Hnodup, Hnodup', H|].
    intros file. rewrite Hiff, Hiff'. split.
    + intros [[H|[Hin Hok]]|(m' & b' & rule' & scanned' & Hin & H)]; [tauto| |].
      * right. exists m, b, rule, scanned. split; [left|]. tauto.
      * right. exists m', b', rule', scanned'. split; [right; exact Hin|exact H].
    + intros [H|(m' & b' & rule' & scanned' & Hin & Hr & Hs & Hfile & Hok)]; [tauto|].
      apply elem_of_cons in Hin as [[= -> ->]|Hin].
      * left. right. assert (rule' = rule) as -> by congruence.
        assert (scanned' = scanned) as -> by congruence. tauto.
      * right. exists m', b', rule', scanned'. tauto.
Qed.

(** X21: with bundle rules, the resources are, once each, the resolved
    files that do not belong to a recorded module, and the files that the scan
    of a recorded module returns and its rule accepts.  A resolved file of a
    recorded module that the scan or the rule leaves out is not added. *)
Theorem resourcesWithRules_selection (fuel : nat) (resolved result : list string) :
  Select.resourcesWithRules sep join minimatch readdirSync statSync rulesAt fuel resolved
    = Some result ->
  NoDup result
  /\ forall file,
       file ∈ result
       <-> (file ∈ resolved
            /\ Select.fromRuledModule (recorded resolved) file = false)
           \/ accepted fuel (recorded resolved) file.
Proof.
  unfold Select.resourcesWithRules. intros Hrun.
  destruct (fold_scanModule _ _ _ _ Hrun) as [Hnodup Hiff].
  destruct (fold_setAdd_with (Select.keepUnruled (recorded resolved))
              (fun file => negb (Select.fromRuledModule (recorded resolved) file))
              resolved []) as [Hnodup' Hiff'].
  { intros acc x. unfold Select.keepUnruled.
    destruct (Select.fromRuledModule _ x); reflexivity. }
  split; [apply Hnodup, Hnodup', NoDup_nil_2|].
  intros file. rewrite Hiff, Hiff', elem_of_nil, negb_true_iff. tauto.
Qed.

(** X22: the selection returns whenever the scans do: on directory trees of
    bounded depth, with fuel above the rank of every recorded base path. *)
Theorem resourcesWithRules_returns (rank : string -> nat) (fuel : nat)
    (resolved : list string) :
  (forall dir entries entry,
      readdirSync dir = Some entries -> entry ∈ entries ->
      statSync (join dir entry) = Some StatDirectory ->
      rank (join dir entry) < rank dir) ->
  (forall m b, (m, b) ∈ recorded resolved -> rank b < fuel) ->
  exists result,
    Select.resourcesWithRules sep join minimatch readdirSync statSync rulesAt fuel resolved
    = Some result.
Proof.
  intros Hrank Hfuel. unfold Select.resourcesWithRules.
  assert (forall m b, (m, b) ∈ recorded resolved -> is_Some (rulesAt m)) as Hrules.
  { intros m b Hin. unfold Select.recordedModules in Hin.
    destruct (fold_noteModule sep rulesAt resolved []) as (_ & _ & Hfirst).
    destruct (Hfirst m b Hin) as [H|(_ & H & _)]; [|exact H].
    apply elem_of_nil in H. contradiction. }
  generalize (fold_left (Select.keepUnruled (recorded resolved)) resolved []).
  revert Hfuel Hrules. generalize (recorded resolved) as modules.
  induction modules as [|[m b] modules IH]; intros Hfuel Hrules included; cbn [fold_left]; [eauto|].
  unfold Select.scanModule at 2. cbn [fst snd].
  destruct (Hrules m b) as [rule ->]; [left|].
  destruct (walk_returns readdirSync statSync join rank Hrank fuel b) as (scanned & Hscan);
    [apply (Hfuel m b); left|].
  unfold Bundle.getAllFilesInModule. rewrite Hscan.
  apply IH; intros m' b' Hin; [eapply Hfuel|eapply Hrules]; right; exact Hin.
Qed.

End Selection.

(** ** The release build task *)

Section BuildPlan.
Variable Target : Type.
Variable platform : Target -> string.
Variable version : Target -> string.
Variable getTarget : string -> Target.
Variable semverGt : string -> string -> bool.

Local Abbreviation plan := (Build.plan Target platform version getTarget semverGt).

(** X23: on a Windows host without a job name nothing is ever compiled:
    the default host name contains both "2017" and "2015", so one of the two
    version guards stops every target. *)
Theorem plan_default_windows_host (AGENT_JOBNAME NEXE_VERSION : option string)
    (releases : list Target) :
  Build.envTruthy AGENT_JOBNAME = false ->
  match plan "win32" AGENT_JOBNAME NEXE_VERSION releases with
  | Build.Compile _ _ | Build.DockerBuild _ => False
  | _ => True
  end.
Proof.
  intros Hjob. unfold Build.plan.
  destruct releases as [|r releases]; [exact I|].
  destruct (Build.chooseTarget _ _ _ _ _ _ _) as [target|]; [|exact I].
  assert (Build.buildHost "win32" AGENT_JOBNAME = "windows_2017_2015") as ->.
  { unfold Build.buildHost. rewrite Hjob. reflexivity. }
  change (Build.isWindows "win32") with true.
  change (Build.includes "windows_2017_2015" "2017") with true.
  change (Build.includes "windows_2017_2015" "2015") with true.
  cbn [andb]. destruct (semverGt (version target) "9.99.99"); exact I.
Qed.

(** X24: a host whose name contains "alpine" builds the alpine release and
    nothing else; [NEXE_VERSION] does not change that. *)
Theorem plan_alpine_host (processPlatform : string)
    (AGENT_JOBNAME NEXE_VERSION : option string) (r : Target) (releases : list Target) :
  Build.includes (Build.buildHost processPlatform AGENT_JOBNAME) "alpine" = true ->
  Build.isWindows processPlatform = false ->
  plan processPlatform AGENT_JOBNAME NEXE_VERSION (r :: releases)
  = match Build.findPlatform Target platform "alpine" (r :: releases) with
    | Some target => Build.DockerBuild target
    | None => Build.NothingToBuild
    end.
Proof.
  intros Hhost Hwin. unfold Build.plan, Build.chooseTarget. rewrite Hhost, Hwin.
  destruct (Build.findPlatform Target platform "alpine" (r :: releases)) as [target|] eqn:Hfind;
    [|reflexivity].
  cbn [andb]. apply List.find_some in Hfind as [_ Hplatform].
  unfold Str.includes. cbn [existsb]. rewrite Hplatform. reflexivity.
Qed.

(** X25: what is compiled or built in Docker respects the host: Docker
    only for an alpine target on an alpine host; on Windows, no target at or
    below 9.99.99 on a "2017" host and none above it on a "2015" host. *)
Theorem plan_respects_host (processPlatform : string)
    (AGENT_JOBNAME NEXE_VERSION : option string) (releases : list Target) :
  let host := Build.buildHost processPlatform AGENT_JOBNAME in
  match plan processPlatform AGENT_JOBNAME NEXE_VERSION releases with
  | Build.DockerBuild target =>
      platform target = "alpine" /\ Build.includes host "alpine" = true
  | Build.Compile target output =>
      (platform target <> "alpine" \/ Build.includes host "alpine" = false)
      /\ (Build.isWindows processPlatform = true ->
            (Build.includes host "2017" = true ->
               semverGt (version target) "9.99.99" = true)
            /\ (Build.includes host "2015" = true ->
               semverGt (version target) "9.99.99" = false))
  | _ => True
  end.
Proof.
  intros host. unfold Build.plan. fold host.
  destruct releases as [|r releases]; [exact I|].
  destruct (Build.chooseTarget _ _ _ _ _ _ _) as [target|]; [|exact I].
  destruct (Build.isWindows processPlatform) eqn:Hwin;
    destruct (Build.includes host "2017") eqn:H17;
    destruct (Build.includes host "2015") eqn:H15;
    destruct (semverGt (version target) "9.99.99") eqn:Hgt;
    cbn [andb negb]; try exact I;
    unfold Str.includes; cbn [existsb]; rewrite orb_false_r;
    destruct (String.eqb_spec (platform target) "alpine") as [Heq|Hne];
    destruct (Build.includes host "alpine") eqn:Halpine; cbn [andb];
    repeat split; auto; try discriminate; try congruence.
Qed.

End BuildPlan.

(** ** The further properties on concrete inputs *)

(** X2 on the left-pad scenario: the path the hook adds is a file of the
    archive. *)
Lemma nexeFindPath_adds_only_files_example :
  World.findPath leftPadArchive JsonText.parse (Ret (VBool false)) "left-pad"
  = Ret (VStr "/snapshot/node_modules/left-pad/cjs/index.js")
  /\ (VStr "/snapshot/node_modules/left-pad/cjs/index.js" = originalResult (Ret (VBool false))
      \/ exists p, VStr "/snapshot/node_modules/left-pad/cjs/index.js" = VStr p
                   /\ isFile (World.call_statSync leftPadArchive) World.installed p = true).
Proof.
  split; [vm_compute; reflexivity|].
  apply (nexeFindPath_adds_only_files Path.posixIsAbsolute JsonText.parse
           (World.call_statSync leftPadArchive) (World.call_readFileSync leftPadArchive)
           World.installed (Ret (VBool false)) "left-pad").
  vm_compute. reflexivity.
Defined.

(** X3 on a manifest that holds [null]. *)
Lemma nexeFindPath_throws_example :
  World.findPath nullManifestArchive JsonText.parse (Ret (VBool false)) "pkg"
  = Throw TypeError
  /\ manifest JsonText.parse (World.call_readFileSync nullManifestArchive)
       World.installed "pkg" JNull.
Proof.
  split; [vm_compute; reflexivity|].
  apply (proj1 (nexeFindPath_throws_only_on_null_manifest Path.posixIsAbsolute
                  JsonText.parse (World.call_statSync nullManifestArchive)
                  (World.call_readFileSync nullManifestArchive)
                  World.installed (Ret (VBool false)) "pkg" TypeError)).
  vm_compute. reflexivity.
Defined.

(** X4 on the nested manifest. *)
Lemma resolvePackageExports_leaf_example :
  resolvePackageExports nestedExports Spec.conditions = Some "./b.js"
  /\ hasStringLeaf "./b.js" nestedExports = true.
Proof.
  split; [vm_compute; reflexivity|].
  apply (resolvePackageExports_returns_a_manifest_string Spec.conditions nestedExports).
  vm_compute. reflexivity.
Defined.

(** X5: [default] written before [require] wins. *)
Lemma resolveExportsObject_manifest_order_example :
  resolveExportsObject ["require"; "node"; "default"]
    (JObj [("import", JStr "./m.mjs"); ("default", JStr "./d.js"); ("require", JStr "./r.js")])
  = Some "./d.js".
Proof.
  apply (resolveExportsObject_manifest_order ["require"; "node"; "default"]
           [("import", JStr "./m.mjs")] [("require", JStr "./r.js")] "default" "./d.js").
  - constructor; [reflexivity | constructor].
  - reflexivity.
Defined.

(** X7 with the host's own [fs], on which the uninstall throws. *)
Lemma no_install_after_uninstall_example :
  let after := restoreFs NodeFs.writable NodeFs.keyOrder
                 (World.install World.header NodeFs.loaded).2 in
  after.1 = Throw TypeError
  /\ World.install World.header after.2 = (Ret tt, after.2).
Proof.
  intros after. split; [vm_compute; reflexivity|].
  apply (no_install_after_uninstall World.call_openSync World.call_readSync
           World.ZipFS_new World.patchFs NodeFs.writable NodeFs.keyOrder
           World.header World.header NodeFs.loaded
           (World.install World.header NodeFs.loaded).2).
  - reflexivity.
  - vm_compute. reflexivity.
Defined.

(** X8 with the header that runs past the end of the executable. *)
Lemma failed_install_blocks_retry_example :
  let failed := (World.install World.longHeader World.loaded).2 in
  fs failed = World.fs0
  /\ World.install World.header failed = (Ret tt, failed).
Proof.
  intros failed.
  destruct (failed_install_blocks_retry World.call_openSync World.call_readSync
              World.ZipFS_new World.patchFs World.longHeader World.header World.loaded
              failed AssertionError)
    as (Hfs & _ & _ & Hretry).
  - reflexivity.
  - vm_compute. reflexivity.
  - split; [exact Hfs | exact Hretry].
Defined.

(** X9 in a runtime whose [fs] has no [readFileSync]: the overlay's method
    is still there after the uninstall. *)
Lemma uninstall_keeps_added_methods_example :
  let st1 := (World.install World.header Disk.bare).2 in
  let after := (restoreFs NodeFs.writable NodeFs.keyOrder st1).2 in
  fs Disk.bare !! "readFileSync" = None
  /\ fs st1 !! "readFileSync" = Some (OverlayFn "readFileSync")
  /\ fs after !! "readFileSync" = fs st1 !! "readFileSync".
Proof.
  intros st1 after.
  split; [vm_compute; reflexivity|].
  split; [vm_compute; reflexivity|].
  apply (uninstall_keeps_added_methods World.call_openSync World.call_readSync
           World.ZipFS_new World.patchFs NodeFs.writable NodeFs.keyOrder
           World.header Disk.bare st1).
  - reflexivity.
  - vm_compute. reflexivity.
  - vm_compute. reflexivity.
Defined.

(** X11 on a closed descriptor and on a directory of the archive. *)
Lemma internalModuleStat_range_example :
  let statHook :=
    internalModuleStat "/usr/bin" World.relative World.ENOENT World.call_fstatSync
      (World.call_statSync sampleArchive) World.installed (fun _ => Throw TypeError) in
  (exists n, statHook [VNum 4] = Ret (VNum n)
             /\ (n = 0 \/ n = 1 \/ n = - World.ENOENT)%Z)
  /\ (exists n, statHook [VStr "/usr/bin/app"] = Ret (VNum n)
                /\ (n = 0 \/ n = 1 \/ n = - World.ENOENT)%Z).
Proof.
  intros statHook. split.
  - apply (internalModuleStat_range "/usr/bin" World.relative World.ENOENT
             World.call_fstatSync (World.call_statSync sampleArchive) World.installed
             (fun _ => Throw TypeError) [VNum 4]).
    left. exists 4%Z. reflexivity.
  - apply (internalModuleStat_range "/usr/bin" World.relative World.ENOENT
             World.call_fstatSync (World.call_statSync sampleArchive) World.installed
             (fun _ => Throw TypeError) [VStr "/usr/bin/app"]).
    right. exists "/usr/bin/app". left. exists []. reflexivity.
Defined.

(** X12 on a plain and on a scoped module, with either separator. *)
Lemma getModuleName_of_module_file_example :
  Bundle.getModuleName "/app/node_modules/a/test/t.js" = Some "a"
  /\ Bundle.getModuleName "C:\app\node_modules\@scope\pkg\lib\x.js" = Some "@scope/pkg".
Proof.
  split.
  - apply (getModuleName_of_module_file "/app" "a" "test/t.js" "/" "/" "/");
      try reflexivity; try discriminate.
    intros H. apply list_elem_of_In in H. vm_compute in H. intuition discriminate.
  - apply (getModuleName_of_module_file "C:\app" "@scope" "pkg\lib\x.js" "\" "\" "\");
      try reflexivity; try discriminate.
    intros H. apply list_elem_of_In in H. vm_compute in H. intuition discriminate.
Defined.

(** X13 on a file of the project itself and on the [node_modules] directory. *)
Lemma getModuleName_outside_node_modules_example :
  Bundle.getModuleName "/app/main.js" = None
  /\ Bundle.getModuleName "/app/node_modules" = None.
Proof.
  split.
  - apply (proj1 (getModuleName_outside_node_modules "/app/main.js")).
    intros H. apply list_elem_of_In in H. vm_compute in H. intuition discriminate.
  - apply (proj1 (proj2 (getModuleName_outside_node_modules "/app/node_modules"))
             "/app" "/"%char); reflexivity.
Defined.

(** X14 on a file of module [a]. *)
Lemma getModuleBasePath_is_prefix_example :
  exists base rest,
    Bundle.getModuleBasePath "/" "/app/node_modules/a/test/t.js" "a" = Some base
    /\ "/app/node_modules/a/test/t.js" = base +:+ rest
    /\ (rest = EmptyString \/ exists r, rest = String "/" r).
Proof.
  apply (getModuleBasePath_is_prefix "/" "/app/node_modules/a/test/t.js" "a");
    reflexivity.
Defined.

(** X15 on a module nested in a copy of itself: the path is taken after the
    first marker. *)
Lemma getModuleRelativePath_after_first_marker_example :
  exists before,
    "/x/node_modules/a/node_modules/a/i.js"
    = before +:+ "node_modules/a/"
      +:+ Bundle.getModuleRelativePath "/x/node_modules/a/node_modules/a/i.js" "a"
    /\ String.length before <= 3.
Proof.
  apply (proj2 (getModuleRelativePath_after_first_marker
                  "/x/node_modules/a/node_modules/a/i.js" "a")
           "/x/" "node_modules/a/i.js").
  reflexivity.
Defined.

(** X16 with the rule of module [a], which excludes its tests. *)
Lemma shouldIncludeFile_rule_example :
  Bundle.shouldIncludeFile Disk.minimatch "/app/node_modules/a/index.js" "a"
    {| Bundle.include := None; Bundle.exclude := Some ["test/**"] |} = true.
Proof.
  apply (proj2 (shouldIncludeFile_rule Disk.minimatch "/app/node_modules/a/index.js" "a"
                  {| Bundle.include := None; Bundle.exclude := Some ["test/**"] |})).
  split; [vm_compute; discriminate|].
  right. split; [exact I|].
  intros globs glob [= <-] Hin. apply list_elem_of_singleton in Hin. subst glob.
  vm_compute. reflexivity.
Defined.

Lemma disk_rank (dir : string) (entries : list string) (entry : string) :
  Disk.readdirSync dir = Some entries -> entry ∈ entries ->
  Disk.statSync (Disk.join dir entry) = Some StatDirectory ->
  Disk.rank (Disk.join dir entry) < Disk.rank dir.
Proof.
  unfold Disk.readdirSync.
  destruct (String.eqb_spec dir "/app/node_modules/a") as [->|_].
  - intros [= <-] Hin. apply list_elem_of_In in Hin.
    destruct Hin as [<-|[<-|[<-|[]]]]; vm_compute; intros H;
      [discriminate H|discriminate H|lia].
  - destruct (String.eqb_spec dir "/app/node_modules/a/test") as [->|_]; [|discriminate].
    intros [= <-] Hin. apply list_elem_of_singleton in Hin. subst entry.
    vm_compute. discriminate.
Qed.

(** X17 on the directory of module [a]. *)
Lemma getAllFilesInModule_regular_files_example :
  Bundle.getAllFilesInModule Disk.readdirSync Disk.statSync Disk.join 2 "/app/node_modules/a"
  = Some ["/app/node_modules/a/index.js"; "/app/node_modules/a/package.json";
          "/app/node_modules/a/test/t.js"]
  /\ Disk.statSync "/app/node_modules/a/test/t.js" = Some StatFile.
Proof.
  split; [vm_compute; reflexivity|].
  apply (getAllFilesInModule_regular_files Disk.readdirSync Disk.statSync Disk.join 2
           "/app/node_modules/a"
           ["/app/node_modules/a/index.js"; "/app/node_modules/a/package.json";
            "/app/node_modules/a/test/t.js"]).
  - vm_compute. reflexivity.
  - apply list_elem_of_In. right. right. left. reflexivity.
Defined.

(** X18 on the directory of module [a], whose tree is one level deep. *)
Lemma getAllFilesInModule_returns_example :
  exists files,
    forall fuel, Disk.rank "/app/node_modules/a" < fuel ->
      Bundle.getAllFilesInModule Disk.readdirSync Disk.statSync Disk.join fuel
        "/app/node_modules/a" = Some files.
Proof.
  apply (getAllFilesInModule_returns Disk.readdirSync Disk.statSync Disk.join Disk.rank
           "/app/node_modules/a").
  exact disk_rank.
Defined.

(** X20 on the project: module [a] is recorded at its first resolved file. *)
Lemma recordedModules_first_file_example :
  exists before file after,
    Disk.resolved = before ++ file :: after
    /\ Bundle.getModuleName file = Some "a"
    /\ Bundle.getModuleBasePath "/" file "a" = Some "/app/node_modules/a"
    /\ forall f, f ∈ before -> Bundle.getModuleName f <> Some "a".
Proof.
  apply (proj2 (proj2 (recordedModules_first_file "/" Disk.rulesAt Disk.resolved))
           "a" "/app/node_modules/a").
  apply list_elem_of_In. vm_compute. left. reflexivity.
Defined.

(** X21 on the project: the resolved test of [a] is dropped, and the
    manifest of [a], which was not resolved, is added. *)
Lemma resourcesWithRules_selection_example :
  let result := ["/app/main.js"; "/app/node_modules/a/index.js";
                 "/app/node_modules/a/package.json"] in
  Select.resourcesWithRules "/" Disk.join Disk.minimatch Disk.readdirSync Disk.statSync
    Disk.rulesAt 2 Disk.resolved = Some result
  /\ NoDup result
  /\ forall file,
       file ∈ result
       <-> (file ∈ Disk.resolved
            /\ Select.fromRuledModule
                 (Select.recordedModules "/" Disk.rulesAt Disk.resolved) file = false)
           \/ Select.acceptedByScan Disk.join Disk.minimatch Disk.readdirSync Disk.statSync
                Disk.rulesAt 2 (Select.recordedModules "/" Disk.rulesAt Disk.resolved) file.
Proof.
  intros result. split; [vm_compute; reflexivity|].
  apply (resourcesWithRules_selection "/" Disk.join Disk.minimatch Disk.readdirSync
           Disk.statSync Disk.rulesAt 2 Disk.resolved result).
  vm_compute. reflexivity.
Defined.

(** X22 on the project. *)
Lemma resourcesWithRules_returns_example :
  exists result,
    Select.resourcesWithRules "/" Disk.join Disk.minimatch Disk.readdirSync Disk.statSync
      Disk.rulesAt 2 Disk.resolved = Some result.
Proof.
  apply (resourcesWithRules_returns "/" Disk.join Disk.minimatch Disk.readdirSync
           Disk.statSync Disk.rulesAt Disk.rank 2 Disk.resolved).
  - exact disk_rank.
  - intros m b Hin. apply list_elem_of_In in Hin. vm_compute in Hin.
    destruct Hin as [[= <- <-]|[]]. vm_compute. lia.
Defined.

(** X23 with the unbuilt releases above. *)
Lemma plan_default_windows_host_example :
  Build.plan (string * string) fst snd Disk.getTarget Disk.semverGt "win32" None None
    Disk.releases
  = Build.NotOnThisHost ("windows", "18.0.0")
  /\ match Build.plan (string * string) fst snd Disk.getTarget Disk.semverGt "win32" None
             (Some "8.0.0") Disk.releases with
     | Build.Compile _ _ | Build.DockerBuild _ => False
     | _ => True
     end.
Proof.
  split; [vm_compute; reflexivity|].
  apply (plan_default_windows_host (string * string) fst snd Disk.getTarget Disk.semverGt
           None (Some "8.0.0") Disk.releases).
  reflexivity.
Defined.

(** X24 on an Alpine job of a Linux host, with a version requested. *)
Lemma plan_alpine_host_example :
  Build.plan (string * string) fst snd Disk.getTarget Disk.semverGt "linux"
    (Some "alpine_docker") (Some "20.0.0") Disk.releases
  = Build.DockerBuild ("alpine", "18.0.0").
Proof.
  exact (plan_alpine_host (string * string) fst snd Disk.getTarget Disk.semverGt "linux"
           (Some "alpine_docker") (Some "20.0.0") ("windows", "18.0.0")
           [("linux", "18.0.0"); ("alpine", "18.0.0")] eq_refl eq_refl).
Defined.

(** X25 on a Windows 2017 job: what it compiles is newer than 9.99.99. *)
Lemma plan_respects_host_example :
  let host := Build.buildHost "win32" (Some "windows_2017") in
  match Build.plan (string * string) fst snd Disk.getTarget Disk.semverGt "win32"
          (Some "windows_2017") None Disk.releases with
  | Build.DockerBuild target =>
      target.1 = "alpine" /\ Build.includes host "alpine" = true
  | Build.Compile target output =>
      (target.1 <> "alpine" \/ Build.includes host "alpine" = false)
      /\ (Build.isWindows "win32" = true ->
            (Build.includes host "2017" = true ->
               Disk.semverGt target.2 "9.99.99" = true)
            /\ (Build.includes host "2015" = true ->
               Disk.semverGt target.2 "9.99.99" = false))
  | _ => True
  end.
Proof.
  exact (plan_respects_host (string * string) fst snd Disk.getTarget Disk.semverGt "win32"
           (Some "windows_2017") None Disk.releases).
Defined.

(** X26 on a file of the scoped module [@scope/pkg], on a Windows host. *)
Lemma module_guards_always_pass_example :
  Bundle.getModuleName "C:\app\node_modules\@scope\pkg\lib\x.js" = Some "@scope/pkg"
  /\ Str.isEmpty "@scope/pkg" = false
  /\ exists basePath,
       Bundle.getModuleBasePath "\" "C:\app\node_modules\@scope\pkg\lib\x.js" "@scope/pkg"
       = Some basePath
       /\ Str.isEmpty basePath = false.
Proof.
  split; [vm_compute; reflexivity|].
  apply (module_guards_always_pass "\" "C:\app\node_modules\@scope\pkg\lib\x.js"
           "@scope/pkg").
  vm_compute. reflexivity.
Defined.
